(** * mirage.wfss_simulator: the WFSS orchestrator, embedded and verified

    Shallow embedding of [mirage/wfss_simulator.py] (class [WFSSSim]).

    Conventions of the embedding.
    - Python exceptions are the constructors of [exn]; a call that may raise
      returns a [result].
    - numpy float64 images are two-dimensional arrays of exact rationals
      ([Qc]): rounding, overflow, [inf] and [nan] are not modelled, and where
      numpy would produce [inf] or [nan] (division by zero) the rational
      model follows the convention [x / 0 = 0].
      Where a property turns on what float64 does there, the operation on
      the pixels is also given on primitive floats (module [Float64]).
    - Python integers are [Z]; list and array positions are [nat].
    - The collaborators living outside the module (seed generator, disperser,
      background library, FITS reader, spectra builder, exposure assembly)
      and the constants imported from [utils.constants] are the fields of the
      class [Collaborators]. *)

From Stdlib Require Import Ascii String QArith Qcanon Floats.
From stdpp Require Import base option list numbers strings gmap.

Local Open Scope string_scope.
Local Open Scope nat_scope.

(** ** Python results and exceptions *)

Inductive exn : Type :=
  | ValueError (msg : string)
  | FileNotFoundError (msg : string)
  | IndexError
  | KeyError (key : string)
  | TypeError
  | AttributeError (name : string)
  | UnboundLocalError (var : string).

Inductive result (A : Type) : Type :=
  | Ok (a : A)
  | Raise (e : exn).
Arguments Ok {A} a.
Arguments Raise {A} e.

#[export] Instance result_ret : MRet result := λ A a, Ok a.
#[export] Instance result_bind : MBind result := λ A B f m,
  match m with
  | Ok a => f a
  | Raise e => Raise e
  end.
#[export] Instance exn_eq_dec : EqDecision exn.
Proof. solve_decision. Defined.
#[export] Instance result_eq_dec `{EqDecision A} : EqDecision (result A).
Proof. solve_decision. Defined.

Definition is_Ok {A} (r : result A) : Prop := ∃ a, r = Ok a.

(** [x[i]] on a Python list *)
Definition py_index {A} (l : list A) (i : nat) : result A :=
  match l !! i with
  | Some a => Ok a
  | None => Raise IndexError
  end.

(** A local variable that is assigned on some paths only *)
Definition py_local {A} (name : string) (v : option A) : result A :=
  match v with
  | Some a => Ok a
  | None => Raise (UnboundLocalError name)
  end.

(** ** Strings *)

Definition ascii_lower (c : ascii) : ascii :=
  let n := nat_of_ascii c in
  if bool_decide (65 ≤ n ≤ 90) then ascii_of_nat (n + 32) else c.

Definition ascii_upper (c : ascii) : ascii :=
  let n := nat_of_ascii c in
  if bool_decide (97 ≤ n ≤ 122) then ascii_of_nat (n - 32) else c.

Fixpoint string_map (f : ascii → ascii) (s : string) : string :=
  match s with
  | EmptyString => EmptyString
  | String c s' => String (f c) (string_map f s')
  end.

(** [s.lower()] and [s.upper()] on ASCII text *)
Definition lower (s : string) : string := string_map ascii_lower s.
Definition upper (s : string) : string := string_map ascii_upper s.

(** ** Two-dimensional numpy arrays *)

Module NdArray.

(** A 2-d array: its rows, and the second component of its shape (kept
    apart from the rows, as numpy keeps it for an array with no row). *)
Record ndarray : Type := mk { ncols : nat; rows : list (list Qc) }.

Definition nrows (a : ndarray) : nat := length (rows a).
Definition shape (a : ndarray) : nat * nat := (nrows a, ncols a).

Definition wf (a : ndarray) : Prop :=
  Forall (λ r, length r = ncols a) (rows a).

Definition pixel (a : ndarray) (r c : nat) : option Qc :=
  rows a !! r ≫= λ row, row !! c.

#[global] Instance ndarray_eq_dec : EqDecision ndarray.
Proof. solve_decision. Defined.

(** [np.zeros((yl, xl))] *)
Definition zeros (yl xl : nat) : ndarray :=
  mk xl (replicate yl (replicate xl 0%Qc)).

(** Clipping of a slice bound [i] against a length, as Python does it. *)
Definition slice_bound (len : nat) (i : Z) : nat :=
  if bool_decide (i < 0)%Z
  then Z.to_nat (Z.max 0 (i + Z.of_nat len))
  else Z.to_nat (Z.min i (Z.of_nat len)).

(** [l[start:stop]] *)
Definition py_slice {A} (start stop : Z) (l : list A) : list A :=
  let lo := slice_bound (length l) start in
  let hi := slice_bound (length l) stop in
  take (hi - lo) (drop lo l).

Definition slice_len (len : nat) (start stop : Z) : nat :=
  slice_bound len stop - slice_bound len start.

(** [a[r0:r1, c0:c1]] *)
Definition slice2 (a : ndarray) (r0 r1 c0 c1 : Z) : ndarray :=
  mk (slice_len (ncols a) c0 c1)
     (py_slice c0 c1 <$> py_slice r0 r1 (rows a)).

(** [l[lo:hi] = v] with non-negative literal bounds; [hi = None] is an
    open upper bound. *)
Definition in_range (lo : nat) (hi : option nat) (i : nat) : bool :=
  bool_decide (lo ≤ i) && from_option (λ h, bool_decide (i < h)) true hi.

Definition fill_range {A} (lo : nat) (hi : option nat) (f : A → A)
    (l : list A) : list A :=
  imap (λ i x, if in_range lo hi i then f x else x) l.

Definition zero_row (row : list Qc) : list Qc := (λ _, 0%Qc) <$> row.

(** [a[lo:hi, :] = 0.] *)
Definition zero_rows (lo : nat) (hi : option nat) (a : ndarray) : ndarray :=
  mk (ncols a) (fill_range lo hi zero_row (rows a)).

(** [a[:, lo:hi] = 0.] *)
Definition zero_cols (lo : nat) (hi : option nat) (a : ndarray) : ndarray :=
  mk (ncols a) (fill_range lo hi (λ _, 0%Qc) <$> rows a).

Definition map2 (f : Qc → Qc → Qc) (a b : ndarray) : ndarray :=
  mk (ncols a) (zip_with (zip_with f) (rows a) (rows b)).

Definition add (a b : ndarray) : ndarray := map2 Qcplus a b.

(** [a += b] for an operand of the same shape. An operand of another
    shape is rejected (numpy would try to broadcast it; the disperser
    always hands back a full frame). *)
Definition iadd (a b : ndarray) : result ndarray :=
  if decide (shape a = shape b) then Ok (add a b)
  else Raise (ValueError "operands could not be broadcast together").

Definition map (f : Qc → Qc) (a : ndarray) : ndarray :=
  mk (ncols a) ((λ row : list Qc, f <$> row) <$> rows a).

(** [a / g] and [a /= g] *)
Definition div_scalar (a : ndarray) (g : Qc) : ndarray :=
  map (λ p, (p / g)%Qc) a.

(** [np.array(rows)] for integer pixel values, with the row length given *)
Definition of_Z (xl : nat) (rows : list (list Z)) : ndarray :=
  mk xl ((λ row : list Z, Qc_of_Z <$> row) <$> rows).

(** all the pixels, row after row: [a.ravel()] *)
Definition ravel (a : ndarray) : list Qc := concat (rows a).

End NdArray.
Export NdArray(ndarray).

(** ** Float64 pixels *)

Module Float64.

(** [disp_seed /= gain] on float64 pixels *)
Definition div_scalar (a : list (list float)) (gain : float) : list (list float) :=
  List.map (List.map (λ p, PrimFloat.div p gain)) a.

(** [background_image / background_mean * scaling_factor] on float64 pixels *)
Definition rescale (a : list (list float)) (background_mean scaling_factor : float) :
    list (list float) :=
  List.map (List.map (λ p, PrimFloat.mul (PrimFloat.div p background_mean) scaling_factor)) a.

End Float64.

(** ** [WFSSSim.crop_to_subarray] *)

Definition subarray_error : exn :=
  ValueError "WARNING: subarray bounds are outside the dimensions of the input array.".

Definition bound_ok (len : nat) (b : Z) : bool :=
  bool_decide (0 ≤ b)%Z && bool_decide (b < Z.of_nat len)%Z.

Definition crop_to_subarray (data : ndarray) (bounds : list Z) : result ndarray :=
  let yl := NdArray.nrows data in
  let xl := NdArray.ncols data in
  (* bounds[0:3:2] and bounds[1:4:2] *)
  let valid := bound_ok xl <$> omap (λ i : nat, bounds !! i) [0; 2] in
  let validy := bound_ok yl <$> omap (λ i : nat, bounds !! i) [1; 3] in
  let valid := (valid ++ validy)%list in
  if forallb id valid then
    b1 ← py_index bounds 1;
    b3 ← py_index bounds 3;
    b0 ← py_index bounds 0;
    b2 ← py_index bounds 2;
    Ok (NdArray.slice2 data b1 (b3 + 1)%Z b0 (b2 + 1)%Z)
  else Raise subarray_error.

(** ** More of Python's [str] and [os.path] *)

Definition SEP : ascii := "/"%char.

(** [s[i]] for [i >= 0] *)
Definition str_index (s : string) (i : nat) : result string :=
  match String.get i s with
  | Some c => Ok (String c EmptyString)
  | None => Raise IndexError
  end.

(** [s[-1]] *)
Definition str_last (s : string) : result string :=
  match s with
  | EmptyString => Raise IndexError
  | _ => str_index s (String.length s - 1)
  end.

(** [s.split(sep)[0]]: the text before the first occurrence of [sep] *)
Fixpoint before_first (sep s : string) : string :=
  if String.prefix sep s then EmptyString
  else match s with
       | EmptyString => EmptyString
       | String c s' => String c (before_first sep s')
       end.

(** [(p[:i], p[i:])] for [i = p.rfind('/') + 1] *)
Fixpoint rsplit_sep (p : string) : string * string :=
  match p with
  | EmptyString => (EmptyString, EmptyString)
  | String c p' =>
      let '(h, t) := rsplit_sep p' in
      match h with
      | String _ _ => (String c h, t)
      | EmptyString =>
          if Ascii.eqb c SEP then (String c EmptyString, p') else (EmptyString, p)
      end
  end.

Fixpoint all_sep (s : string) : bool :=
  match s with
  | EmptyString => true
  | String c s' => Ascii.eqb c SEP && all_sep s'
  end.

(** [s.rstrip('/')] *)
Fixpoint rstrip_sep (s : string) : string :=
  match s with
  | EmptyString => EmptyString
  | String c s' => if all_sep s then EmptyString else String c (rstrip_sep s')
  end.

(** [os.path.split] (posixpath) *)
Definition os_path_split (p : string) : string * string :=
  let '(head, tail) := rsplit_sep p in
  if negb (String.eqb head "") && negb (all_sep head)
  then (rstrip_sep head, tail)
  else (head, tail).

(** [s.endswith('/')] *)
Fixpoint ends_with_sep (s : string) : bool :=
  match s with
  | EmptyString => false
  | String c EmptyString => Ascii.eqb c SEP
  | String _ s' => ends_with_sep s'
  end.

(** [os.path.join(a, b)] (posixpath) *)
Definition os_path_join (a b : string) : string :=
  if String.prefix "/" b then b
  else if String.eqb a "" || ends_with_sep a then a +:+ b
  else a +:+ "/" +:+ b.

(** ** The configuration documents *)

(** The values of a [bkgdrate] entry, by the tests made on it: a [str]
    ([isinstance(v, str)]), a real number ([np.isreal(v)] holds), or a value
    that is not a [str] and of which [np.isreal] is false (a number with an
    imaginary part, for instance). *)
Inductive pyval : Type :=
  | PyStr (s : string)
  | PyNum (x : Qc)
  | PyNotReal.

(** A loaded yaml parameter file, with the entries the simulator reads.
    [simSignals_catalogs] holds [params['simSignals'][cattype]] for the
    entries [cattype] of [CATALOG_YAML_ENTRIES] that do not contain
    ['tso_'], in that order. *)
Record Params : Type := mkParams {
  Inst_instrument : string;
  Inst_mode : string;
  Readout_array_name : string;
  Readout_filter : string;
  Readout_pupil : string;
  Output_file : string;
  Output_directory : string;
  Output_date_obs : string;
  Output_grism_source_image : bool;
  simSignals_catalogs : list string;
  simSignals_bkgdrate : pyval;
  simSignals_use_dateobs_for_background : bool;
  Telescope_ra : Qc;
  Telescope_dec : Qc;
  Reffiles_flux_cal : string;
  Reffiles_filter_throughput : string
}.

(** [params['Inst']['mode'] = 'wfss'; params['Output']['grism_source_image'] = True] *)
Definition update_to_wfss_mode (p : Params) : Params :=
  mkParams (Inst_instrument p) "wfss" (Readout_array_name p) (Readout_filter p)
    (Readout_pupil p) (Output_file p) (Output_directory p) (Output_date_obs p)
    true (simSignals_catalogs p) (simSignals_bkgdrate p)
    (simSignals_use_dateobs_for_background p) (Telescope_ra p) (Telescope_dec p)
    (Reffiles_flux_cal p) (Reffiles_filter_throughput p).

(** ** FITS files, disperser calls and the outside world *)

Definition header : Type := list (string * string).

Record ImageHDU : Type := mkImageHDU { hdu_data : ndarray; hdu_header : header }.

(** [fits.HDUList([fits.PrimaryHDU(), ...])]: a primary unit that holds a
    header only, then the image extensions. *)
Record HDUList : Type := mkHDUList { primary_header : header; extensions : list ImageHDU }.

Inductive source_class : Type := PointSources | Galaxies | ExtendedSources.

#[export] Instance source_class_eq_dec : EqDecision source_class.
Proof. solve_decision. Defined.

Definition spectrum : Type := list Qc * list Qc.

(** The arguments [Grism_seed] is constructed with. *)
Record GrismArgs : Type := mkGrismArgs {
  g_seed_files : list (option string);
  g_crossing_filter : string;
  g_dmode : string;
  g_config_path : string;
  g_instrument : string;
  g_extrapolate_SED : bool;
  g_SED_file : option string;
  g_SBE_save : option string
}.

(** What a run does that can be observed from outside: the [finalize] calls
    made on the dispersers (one disperser per source class) and the FITS
    files written. *)
Inductive event : Type :=
  | EvFinalize (cls : source_class) (g : GrismArgs) (Back : option ndarray)
  | EvWriteFits (filename : string) (hdus : HDUList).

#[export] Instance ImageHDU_eq_dec : EqDecision ImageHDU.
Proof. solve_decision. Defined.
#[export] Instance HDUList_eq_dec : EqDecision HDUList.
Proof. solve_decision. Defined.
#[export] Instance GrismArgs_eq_dec : EqDecision GrismArgs.
Proof. solve_decision. Defined.
#[export] Instance event_eq_dec : EqDecision event.
Proof. solve_decision. Defined.

(** The outside world: the environment, the yaml files on disk (by path,
    with their loaded contents), the other regular files, and the events
    so far, oldest first. *)
Record world : Type := mkWorld {
  environ : gmap string string;
  yaml_files : gmap string Params;
  data_files : gset string;
  events : list event
}.

Definition os_path_isfile (w : world) (p : string) : bool :=
  bool_decide (is_Some (yaml_files w !! p)) || bool_decide (p ∈ data_files w).

Definition write_yaml (path : string) (p : Params) (w : world) : world :=
  mkWorld (environ w) (<[path := p]> (yaml_files w)) (data_files w) (events w).

Definition emit (e : event) (w : world) : world :=
  mkWorld (environ w) (yaml_files w) (data_files w) (events w ++ [e])%list.

(** Computations that read and change the world and may raise. *)
Definition io (A : Type) : Type := world → world * result A.

#[export] Instance io_ret : MRet io := λ A a w, (w, Ok a).
#[export] Instance io_bind : MBind io := λ A B f m w,
  match m w with
  | (w', Ok a) => f a w'
  | (w', Raise e) => (w', Raise e)
  end.

Definition lift {A} (r : result A) : io A := λ w, (w, r).
Definition raise {A} (e : exn) : io A := λ w, (w, Raise e).
Definition get_world : io world := λ w, (w, Ok w).
Definition modify_world (f : world → world) : io unit := λ w, (f w, Ok tt).

(** [for x in l: s = body(s, x)] with [break]: the body also says whether
    the loop goes on. *)
Fixpoint for_each {A S} (body : S → A → io (S * bool)) (s : S) (l : list A) : io S :=
  match l with
  | [] => mret s
  | x :: l' => '(s', continue) ← body s x;
               if continue : bool then for_each body s' l' else mret s'
  end.

(** [enumerate(l)] *)
Definition enumerate {A} (l : list A) : list (nat * A) := imap pair l.

(** [with open(pfile) as infile: params = yaml.safe_load(infile)] *)
Definition load_yaml (pfile : string) : io Params := λ w,
  match yaml_files w !! pfile with
  | Some p => (w, Ok p)
  | None => (w, Raise (FileNotFoundError pfile))
  end.

(** ** The simulator object *)

Inductive dark_arg : Type :=
  | DarkNone
  | DarkFile (f : string)
  | DarkList (fs : list string).

(** The keyword arguments of [WFSSSim.__init__], stored as they are given. *)
Record UserInputs : Type := mkInputs {
  in_SED_file : option string;
  SED_normalizing_catalog_column : option string;
  final_SED_file : option string;
  SED_dict : option (gmap string spectrum);
  save_dispersed_seed : bool;
  source_stamps_file : option string;
  extrapolate_SED : bool;
  override_dark : dark_arg;
  in_disp_seed_filename : option string;
  offline : bool
}.

(** The attributes [find_param_info] sets on [self]; [None] while unset. *)
Record ParamInfo : Type := mkInfo {
  catalog_files : list string;
  instrument : option string;
  module : option string;
  detector : option string;
  wfss_yaml : option string;
  params : option Params;
  default_dispersed_filename : option string;
  background_image_filename : option string;
  crossing_filter : option string;
  dispersion_direction : option string
}.

Definition no_info : ParamInfo :=
  mkInfo [] None None None None None None None None None.

Definition add_catalogs (cats : list string) (f : ParamInfo) : ParamInfo :=
  mkInfo (catalog_files f ++ cats)%list (instrument f) (module f) (detector f)
    (wfss_yaml f) (params f) (default_dispersed_filename f)
    (background_image_filename f) (crossing_filter f) (dispersion_direction f).

Definition set_instrument (inst : string) (f : ParamInfo) : ParamInfo :=
  mkInfo (catalog_files f) (Some inst) (module f) (detector f)
    (wfss_yaml f) (params f) (default_dispersed_filename f)
    (background_image_filename f) (crossing_filter f) (dispersion_direction f).

Definition set_module_detector (m d : string) (f : ParamInfo) : ParamInfo :=
  mkInfo (catalog_files f) (instrument f) (Some m) (Some d)
    (wfss_yaml f) (params f) (default_dispersed_filename f)
    (background_image_filename f) (crossing_filter f) (dispersion_direction f).

Definition set_module (m : string) (f : ParamInfo) : ParamInfo :=
  mkInfo (catalog_files f) (instrument f) (Some m) (detector f)
    (wfss_yaml f) (params f) (default_dispersed_filename f)
    (background_image_filename f) (crossing_filter f) (dispersion_direction f).

Definition set_wfss (pfile : string) (p : Params) (f : ParamInfo) : ParamInfo :=
  mkInfo (catalog_files f) (instrument f) (module f) (detector f)
    (Some pfile) (Some p) (default_dispersed_filename f)
    (background_image_filename f) (crossing_filter f) (dispersion_direction f).

Definition set_filenames (disp bkgd : string) (f : ParamInfo) : ParamInfo :=
  mkInfo (catalog_files f) (instrument f) (module f) (detector f)
    (wfss_yaml f) (params f) (Some disp) (Some bkgd)
    (crossing_filter f) (dispersion_direction f).

Definition set_grism (filt dir : string) (f : ParamInfo) : ParamInfo :=
  mkInfo (catalog_files f) (instrument f) (module f) (detector f)
    (wfss_yaml f) (params f) (default_dispersed_filename f)
    (background_image_filename f) (Some filt) (Some dir).

(** Reading an attribute of [self] *)
Definition attr {A} (name : string) (v : option A) : result A :=
  match v with
  | Some a => Ok a
  | None => Raise (AttributeError name)
  end.

(** *** [WFSSSim.param_checks] *)

Definition param_checks (paramfiles : list string) (SED_file : option string) : result unit :=
  if bool_decide (1 < length paramfiles) && bool_decide (is_Some SED_file)
  then Raise (ValueError "WARNING: When using an SED file, you must provide only one parameter file.")
  else Ok tt.

(** *** [WFSSSim.find_param_info] *)

Record find_state : Type := mkFind {
  found : ParamInfo;
  yamls_to_disperse : list string;
  wfss_files_found : nat
}.

Definition two_wfss_error : exn :=
  ValueError "WARNING: only one of the parameter files can be WFSS mode.".

Definition no_wfss_error : exn :=
  ValueError "WARNING: No WFSS mode parameter files found. One of the parameter files must be wfss mode in order to define grism and crossing filter.".

(** The name under which the rewritten copy of [pfile] is saved. *)
Definition modified_file (pfile : string) : string :=
  let '(outdir, basename) := os_path_split pfile in
  os_path_join outdir ("tmp_update_to_wfss_mode_" +:+ basename).

(** The [if i == 0:] block. *)
Definition first_file_info (p : Params) (f : ParamInfo) : result ParamInfo :=
  let inst := lower (Inst_instrument p) in
  let f := set_instrument inst f in
  if String.eqb inst "niriss" then Ok (set_module_detector "N" "NIS" f)
  else if String.eqb inst "nircam" then
    m ← str_index (Readout_array_name p) 3;
    Ok (set_module_detector m (substring 0 5 (Readout_array_name p)) f)
  else Ok f.

(** The branch taken for a wfss mode file, after the count of wfss files
    has been checked. *)
Definition wfss_file_info (p : Params) (f : ParamInfo) : result ParamInfo :=
  let filter_name := Readout_filter p in
  let pupil_name := Readout_pupil p in
  let stem := before_first ".fits" (Output_file p) in
  let f := set_filenames
             (os_path_join (Output_directory p) (stem +:+ "_dispersed_seed_image.fits"))
             (os_path_join (Output_directory p) (stem +:+ "_background_image.fits")) f in
  inst ← attr "instrument" (instrument f);
  if String.eqb inst "niriss" then
    d ← str_last filter_name;
    Ok (set_grism (upper pupil_name) (upper d) f)
  else if String.eqb inst "nircam" then
    d ← str_last pupil_name;
    Ok (set_grism (upper filter_name) (upper d) f)
  else Ok f.

(** The body of the loop over [enumerate(self.paramfiles)]. *)
Definition find_param_step (st : find_state) (ip : nat * string) : io (find_state * bool) :=
  let '(i, pfile) := ip in
  p ← load_yaml pfile;
  let cats := filter (λ e, lower e ≠ "none") (simSignals_catalogs p) in
  let f := add_catalogs cats (found st) in
  f ← (if bool_decide (i = 0) then lift (first_file_info p f) else mret f);
  let mode := lower (Inst_mode p) in
  if String.eqb mode "wfss" then
    let f := set_wfss pfile p f in
    let found := S (wfss_files_found st) in
    if bool_decide (found = 2) then raise two_wfss_error
    else
      f ← lift (wfss_file_info p f);
      mret (mkFind f (pfile :: yamls_to_disperse st) found, true)
  else if bool_decide (mode ∈ ["imaging"; "pom"]) then
    let out := modified_file pfile in
    _ ← modify_world (write_yaml out (update_to_wfss_mode p));
    mret (mkFind f (yamls_to_disperse st ++ [out])%list (wfss_files_found st), true)
  else mret (mkFind f (yamls_to_disperse st) (wfss_files_found st), true).

Definition find_param_info (paramfiles : list string) : io (list string * ParamInfo) :=
  st ← for_each find_param_step (mkFind no_info [] 0) (enumerate paramfiles);
  if bool_decide (wfss_files_found st = 0) then raise no_wfss_error
  else mret (yamls_to_disperse st, found st).

(** *** [WFSSSim.check_inputs] *)

Definition NIRCAM_GRISM_CROSSING_FILTERS : list string :=
  ["F322W2"; "F277W"; "F356W"; "F444W"; "F250M"; "F300M"; "F335M"; "F360M";
   "F410M"; "F430M"; "F323N"; "F405N"; "F466N"; "F470N"].

Definition NIRISS_GRISM_CROSSING_FILTERS : list string :=
  ["F200W"; "F150W"; "F140M"; "F158M"; "F115W"; "F090W"].

(** [WFSSSim.invalid] *)
Definition invalid {A} (field value : string) : result A :=
  Raise (ValueError ("WARNING: invalid value for " +:+ field +:+ ": " +:+ value)).

Definition check_member (field value : string) (allowed : list string) : result unit :=
  if bool_decide (value ∈ allowed) then Ok tt else invalid field value.

Definition check_darks (w : world) (dark : dark_arg) : result unit :=
  let dark_list := match dark with
                   | DarkNone => []
                   | DarkFile f => [f]
                   | DarkList fs => fs
                   end in
  match list_find (λ f, os_path_isfile w f = false) dark_list with
  | Some (_, f) => Raise (FileNotFoundError ("WARNING: " +:+ f +:+ " does not exist."))
  | None => Ok tt
  end.

Definition check_inputs (f : ParamInfo) (dark : dark_arg) : io ParamInfo := λ w,
  (w,
   inst ← attr "instrument" (instrument f);
   _ ← check_member "instrument" inst ["nircam"; "niriss"];
   f ← (if String.eqb inst "nircam" then
          m ← attr "module" (module f);
          _ ← check_member "module" m ["A"; "B"];
          let f := set_module (upper m) f in
          cf ← attr "crossing_filter" (crossing_filter f);
          _ ← check_member "crossing_filter" cf NIRCAM_GRISM_CROSSING_FILTERS;
          Ok f
        else if String.eqb inst "niriss" then
          cf ← attr "crossing_filter" (crossing_filter f);
          _ ← check_member "crossing_filter" cf NIRISS_GRISM_CROSSING_FILTERS;
          Ok f
        else Ok f);
   dd ← attr "dispersion_direction" (dispersion_direction f);
   _ ← check_member "dispersion_direction" dd ["R"; "C"];
   _ ← check_darks w dark;
   Ok f).

(** *** [WFSSSim.__init__] *)

Record WFSSSim : Type := mkSim {
  inputs : UserInputs;
  datadir : string;
  paramfiles : list string;
  create_continuum_seds : bool;
  info : ParamInfo
}.

(** [paramfiles] is a file name or a list of file names. *)
Inductive paramfiles_arg : Type :=
  | OneFile (f : string)
  | FileList (fs : list string).

Definition supplied (paramfiles : paramfiles_arg) : list string :=
  match paramfiles with
  | OneFile f => [f]
  | FileList fs => fs
  end.

Definition env_error : exn :=
  ValueError "WARNING: MIRAGE_DATA environment variable is not set.This must be set to the base directorycontaining the darks, cosmic ray, PSF, etcinput files needed for the simulation.These files must be downloaded separatelyfrom the Mirage package.".

(** The last block of the constructor, which settles
    [self.create_continuum_seds]. *)
Definition decide_continuum_seds (paramfiles : list string) (SED_file : option string)
    (SED_dict : option (gmap string spectrum)) (create_continuum_seds : bool) : bool :=
  if bool_decide (length paramfiles = 1) then true
  else if bool_decide (is_Some SED_file) || bool_decide (is_Some SED_dict) then true
  else create_continuum_seds.

Definition init (paramfiles : paramfiles_arg) (ins : UserInputs)
    (create_continuum_seds : bool) : io WFSSSim :=
  w ← get_world;
  match environ w !! "MIRAGE_DATA" with
  | None => raise env_error
  | Some datadir =>
      let pfiles := supplied paramfiles in
      _ ← lift (param_checks pfiles (in_SED_file ins));
      '(pfiles, f) ← find_param_info pfiles;
      f ← check_inputs f (override_dark ins);
      mret (mkSim ins datadir pfiles
              (decide_continuum_seds pfiles (in_SED_file ins) (SED_dict ins)
                 create_continuum_seds)
              f)
  end.

(** ** [scipy.stats.sigmaclip] and the numpy statistics it uses *)

Module Stats.

Definition sum (c : list Qc) : Qc := foldr Qcplus 0%Qc c.

(** [c.mean()] *)
Definition mean (c : list Qc) : Qc :=
  (sum c / Qc_of_Z (Z.of_nat (length c)))%Qc.

Definition sq (x : Qc) : Qc := (x * x)%Qc.

(** [c.std() ** 2]: the standard deviation itself is a square root, so
    the tests against it below are made on squares. *)
Definition var (c : list Qc) : Qc :=
  let m := mean c in mean ((λ x, sq (x - m)) <$> c).

(** [x >= c_mean - c_std * low], for [low >= 0] *)
Definition ge_critlower (m v low x : Qc) : bool :=
  bool_decide (m - x ≤ 0)%Qc || bool_decide (sq (m - x) ≤ sq low * v)%Qc.

(** [x <= c_mean + c_std * high], for [high >= 0] *)
Definition le_critupper (m v high x : Qc) : bool :=
  bool_decide (x - m ≤ 0)%Qc || bool_decide (sq (x - m) ≤ sq high * v)%Qc.

(** One round of the loop: [c[(c >= critlower) & (c <= critupper)]] *)
Definition clip_once (low high : Qc) (c : list Qc) : list Qc :=
  let m := mean c in
  let v := var c in
  filter (λ x, ge_critlower m v low x && le_critupper m v high x = true) c.

(** [while delta: ...; delta = size - c.size], run for at most [fuel]
    rounds. *)
Fixpoint clip_loop (fuel : nat) (low high : Qc) (c : list Qc) : list Qc :=
  match fuel with
  | O => c
  | S fuel' =>
      let c' := clip_once low high c in
      if bool_decide (length c' = length c) then c'
      else clip_loop fuel' low high c'
  end.

(** The clipped values returned by [sigmaclip(a, low, high)]. Each round
    but the last drops a value, so [length c + 1] rounds are enough. *)
Definition sigmaclip (c : list Qc) (low high : Qc) : list Qc :=
  clip_loop (S (length c)) low high c.

Definition three : Qc := Qc_of_Z 3.

(** [np.mean(sigmaclip(image, low=3, high=3)[0])] *)
Definition sigma_clipped_mean (image : ndarray) : Qc :=
  mean (sigmaclip (NdArray.ravel image) three three).

End Stats.

(** ** The collaborators of [create] *)

(** What [create] reads from a [Catalog_seed] after [make_seed]. *)
Record Catalog_seed : Type := mkCat {
  paramfile : string;
  seed_file : string;
  ptsrc_seed_filename : option string;
  galaxy_seed_filename : option string;
  extended_seed_filename : option string;
  cat_array_name : string;   (* cat.params['Readout']['array_name'] *)
  ffsize : nat;
  subarray_bounds : list Z;
  seed_segmap : ndarray;
  seedinfo : gmap string string
}.

(** The dark handed to the exposure assembly. *)
Inductive lin_dark : Type :=
  | PreparedDark (paramfile : string)   (* d.prepDark *)
  | DarkFiles (files : list string)     (* d.dark_files, or the list given *)
  | ReadDark (file : string).           (* self.prepDark, read from the file given *)

(** What [obs_generator.Observation] is given before [obs.create()]. *)
Record Observation : Type := mkObs {
  linDark : lin_dark;
  seed : ndarray;
  segmap : ndarray;
  seedheader : gmap string string;
  obs_paramfile : string
}.

Class Collaborators : Type := {
  (* utils.constants *)
  MEAN_GAIN_niriss : Qc;               (* MEAN_GAIN_VALUES['niriss'] *)
  MEAN_GAIN_nircam : gmap string Qc;   (* MEAN_GAIN_VALUES['nircam'] *)
  NIRISS_GRISM_THROUGHPUT_FACTOR : Qc;
  (* catalog_seed_image.Catalog_seed: offline, the files, cat.paramfile *)
  make_seed : bool → gmap string Params → string → Catalog_seed;
  (* spectra_from_catalog.make_all_spectra: catalog files, input_spectra,
     input_spectra_file, extrapolate_SED, output_filename,
     normalizing_mag_column, module, detector *)
  make_all_spectra : list string → option (gmap string spectrum) → option string →
                     bool → option string → option string → string → string → string;
  (* utils.backgrounds *)
  day_of_year_background_spectrum : Qc → Qc → string → spectrum;
  low_med_high_background_spectrum : Params → string → string → spectrum;
  (* ra, dec, filter file, use_dateobs_for_background, gain, aperture, level *)
  calculate_background : Qc → Qc → string → bool → Qc → string → string → Qc;
  get_filter_throughput_file : string → string → string → string;
  (* NIRCAM_Gsim.Grism_seed: [.final] after [observation], [disperse] and
     [finalize(Back=..., BackLevel=None)], and [disperse_background_1D] *)
  grism_final : GrismArgs → option ndarray → ndarray;
  disperse_background_1D : GrismArgs → spectrum → ndarray;
  (* astropy.io.fits.getdata *)
  fits_getdata : string → ndarray;
  (* dark_prep.DarkPrep: [d.dark_files] after [d.prepare()] *)
  dark_files : bool → string → list string
}.

(** ** [WFSSSim.create] *)

Section Create.

Context {collab : Collaborators}.

(** *** The loop over the yaml files (direct seed images) *)

Record seeds : Type := mkSeeds {
  imseeds : list string;
  ptsrc_seeds : list (option string);
  galaxy_seeds : list (option string);
  extended_seeds : list (option string);
  cat : option Catalog_seed    (* the loop leaves the last [cat] bound *)
}.

Definition seed_step (self : WFSSSim) (s : seeds) (pfile : string) : io (seeds * bool) :=
  w ← get_world;
  let c := make_seed (offline (inputs self)) (yaml_files w) pfile in
  mret (mkSeeds (imseeds s ++ [seed_file c])
                (ptsrc_seeds s ++ [ptsrc_seed_filename c])
                (galaxy_seeds s ++ [galaxy_seed_filename c])
                (extended_seeds s ++ [extended_seed_filename c])
                (Some c),
        negb (create_continuum_seds self)).

Definition make_seeds (self : WFSSSim) : io seeds :=
  for_each (seed_step self) (mkSeeds [] [] [] [] None) (paramfiles self).

(** *** The hdf5 file of spectra *)

Definition continuum_seds (self : WFSSSim) (s : seeds) : result (option string) :=
  if create_continuum_seds self then
    c ← py_local "cat" (cat s);
    let det_name := before_first "_" (cat_array_name c) in
    m ← attr "module" (module (info self));
    Ok (Some (make_all_spectra (catalog_files (info self)) (SED_dict (inputs self))
                (in_SED_file (inputs self)) (extrapolate_SED (inputs self))
                (final_SED_file (inputs self))
                (SED_normalizing_catalog_column (inputs self)) m det_name))
  else Ok (in_SED_file (inputs self)).

(** *** Resolution of the background *)

(** The local variables the instrument branches assign. *)
Record background : Type := mkBackground {
  dmode : option string;
  back_spectrum : option spectrum;     (* [back_wave, back_sig] *)
  background_file : option string;
  scaling_factor : option Qc
}.

#[global] Instance background_eq_dec : EqDecision background.
Proof. solve_decision. Defined.

Definition is_tier (s : string) : bool :=
  bool_decide (lower s ∈ ["low"; "medium"; "high"]).

Definition nircam_rate_error : exn :=
  ValueError "ERROR: Unrecognized background rate. Must be one of 'low', 'medium', 'high'".
Definition nircam_type_error : exn :=
  ValueError "ERROR: WFSS background rates must be one of 'low', 'medium', 'high', or use_dateobs_for_background must be True ".
Definition niriss_rate_error : exn :=
  ValueError "ERROR: Unrecognized background rate. String value must be one of 'low', 'medium', 'high'".

Definition resolve_background (self : WFSSSim) : result background :=
  let f := info self in
  inst ← attr "instrument" (instrument f);
  if String.eqb inst "nircam" then
    m ← attr "module" (module f);
    dd ← attr "dispersion_direction" (dispersion_direction f);
    let dmode := "mod" +:+ m +:+ "_" +:+ dd in
    p ← attr "params" (params f);
    if simSignals_use_dateobs_for_background p then
      Ok (mkBackground (Some dmode)
            (Some (day_of_year_background_spectrum (Telescope_ra p) (Telescope_dec p)
                     (Output_date_obs p)))
            None None)
    else
      match simSignals_bkgdrate p with
      | PyStr s =>
          if is_tier s then
            d ← attr "detector" (detector f);
            Ok (mkBackground (Some dmode)
                  (Some (low_med_high_background_spectrum p d m)) None None)
          else Raise nircam_rate_error
      | _ => Raise nircam_type_error
      end
  else if String.eqb inst "niriss" then
    dd ← attr "dispersion_direction" (dispersion_direction f);
    let dmode := "GR150" +:+ dd in
    cf ← attr "crossing_filter" (crossing_filter f);
    let background_file := lower cf +:+ "_" +:+ lower dmode +:+ "_medium_background.fits" in
    p ← attr "params" (params f);
    match simSignals_bkgdrate p with
    | PyStr s =>
        if is_tier s then
          let filter_file :=
            if String.eqb (snd (os_path_split (Reffiles_filter_throughput p))) "placeholder.txt"
               || String.eqb (Reffiles_filter_throughput p) "config"
            then get_filter_throughput_file inst "CLEAR" (Readout_pupil p)
            else Reffiles_filter_throughput p in
          let scaling_factor :=
            calculate_background (Telescope_ra p) (Telescope_dec p) filter_file
              (simSignals_use_dateobs_for_background p) MEAN_GAIN_niriss
              (Readout_array_name p) s in
          let scaling_factor := (scaling_factor * NIRISS_GRISM_THROUGHPUT_FACTOR)%Qc in
          let scaling_factor := (scaling_factor * MEAN_GAIN_niriss)%Qc in
          Ok (mkBackground (Some dmode) None (Some background_file) (Some scaling_factor))
        else Raise niriss_rate_error
    | PyNum x =>
        Ok (mkBackground (Some dmode) None (Some background_file)
              (Some (x * MEAN_GAIN_niriss * NIRISS_GRISM_THROUGHPUT_FACTOR)%Qc))
    | PyNotReal =>
        (* neither test holds and there is no [else]: [scaling_factor]
           stays unassigned *)
        Ok (mkBackground (Some dmode) None (Some background_file) None)
    end
  else Ok (mkBackground None None None None).

(** *** The loop over the source classes (dispersion and compositing) *)

Definition background_hdus (background_image : ndarray) : HDUList :=
  mkHDUList [] [mkImageHDU background_image [("EXTNAME", "BACKGRND"); ("UNITS", "e/s")]].

(** [background_image / background_mean * scaling_factor] *)
Definition rescale_background (background_image : ndarray) (scaling_factor : Qc) : ndarray :=
  let background_mean := Stats.sigma_clipped_mean background_image in
  NdArray.map (λ p, p / background_mean * scaling_factor)%Qc background_image.

(** The background image of the first populated class: dispersed from
    the spectrum for NIRCam, read from the reference file and rescaled
    otherwise. *)
Definition make_background (inst loc : string) (bg : background) (g : GrismArgs) :
    result ndarray :=
  if String.eqb inst "nircam" then
    sp ← py_local "back_wave" (back_spectrum bg);
    Ok (disperse_background_1D g sp)
  else
    bf ← py_local "background_file" (background_file bg);
    let background_image := fits_getdata (os_path_join loc bf) in
    sf ← py_local "scaling_factor" (scaling_factor bg);
    Ok (rescale_background background_image sf).

Record disperse_state : Type := mkDisp {
  disp_seed : ndarray;
  background_done : bool
}.

Definition disperse_step (self : WFSSSim) (loc : string) (SED_file : option string)
    (bg : background) (st : disperse_state)
    (cs : source_class * list (option string)) : io (disperse_state * bool) :=
  let '(cls, seed_files) := cs in
  first ← lift (py_index seed_files 0);
  match first with
  | None => mret (st, true)
  | Some _ =>
      cf ← lift (attr "crossing_filter" (crossing_filter (info self)));
      dm ← lift (py_local "dmode" (dmode bg));
      inst ← lift (attr "instrument" (instrument (info self)));
      let g := mkGrismArgs seed_files cf dm loc (upper inst)
                 (extrapolate_SED (inputs self)) SED_file
                 (source_stamps_file (inputs self)) in
      '(final, done) ←
        (if negb (background_done st) then
           background_image ← lift (make_background inst loc bg g);
           _ ← modify_world (emit (EvFinalize cls g (Some background_image)));
           fn ← lift (attr "background_image_filename"
                        (background_image_filename (info self)));
           _ ← modify_world (emit (EvWriteFits fn (background_hdus background_image)));
           mret (grism_final g (Some background_image), true)
         else
           _ ← modify_world (emit (EvFinalize cls g None));
           mret (grism_final g None, background_done st));
      d ← lift (NdArray.iadd (disp_seed st) final);
      mret (mkDisp d done, true)
  end.

Definition disperse_classes (self : WFSSSim) (loc : string) (SED_file : option string)
    (bg : background) (s : seeds) (c : Catalog_seed) : io ndarray :=
  st ← for_each (disperse_step self loc SED_file bg)
         (mkDisp (NdArray.zeros (ffsize c) (ffsize c)) false)
         [(PointSources, ptsrc_seeds s); (Galaxies, galaxy_seeds s);
          (ExtendedSources, extended_seeds s)];
  mret (disp_seed st).

(** *** Reference pixels, cropping, units *)

Definition zero_reference_pixels (disp_seed : ndarray) : ndarray :=
  let d := NdArray.zero_rows 0 (Some 4) disp_seed in
  let d := NdArray.zero_rows 2044 None d in
  let d := NdArray.zero_cols 0 (Some 4) d in
  NdArray.zero_cols 2044 None d.

Definition fullframe_apertures : list string := ["NRCA5_FULL"; "NRCB5_FULL"; "NIS_CEN"].

Definition crop_if_subarray (c : Catalog_seed) (disp_seed : ndarray) : result ndarray :=
  if bool_decide (cat_array_name c ∉ fullframe_apertures)
  then crop_to_subarray disp_seed (subarray_bounds c)
  else Ok disp_seed.

(** [WFSSSim.save_dispersed_seed_image] *)
Definition save_dispersed_seed_image (self : WFSSSim) (seed_image : ndarray) : io unit :=
  fn ← (match in_disp_seed_filename (inputs self) with
        | Some fn => mret fn
        | None => lift (attr "default_dispersed_filename"
                          (default_dispersed_filename (info self)))
        end);
  modify_world (emit (EvWriteFits fn
    (mkHDUList [("units", "e/sec")] [mkImageHDU seed_image [("units", "e/sec")]]))).

(** The gain the seed image is divided by. *)
Definition mean_gain (self : WFSSSim) : result Qc :=
  inst ← attr "instrument" (instrument (info self));
  if String.eqb inst "niriss" then Ok MEAN_GAIN_niriss
  else if String.eqb inst "nircam" then
    m ← attr "module" (module (info self));
    let key := "lw" +:+ lower m in
    match MEAN_GAIN_nircam !! key with
    | Some g => Ok g
    | None => Raise (KeyError key)
    end
  else Raise (UnboundLocalError "gain").

Definition prepare_dark (self : WFSSSim) : result lin_dark :=
  match override_dark (inputs self) with
  | DarkNone =>
      y ← attr "wfss_yaml" (wfss_yaml (info self));
      let files := dark_files (offline (inputs self)) y in
      if bool_decide (length files = 1) then Ok (PreparedDark y) else Ok (DarkFiles files)
  | DarkFile f => Ok (ReadDark f)
  | DarkList fs => Ok (DarkFiles fs)
  end.

(** *** The main function *)

(** From the start of [create] to the end of the loop over the source
    classes: the full-frame composite of the dispersed images. *)
Definition composite_seed (self : WFSSSim) : io (Catalog_seed * ndarray) :=
  s ← make_seeds self;
  SED_file ← lift (continuum_seds self s);
  inst ← lift (attr "instrument" (instrument (info self)));
  let loc := os_path_join (datadir self) (inst +:+ "/GRISM_" +:+ upper inst +:+ "/") in
  bg ← lift (resolve_background self);
  c ← lift (py_local "cat" (cat s));
  disp_seed ← disperse_classes self loc SED_file bg s c;
  mret (c, disp_seed).

(** The rest of [create]: reference pixels, cropping, saving, units, dark,
    and the hand-over to the exposure assembly. *)
Definition finish_seed (self : WFSSSim) (c : Catalog_seed) (disp_seed : ndarray) :
    io Observation :=
  let disp_seed := zero_reference_pixels disp_seed in
  disp_seed ← lift (crop_if_subarray c disp_seed);
  _ ← (if save_dispersed_seed (inputs self)
       then save_dispersed_seed_image self disp_seed else mret tt);
  gain ← lift (mean_gain self);
  let disp_seed := NdArray.div_scalar disp_seed gain in
  let seedinfo := <["units" := "ADU/sec"]> (seedinfo c) in
  obslindark ← lift (prepare_dark self);
  y ← lift (attr "wfss_yaml" (wfss_yaml (info self)));
  mret (mkObs obslindark disp_seed (seed_segmap c) seedinfo y).

Definition create (self : WFSSSim) : io Observation :=
  '(c, disp_seed) ← composite_seed self;
  finish_seed self c disp_seed.

End Create.

(** ** [WFSSSim.get_subarr_bounds] *)

(** The table of subarray definitions ([sdict], an astropy table read from
    the subarray definition file), by its columns. *)
Record subarr_table : Type := mkTable {
  AperName : list string;
  xstart : list Z;
  ystart : list Z;
  xend : list Z;
  yend : list Z
}.

(** [data[mask]] for a boolean mask: the entries at which the mask holds;
    numpy refuses a mask of another length. *)
Definition mask_select {A} (mask : list bool) (data : list A) : result (list A) :=
  if bool_decide (length mask = length data)
  then Ok (omap (λ bx : bool * A, if bx.1 then Some bx.2 else None) (zip mask data))
  else Raise IndexError.

Definition no_subarray_error (subname : string) : exn :=
  ValueError ("WARNING: " +:+ subname +:+
              " is not a subarray aperture name present in the subarray definition file.").

Definition get_subarr_bounds (subname : string) (sdict : subarr_table) : result (list Z) :=
  if bool_decide (subname ∈ AperName sdict) then
    let mtch := (λ name, bool_decide (subname = name)) <$> AperName sdict in
    let first_match (column : list Z) := mask_select mtch column ≫= λ l, py_index l 0 in
    x0 ← first_match (xstart sdict);
    y0 ← first_match (ystart sdict);
    x1 ← first_match (xend sdict);
    y1 ← first_match (yend sdict);
    Ok [x0; y0; x1; y1]
  else Raise (no_subarray_error subname).

(** ** [WFSSSim.read_gain_file] *)

(** A pixel of a gain map: a float that may be infinite or not a number
    (finite values as exact rationals). *)
Inductive fval : Type :=
  | Fin (q : Qc)
  | PosInf
  | NegInf
  | NaN.

#[export] Instance fval_eq_dec : EqDecision fval.
Proof. solve_decision. Defined.

(** [x == 0] and [np.isfinite(x)] *)
Definition is_zero (x : fval) : bool := bool_decide (x = Fin 0%Qc).
Definition isfinite (x : fval) : bool :=
  match x with
  | Fin _ => true
  | _ => false
  end.

(** [image[mask(image)] = v], the mask taken on the image as it is then *)
Definition set_where (mask : fval → bool) (v : fval) (image : list (list fval)) : list (list fval) :=
  (λ row : list fval, (λ x, if mask x then v else x) <$> row) <$> image.

Section ReadGainFile.

(** [np.nanmedian], the FITS files on disk (the header-data units of each,
    a header and an image), and whether [self.logger] is set ([create] sets
    it). *)
Variable nanmedian : list (list fval) → fval.
Variable gain_files : gmap string (list (header * list (list fval))).
Variable has_logger : bool.

(** The [try] block: the two names it assigns, which stay unassigned when
    the file cannot be opened and the exception is logged. *)
Definition open_gain_file (file : string) : result (option (list (list fval)) * option header) :=
  match gain_files !! file with
  | Some h =>
      hdu1 ← py_index h 1;
      hdu0 ← py_index h 0;
      Ok (Some hdu1.2, Some hdu0.1)
  | None =>
      if has_logger then Ok (None, None) else Raise (AttributeError "logger")
  end.

Definition read_gain_file (file : string) : result (list (list fval) * header) :=
  '(image, header) ← open_gain_file file;
  image ← py_local "image" image;
  let mngain := nanmedian image in
  let image := set_where is_zero mngain image in
  let image := set_where (λ x, negb (isfinite x)) mngain image in
  header ← py_local "header" header;
  Ok (image, header).

End ReadGainFile.

(** ** A small concrete setting

    Collaborators with simple answers, two yaml files and the objects built
    from them; the properties below are run on it. *)

Module Bench.

Definition flat (n : nat) (v : Z) : ndarray :=
  NdArray.mk n (replicate n (replicate n (Qc_of_Z v))).

Definition the_cat (pfile : string) : Catalog_seed :=
  mkCat pfile "seed.fits" (Some "ptsrc_seed.fits") None (Some "extended_seed.fits")
    "NIS_SUB" 6 [4; 4; 5; 5]%Z (flat 6 0) {["units" := "e/sec"]}.

#[export] Instance collaborators : Collaborators := {|
  MEAN_GAIN_niriss := Qc_of_Z 2;
  MEAN_GAIN_nircam := {["lwa" := Qc_of_Z 2; "lwb" := Qc_of_Z 2]};
  NIRISS_GRISM_THROUGHPUT_FACTOR := Q2Qc (4 # 5);
  make_seed := λ _ _ pfile, the_cat pfile;
  make_all_spectra := λ _ _ _ _ _ _ _ _, "spectra.hdf5";
  day_of_year_background_spectrum := λ _ _ _, ([1%Qc], [1%Qc]);
  low_med_high_background_spectrum := λ _ _ _, ([1%Qc], [1%Qc]);
  calculate_background := λ _ _ _ _ _ _ _, Qc_of_Z 5;
  get_filter_throughput_file := λ _ _ _, "throughput.txt";
  grism_final := λ _ Back,
    match Back with
    | Some b => NdArray.add b (flat 6 1)
    | None => flat 6 1
    end;
  disperse_background_1D := λ _ _, flat 6 3;
  fits_getdata := λ _, flat 6 7;
  dark_files := λ _ _, ["dark.fits"]
|}.

Definition niriss_wfss : Params :=
  mkParams "NIRISS" "wfss" "NIS_SUB" "GR150R" "F200W" "obs.fits" "/out" "2022-01-01"
    false ["ptsrc.cat"; "None"] (PyStr "medium") false 0%Qc 0%Qc "fluxcal.txt" "config".

Definition niriss_imaging : Params :=
  mkParams "NIRISS" "imaging" "NIS_SUB" "CLEAR" "F200W" "img.fits" "/out" "2022-01-01"
    false ["ext.cat"] (PyStr "medium") false 0%Qc 0%Qc "fluxcal.txt" "config".

Definition nircam_wfss : Params :=
  mkParams "NIRCAM" "wfss" "NRCA5_FULL" "F444W" "GRISMR" "obs.fits" "/out" "2022-01-01"
    false ["ptsrc.cat"] (PyStr "nonsense") true 0%Qc 0%Qc "fluxcal.txt" "config".

Definition disk : world :=
  mkWorld {["MIRAGE_DATA" := "/data"]}
    {["/in/wfss.yaml" := niriss_wfss; "/in/img.yaml" := niriss_imaging;
      "/in/nircam.yaml" := nircam_wfss]}
    ∅ [].

Definition niriss_tso : Params :=
  mkParams "NIRISS" "ts_imaging" "NIS_SUB" "CLEAR" "F200W" "tso.fits" "/out" "2022-01-01"
    false ["tso.cat"] (PyStr "medium") false 0%Qc 0%Qc "fluxcal.txt" "config".

(** The disk with a file of a mode [find_param_info] does not keep. *)
Definition disk_with_tso : world :=
  mkWorld (environ disk) (<["/in/tso.yaml" := niriss_tso]> (yaml_files disk)) ∅ [].

Definition defaults : UserInputs :=
  mkInputs None None None None true None true DarkNone None false.

(** The object built from the imaging file and the NIRISS wfss file. *)
Definition sim : WFSSSim :=
  mkSim defaults "/data" ["/in/wfss.yaml"; "/in/tmp_update_to_wfss_mode_img.yaml"] false
    (mkInfo ["ext.cat"; "ptsrc.cat"] (Some "niriss") (Some "N") (Some "NIS")
       (Some "/in/wfss.yaml") (Some niriss_wfss)
       (Some "/out/obs_dispersed_seed_image.fits")
       (Some "/out/obs_background_image.fits") (Some "F200W") (Some "R")).

(** The disk once that object is built. *)
Definition disk_after_init : world :=
  write_yaml "/in/tmp_update_to_wfss_mode_img.yaml" (update_to_wfss_mode niriss_imaging) disk.

(** What [create] has at hand for that object when it enters the loop over
    the source classes. *)
Definition loc : string := "/data/niriss/GRISM_NIRISS/".

Definition the_background : background :=
  mkBackground (Some "GR150R") None (Some "f200w_gr150r_medium_background.fits")
    (Some (Qc_of_Z 8)).

(** The object built from the NIRCam wfss file alone. *)
Definition nircam_sim : WFSSSim :=
  mkSim defaults "/data" ["/in/nircam.yaml"] true
    (mkInfo ["ptsrc.cat"] (Some "nircam") (Some "A") (Some "NRCA5")
       (Some "/in/nircam.yaml") (Some nircam_wfss)
       (Some "/out/obs_dispersed_seed_image.fits")
       (Some "/out/obs_background_image.fits") (Some "F444W") (Some "R")).

End Bench.

(** * Properties *)

(** ** Results and loops *)

Lemma bind_Ok_inv {A B} (m : result A) (f : A → result B) b :
  m ≫= f = Ok b → ∃ a, m = Ok a ∧ f a = Ok b.
Proof. destruct m as [a|e]; simpl; [eauto | discriminate]. Qed.

Lemma py_index_Ok {A} (l : list A) i a : py_index l i = Ok a ↔ l !! i = Some a.
Proof. unfold py_index. destruct (l !! i); split; congruence. Qed.

(** ** Arrays *)

Module NdArrayFacts.
Import NdArray.

Lemma slice_bound_nonneg len (i : Z) :
  (0 ≤ i)%Z → slice_bound len i = Z.to_nat i `min` len.
Proof. intros Hi. unfold slice_bound. rewrite bool_decide_false by lia. lia. Qed.

Lemma py_slice_lookup {A} (l : list A) (start stop : Z) i :
  (0 ≤ start)%Z → (stop ≤ Z.of_nat (length l))%Z →
  i < Z.to_nat (stop - start) →
  py_slice start stop l !! i = l !! (Z.to_nat start + i).
Proof.
  intros Hs Hl Hi. unfold py_slice.
  rewrite !slice_bound_nonneg by lia.
  rewrite lookup_take_lt by lia. rewrite lookup_drop. f_equal. lia.
Qed.

Lemma py_slice_length {A} (l : list A) (start stop : Z) :
  (0 ≤ start)%Z → (0 ≤ stop ≤ Z.of_nat (length l))%Z →
  length (py_slice start stop l) = Z.to_nat (stop - start).
Proof.
  intros Hs Hl. unfold py_slice.
  rewrite !slice_bound_nonneg by lia. rewrite length_take, length_drop. lia.
Qed.

Lemma slice_len_eq len (start stop : Z) :
  (0 ≤ start)%Z → (0 ≤ stop ≤ Z.of_nat len)%Z →
  slice_len len start stop = Z.to_nat (stop - start).
Proof.
  intros Hs Hl. unfold slice_len. rewrite !slice_bound_nonneg by lia. lia.
Qed.

Lemma wf_lookup a r row : wf a → rows a !! r = Some row → length row = ncols a.
Proof. intros Hwf Hr. exact (proj1 (Forall_lookup _ _) Hwf r row Hr). Qed.

(** What [a[r0:r1, c0:c1]] is, for bounds inside the array. *)
Lemma slice2_spec a (r0 r1 c0 c1 : Z) :
  wf a →
  (0 ≤ r0)%Z → (0 ≤ r1 ≤ Z.of_nat (nrows a))%Z →
  (0 ≤ c0)%Z → (0 ≤ c1 ≤ Z.of_nat (ncols a))%Z →
  let out := slice2 a r0 r1 c0 c1 in
  shape out = (Z.to_nat (r1 - r0), Z.to_nat (c1 - c0)) ∧
  wf out ∧
  ∀ i j, i < Z.to_nat (r1 - r0) → j < Z.to_nat (c1 - c0) →
         pixel out i j = pixel a (Z.to_nat r0 + i) (Z.to_nat c0 + j).
Proof.
  intros Hwf Hr0 Hr1 Hc0 Hc1 out. unfold nrows in Hr1.
  assert (Hrows : ∀ row, row ∈ py_slice r0 r1 (rows a) → length row = ncols a).
  { intros row Hin. unfold py_slice in Hin.
    apply (proj1 (Forall_forall (λ r, length r = ncols a) _)
             (Forall_take _ _ _ (Forall_drop _ _ _ Hwf)) row Hin). }
  split; [|split].
  - unfold shape, nrows, out, slice2; simpl.
    rewrite length_fmap, py_slice_length, slice_len_eq by lia. done.
  - unfold wf, out, slice2; simpl. apply Forall_fmap, Forall_forall.
    intros row Hin; simpl. rewrite py_slice_length, slice_len_eq; try lia.
    rewrite (Hrows row Hin). lia.
  - intros i j Hi Hj. unfold pixel, out, slice2; simpl.
    rewrite list_lookup_fmap, py_slice_lookup by lia.
    destruct (rows a !! (Z.to_nat r0 + i)) as [row|] eqn:Hrow; simpl; [|done].
    apply py_slice_lookup; try lia.
    rewrite (wf_lookup a _ row Hwf Hrow). lia.
Qed.

End NdArrayFacts.

(** ** Cropping to the subarray *)

Definition in_frame (len : nat) (b : Z) : Prop := (0 ≤ b < Z.of_nat len)%Z.

Lemma bound_ok_in_frame len b : bound_ok len b = true ↔ in_frame len b.
Proof.
  unfold bound_ok, in_frame.
  rewrite andb_true_iff, !bool_decide_eq_true. done.
Qed.

Lemma crop_to_subarray_unfold data (xstart ystart xend yend : Z) :
  crop_to_subarray data [xstart; ystart; xend; yend] =
  if bound_ok (NdArray.ncols data) xstart && bound_ok (NdArray.ncols data) xend
     && bound_ok (NdArray.nrows data) ystart && bound_ok (NdArray.nrows data) yend
  then Ok (NdArray.slice2 data ystart (yend + 1) xstart (xend + 1))
  else Raise subarray_error.
Proof.
  unfold crop_to_subarray; simpl. unfold id.
  destruct (bound_ok _ xstart), (bound_ok _ xend), (bound_ok _ ystart),
    (bound_ok _ yend); reflexivity.
Qed.

(** C3, as the code has it: with the four bounds inside the frame,
    [crop_to_subarray] returns [data[ystart:yend+1, xstart:xend+1]], whose
    shape is [(max(0, yend-ystart+1), max(0, xend-xstart+1))], that is
    [(yend-ystart+1, xend-xstart+1)] when the bounds are in order, and whose
    pixels are those of the same positions of the uncropped array; with a
    bound outside the frame it raises the [ValueError]. *)
Theorem crop_to_subarray_spec (data : ndarray) (xstart ystart xend yend : Z) :
  NdArray.wf data →
  let xl := NdArray.ncols data in
  let yl := NdArray.nrows data in
  let out := NdArray.slice2 data ystart (yend + 1) xstart (xend + 1) in
  (in_frame xl xstart ∧ in_frame xl xend ∧ in_frame yl ystart ∧ in_frame yl yend →
   crop_to_subarray data [xstart; ystart; xend; yend] = Ok out ∧
   NdArray.shape out = (Z.to_nat (yend - ystart + 1), Z.to_nat (xend - xstart + 1)) ∧
   ((ystart ≤ yend)%Z → (xstart ≤ xend)%Z →
    Z.of_nat (NdArray.nrows out) = (yend - ystart + 1)%Z ∧
    Z.of_nat (NdArray.ncols out) = (xend - xstart + 1)%Z) ∧
   NdArray.wf out ∧
   ∀ i j, i < NdArray.nrows out → j < NdArray.ncols out →
          NdArray.pixel out i j =
          NdArray.pixel data (Z.to_nat ystart + i) (Z.to_nat xstart + j)) ∧
  (¬ (in_frame xl xstart ∧ in_frame xl xend ∧ in_frame yl ystart ∧ in_frame yl yend) →
   crop_to_subarray data [xstart; ystart; xend; yend] = Raise subarray_error).
Proof.
  intros Hwf xl yl out. rewrite crop_to_subarray_unfold. split.
  - intros (Hxs & Hxe & Hys & Hye).
    rewrite !(proj2 (bound_ok_in_frame _ _)) by done. simpl.
    unfold in_frame in *.
    destruct (NdArrayFacts.slice2_spec data ystart (yend + 1) xstart (xend + 1))
      as (Hshape & Hwfo & Hpix); try (done || (subst xl yl; lia)).
    fold out in Hshape, Hwfo, Hpix.
    replace (yend + 1 - ystart)%Z with (yend - ystart + 1)%Z in * by lia.
    replace (xend + 1 - xstart)%Z with (xend - xstart + 1)%Z in * by lia.
    assert (Hr : NdArray.nrows out = Z.to_nat (yend - ystart + 1))
      by apply (f_equal fst Hshape).
    assert (Hc : NdArray.ncols out = Z.to_nat (xend - xstart + 1))
      by apply (f_equal snd Hshape).
    refine (conj eq_refl (conj Hshape (conj _ (conj Hwfo _)))).
    + intros Hy Hx. split; [lia|].
      change (Z.of_nat (NdArray.ncols out) = (xend - xstart + 1)%Z). lia.
    + intros i j Hi Hj. apply Hpix; [lia|].
      change (j < NdArray.ncols out) in Hj. lia.
  - intros Hnot.
    destruct (_ && _) eqn:E; [|done].
    exfalso. apply Hnot. rewrite !andb_true_iff in E.
    rewrite <- !bound_ok_in_frame. tauto.
Qed.

(** C3, as stated, fails when an end bound lies more than one below its
    start bound: on a 3 x 1 array, the bounds [0, 2, 0, 0] are all inside
    the frame, and the result has no row, not [yend - ystart + 1 = -1]. *)
Lemma crop_to_subarray_inverted_bounds :
  let data := NdArray.of_Z 1 [[1]; [1]; [1]]%Z in
  let xstart := 0%Z in let ystart := 2%Z in
  let xend := 0%Z in let yend := 0%Z in
  NdArray.wf data ∧
  in_frame (NdArray.ncols data) xstart ∧ in_frame (NdArray.ncols data) xend ∧
  in_frame (NdArray.nrows data) ystart ∧ in_frame (NdArray.nrows data) yend ∧
  ∃ out, crop_to_subarray data [xstart; ystart; xend; yend] = Ok out ∧
         NdArray.shape out = (0, 1) ∧
         Z.of_nat (NdArray.nrows out) ≠ (yend - ystart + 1)%Z.
Proof.
  intros data xstart ystart xend yend. split; [repeat constructor|].
  do 4 (split; [by vm_compute|]).
  exists (NdArray.mk 1 []).
  split; [vm_compute; reflexivity|]. split; [reflexivity|]. simpl. lia.
Qed.

Lemma crop_to_subarray_spec_witness :
  let data := NdArray.of_Z 3 [[1; 2; 3]; [4; 5; 6]]%Z in
  NdArray.wf data ∧
  crop_to_subarray data [1%Z; 0%Z; 2%Z; 1%Z] =
    Ok (NdArray.of_Z 2 [[2; 3]; [5; 6]]%Z) ∧
  crop_to_subarray data [1%Z; 0%Z; 3%Z; 1%Z] = Raise subarray_error.
Proof.
  intros data.
  assert (Hwf : NdArray.wf data) by (repeat constructor).
  split; [exact Hwf|]. split.
  - destruct (crop_to_subarray_spec data 1 0 2 1 Hwf) as [Hin _].
    destruct Hin as [Heq _]; [by vm_compute|].
    rewrite Heq. reflexivity.
  - destruct (crop_to_subarray_spec data 1 0 3 1 Hwf) as [_ Hout].
    apply Hout. unfold in_frame; vm_compute. intros (_ & [_ Hlt] & _). discriminate.
Defined.

(** ** Computations on the world *)

Lemma io_bind_Ok {A B} (m : io A) (f : A → io B) w w' b :
  (m ≫= f) w = (w', Ok b) → ∃ a w1, m w = (w1, Ok a) ∧ f a w1 = (w', Ok b).
Proof.
  unfold mbind, io_bind. destruct (m w) as [w1 [a|e]]; [eauto | discriminate].
Qed.

Lemma io_bind_run {A B} (m : io A) (f : A → io B) w w1 a :
  m w = (w1, Ok a) → (m ≫= f) w = f a w1.
Proof. intros Hm. unfold mbind, io_bind. by rewrite Hm. Qed.

Lemma io_bind_raise {A B} (m : io A) (f : A → io B) w w1 e :
  m w = (w1, Raise e) → (m ≫= f) w = (w1, Raise e).
Proof. intros Hm. unfold mbind, io_bind. by rewrite Hm. Qed.

Lemma lift_Ok {A} (r : result A) w w' a :
  lift r w = (w', Ok a) → r = Ok a ∧ w' = w.
Proof. unfold lift. intros [= <- ->]. done. Qed.

Lemma io_ret_Ok {A} (a b : A) w w' :
  (mret a : io A) w = (w', Ok b) → b = a ∧ w' = w.
Proof. unfold mret, io_ret. intros [= <- <-]. done. Qed.

(** Settles a closed decidable statement by evaluation. *)
Ltac by_compute := by apply (bool_decide_unpack _); vm_compute.

(** ** Reference pixels *)

Module ZeroFacts.
Import NdArray.

Lemma fill_range_lookup {A} lo hi (f : A → A) (l : list A) i :
  fill_range lo hi f l !! i = (λ x, if in_range lo hi i then f x else x) <$> l !! i.
Proof. unfold fill_range. apply list_lookup_imap. Qed.

Lemma fill_range_length {A} lo hi (f : A → A) (l : list A) :
  length (fill_range lo hi f l) = length l.
Proof. unfold fill_range. apply length_imap. Qed.

Lemma pixel_zero_rows lo hi a r c :
  pixel (zero_rows lo hi a) r c =
  if in_range lo hi r then (λ _, 0%Qc) <$> pixel a r c else pixel a r c.
Proof.
  unfold pixel, zero_rows; simpl. rewrite fill_range_lookup.
  destruct (rows a !! r) as [row|]; simpl; [|by destruct (in_range lo hi r)].
  destruct (in_range lo hi r); [|done].
  unfold zero_row. by rewrite list_lookup_fmap.
Qed.

Lemma pixel_zero_cols lo hi a r c :
  pixel (zero_cols lo hi a) r c =
  if in_range lo hi c then (λ _, 0%Qc) <$> pixel a r c else pixel a r c.
Proof.
  unfold pixel, zero_cols; simpl. rewrite list_lookup_fmap.
  destruct (rows a !! r) as [row|]; simpl; [|by destruct (in_range lo hi c)].
  rewrite fill_range_lookup. by destruct (in_range lo hi c), (row !! c).
Qed.

Lemma shape_zero_rows lo hi a : shape (zero_rows lo hi a) = shape a.
Proof. unfold shape, nrows, zero_rows; simpl. by rewrite fill_range_length. Qed.

Lemma shape_zero_cols lo hi a : shape (zero_cols lo hi a) = shape a.
Proof. unfold shape, nrows, zero_cols; simpl. by rewrite length_fmap. Qed.

Lemma wf_zero_rows lo hi a : wf a → wf (zero_rows lo hi a).
Proof.
  unfold wf, zero_rows; simpl. intros Hwf. apply Forall_lookup.
  intros i row. rewrite fill_range_lookup.
  destruct (rows a !! i) as [row0|] eqn:E; simpl; [|done]. intros [= <-].
  pose proof (proj1 (Forall_lookup _ _) Hwf i row0 E) as Hl.
  destruct (in_range lo hi i); [|done]. unfold zero_row. by rewrite length_fmap.
Qed.

Lemma wf_zero_cols lo hi a : wf a → wf (zero_cols lo hi a).
Proof.
  unfold wf, zero_cols; simpl. intros Hwf. apply Forall_fmap.
  eapply Forall_impl; [exact Hwf|]. intros row Hl; simpl.
  by rewrite fill_range_length.
Qed.

End ZeroFacts.

(** The positions of the reference pixels of the full frame. *)
Definition reference_pixel (r c : nat) : Prop :=
  r < 4 ∨ 2044 ≤ r ∨ c < 4 ∨ 2044 ≤ c.

#[export] Instance reference_pixel_dec r c : Decision (reference_pixel r c).
Proof. unfold reference_pixel. apply _. Defined.

Lemma zero_four_times (x : option Qc) (b1 b2 b3 b4 : bool) :
  let z := λ (b : bool) (y : option Qc), if b then (λ _, 0%Qc) <$> y else y in
  z b4 (z b3 (z b2 (z b1 x))) = z (b1 || b2 || b3 || b4) x.
Proof. by destruct x, b1, b2, b3, b4. Qed.

Lemma pixel_zero_reference_pixels (d : ndarray) r c :
  NdArray.pixel (zero_reference_pixels d) r c =
  if decide (reference_pixel r c) then (λ _, 0%Qc) <$> NdArray.pixel d r c
  else NdArray.pixel d r c.
Proof.
  unfold zero_reference_pixels.
  rewrite !ZeroFacts.pixel_zero_cols, !ZeroFacts.pixel_zero_rows.
  rewrite (zero_four_times (NdArray.pixel d r c)).
  set (b := (_ || _)%bool).
  assert (Hb : b = true ↔ reference_pixel r c).
  { subst b. unfold NdArray.in_range, reference_pixel, from_option.
    generalize 2044. intros n.
    rewrite !orb_true_iff, !andb_true_iff, !bool_decide_eq_true. lia. }
  destruct (decide (reference_pixel r c)) as [Hr|Hr], b; try done.
  - apply Hb in Hr. discriminate.
  - destruct Hr. by apply Hb.
Qed.

Lemma shape_zero_reference_pixels (d : ndarray) :
  NdArray.shape (zero_reference_pixels d) = NdArray.shape d.
Proof.
  unfold zero_reference_pixels.
  by rewrite !ZeroFacts.shape_zero_cols, !ZeroFacts.shape_zero_rows.
Qed.

Lemma wf_zero_reference_pixels (d : ndarray) :
  NdArray.wf d → NdArray.wf (zero_reference_pixels d).
Proof.
  intros Hwf. unfold zero_reference_pixels.
  by do 2 apply ZeroFacts.wf_zero_cols; do 2 apply ZeroFacts.wf_zero_rows.
Qed.

(** ** The end of [create]: cropping and units *)

Section Finish.

Context {collab : Collaborators}.

Lemma save_dispersed_seed_image_Ok self d w w' u :
  save_dispersed_seed_image self d w = (w', Ok u) →
  ∃ fn, w' = emit (EvWriteFits fn
           (mkHDUList [("units", "e/sec")] [mkImageHDU d [("units", "e/sec")]])) w.
Proof.
  unfold save_dispersed_seed_image. intros Hrun.
  apply io_bind_Ok in Hrun as (fn & w1 & Hfn & Hrun).
  assert (w1 = w) as ->.
  { destruct (in_disp_seed_filename (inputs self)).
    - by apply io_ret_Ok in Hfn as [_ ->].
    - by apply lift_Ok in Hfn as [_ ->]. }
  exists fn. unfold modify_world in Hrun. congruence.
Qed.

(** What a successful run of the last part of [create] has done. *)
Lemma finish_seed_Ok self c d w w' obs :
  finish_seed self c d w = (w', Ok obs) →
  ∃ cropped gain,
    crop_if_subarray c (zero_reference_pixels d) = Ok cropped ∧
    mean_gain self = Ok gain ∧
    seed obs = NdArray.div_scalar cropped gain ∧
    seedheader obs = <["units" := "ADU/sec"]> (seedinfo c) ∧
    segmap obs = seed_segmap c ∧
    (if save_dispersed_seed (inputs self)
     then ∃ fn, w' = emit (EvWriteFits fn
            (mkHDUList [("units", "e/sec")] [mkImageHDU cropped [("units", "e/sec")]])) w
     else w' = w).
Proof.
  unfold finish_seed. intros Hrun.
  apply io_bind_Ok in Hrun as (cropped & w1 & Hcrop & Hrun).
  apply lift_Ok in Hcrop as [Hcrop ->].
  apply io_bind_Ok in Hrun as (u & w1 & Hsave & Hrun).
  apply io_bind_Ok in Hrun as (gain & w2 & Hgain & Hrun).
  apply lift_Ok in Hgain as [Hgain ->].
  apply io_bind_Ok in Hrun as (dark & w2 & Hdark & Hrun).
  apply lift_Ok in Hdark as [Hdark ->].
  apply io_bind_Ok in Hrun as (y & w2 & Hy & Hrun).
  apply lift_Ok in Hy as [Hy ->].
  apply io_ret_Ok in Hrun as [-> ->].
  exists cropped, gain. simpl. repeat (split; [done|]).
  destruct (save_dispersed_seed (inputs self)).
  - by apply save_dispersed_seed_image_Ok in Hsave.
  - by apply io_ret_Ok in Hsave as [_ ->].
Qed.

Lemma create_Ok self w w' obs :
  create self w = (w', Ok obs) →
  ∃ c composite w1,
    composite_seed self w = (w1, Ok (c, composite)) ∧
    finish_seed self c composite w1 = (w', Ok obs).
Proof.
  unfold create. intros Hrun.
  apply io_bind_Ok in Hrun as ([c composite] & w1 & Hcomp & Hrun). eauto.
Qed.

End Finish.

Section FinishTheorems.

Context {collab : Collaborators}.

Lemma pixel_map f a r c :
  NdArray.pixel (NdArray.map f a) r c = f <$> NdArray.pixel a r c.
Proof.
  unfold NdArray.pixel, NdArray.map; simpl. rewrite list_lookup_fmap.
  destruct (NdArray.rows a !! r) as [row|]; simpl; [|done].
  by rewrite list_lookup_fmap.
Qed.

(** C2: [create] sets every pixel of rows 0-3, rows 2044 and up, columns
    0-3 and columns 2044 and up of the full-frame composite to 0 and leaves
    the other pixels and the shape alone, whatever the aperture; the crop
    to the subarray, when there is one, is made on the zeroed frame. *)
Theorem reference_pixels_zeroed_before_crop (self : WFSSSim) (w w' : world)
    (obs : Observation) :
  create self w = (w', Ok obs) →
  ∃ c composite w1 cropped gain,
    composite_seed self w = (w1, Ok (c, composite)) ∧
    let zeroed := zero_reference_pixels composite in
    (∀ r col, reference_pixel r col → is_Some (NdArray.pixel composite r col) →
              NdArray.pixel zeroed r col = Some 0%Qc) ∧
    (∀ r col, ¬ reference_pixel r col →
              NdArray.pixel zeroed r col = NdArray.pixel composite r col) ∧
    NdArray.shape zeroed = NdArray.shape composite ∧
    crop_if_subarray c zeroed = Ok cropped ∧
    seed obs = NdArray.div_scalar cropped gain.
Proof.
  intros Hrun.
  apply create_Ok in Hrun as (c & composite & w1 & Hcomp & Hfin).
  apply finish_seed_Ok in Hfin as (cropped & gain & Hcrop & _ & Hseed & _).
  exists c, composite, w1, cropped, gain.
  split; [done|]. intros zeroed. subst zeroed.
  refine (conj _ (conj _ (conj (shape_zero_reference_pixels _) (conj Hcrop Hseed)))).
  - intros r col Hb [p Hp]. rewrite pixel_zero_reference_pixels, Hp.
    by destruct (decide _).
  - intros r col Hb. rewrite pixel_zero_reference_pixels. by destruct (decide _).
Qed.

Lemma mean_gain_Ok self gain :
  mean_gain self = Ok gain →
  (instrument (info self) = Some "niriss" ∧ gain = MEAN_GAIN_niriss) ∨
  (instrument (info self) = Some "nircam" ∧
   ∃ m, module (info self) = Some m ∧ MEAN_GAIN_nircam !! ("lw" +:+ lower m) = Some gain).
Proof.
  unfold mean_gain. destruct (instrument (info self)) as [inst|]; simpl; [|done].
  destruct (String.eqb inst "niriss") eqn:E1.
  - apply String.eqb_eq in E1 as ->. intros [= <-]. by left.
  - destruct (String.eqb inst "nircam") eqn:E2; [|done].
    apply String.eqb_eq in E2 as ->.
    destruct (module (info self)) as [m|]; simpl; [|done].
    destruct (MEAN_GAIN_nircam !! _) as [g|] eqn:Eg; [|done].
    intros [= <-]. right. eauto.
Qed.

Lemma Qc_div_twice (p g : Qc) :
  g ≠ 0%Qc → (p / g / g = p / g)%Qc → p = 0%Qc ∨ g = 1%Qc.
Proof.
  intros Hg Heq.
  assert (E : (p = p * g)%Qc).
  { replace p with (p / g / g * (g * g))%Qc at 1 by (field; done).
    rewrite Heq. field; done. }
  assert (E0 : (p * (1 - g) = 0)%Qc).
  { replace (p * (1 - g))%Qc with (p - p * g)%Qc by ring. rewrite <- E. ring. }
  apply Qcmult_integral in E0 as [E0|E0]; [by left|right].
  replace g with (g + (1 - g))%Qc by (rewrite E0; ring). ring.
Qed.

(** In exact arithmetic, dividing a second time changes an image that has
    a pixel other than 0. *)
Lemma div_scalar_not_idempotent (a : ndarray) (g : Qc) :
  g ≠ 0%Qc → g ≠ 1%Qc →
  (∃ r c p, NdArray.pixel a r c = Some p ∧ p ≠ 0%Qc) →
  NdArray.div_scalar (NdArray.div_scalar a g) g ≠ NdArray.div_scalar a g.
Proof.
  intros Hg0 Hg1 (r & c & p & Hp & Hp0) Heq.
  apply (f_equal (λ x, NdArray.pixel x r c)) in Heq.
  unfold NdArray.div_scalar in Heq. rewrite !pixel_map, Hp in Heq. simpl in Heq.
  apply (inj Some) in Heq. by apply Qc_div_twice in Heq as [?|?].
Qed.

(** C4, as the code has it: [create] divides every pixel of the composite
    (in e/sec, after zeroing and cropping) by the gain of the instrument -
    the NIRISS value, or the NIRCam long-wave value of the module - once,
    and sets the units of the seed metadata to ['ADU/sec']. *)
Theorem unit_normalization (self : WFSSSim) (w w' : world) (obs : Observation) :
  create self w = (w', Ok obs) →
  ∃ c composite w1 e_sec gain,
    composite_seed self w = (w1, Ok (c, composite)) ∧
    crop_if_subarray c (zero_reference_pixels composite) = Ok e_sec ∧
    ((instrument (info self) = Some "niriss" ∧ gain = MEAN_GAIN_niriss) ∨
     (instrument (info self) = Some "nircam" ∧
      ∃ m, module (info self) = Some m ∧
           MEAN_GAIN_nircam !! ("lw" +:+ lower m) = Some gain)) ∧
    seed obs = NdArray.div_scalar e_sec gain ∧
    (∀ r col, NdArray.pixel (seed obs) r col =
              (λ p, p / gain)%Qc <$> NdArray.pixel e_sec r col) ∧
    NdArray.shape (seed obs) = NdArray.shape e_sec ∧
    seedheader obs !! "units" = Some "ADU/sec".
Proof.
  intros Hrun.
  apply create_Ok in Hrun as (c & composite & w1 & Hcomp & Hfin).
  apply finish_seed_Ok in Hfin as (e_sec & gain & Hcrop & Hgain & Hseed & Hhdr & _).
  exists c, composite, w1, e_sec, gain.
  split; [done|]. split; [done|]. split; [by apply mean_gain_Ok|].
  split; [done|]. rewrite Hseed, Hhdr. split; [|split].
  - intros r col. apply pixel_map.
  - unfold NdArray.shape, NdArray.nrows, NdArray.div_scalar, NdArray.map; simpl.
    by rewrite length_fmap.
  - apply lookup_insert_eq.
Qed.

End FinishTheorems.

Lemma bench_create_runs :
  ∃ w' obs, create (collab := Bench.collaborators) Bench.sim Bench.disk_after_init
            = (w', Ok obs).
Proof. eexists _, _. vm_compute. reflexivity. Qed.

Lemma reference_pixels_zeroed_before_crop_witness :
  ∃ w' obs c composite,
    create (collab := Bench.collaborators) Bench.sim Bench.disk_after_init = (w', Ok obs) ∧
    NdArray.shape composite = (6, 6) ∧
    NdArray.pixel (zero_reference_pixels composite) 3 5 = Some 0%Qc ∧
    crop_if_subarray c (zero_reference_pixels composite) =
      Ok (NdArray.mk 2 [[Qc_of_Z 10; Qc_of_Z 10]; [Qc_of_Z 10; Qc_of_Z 10]]).
Proof.
  destruct bench_create_runs as (w' & obs & Hrun).
  destruct (reference_pixels_zeroed_before_crop _ _ _ _ Hrun)
    as (c & composite & w1 & cropped & gain & Hcomp & Hz & _ & _ & Hcrop & _).
  exists w', obs, c, composite.
  vm_compute in Hcomp. injection Hcomp as <- <- <-.
  split; [exact Hrun|]. split; [reflexivity|]. split.
  - apply Hz; [unfold reference_pixel; lia | by eexists].
  - by_compute.
Defined.

Lemma unit_normalization_witness :
  ∃ w' obs,
    create (collab := Bench.collaborators) Bench.sim Bench.disk_after_init = (w', Ok obs) ∧
    seed obs = Bench.flat 2 5 ∧
    seedheader obs !! "units" = Some "ADU/sec".
Proof.
  destruct bench_create_runs as (w' & obs & Hrun).
  destruct (unit_normalization _ _ _ _ Hrun)
    as (c & composite & w1 & e_sec & gain & Hcomp & Hcrop & Hgain & Hseed & _ & _
        & Hunits).
  exists w', obs.
  vm_compute in Hcomp. injection Hcomp as <- <- <-.
  vm_compute in Hcrop. injection Hcrop as <-.
  assert (gain = Qc_of_Z 2) as ->.
  { destruct Hgain as [[_ ->]|[Hinst _]]; [reflexivity | discriminate Hinst]. }
  split; [exact Hrun|]. split; [|exact Hunits].
  rewrite Hseed. by_compute.
Defined.

(** C4, as stated, fails on float64 pixels: for a gain of 2, an image
    whose pixels are infinite or zero, and an image with the least positive
    float64 in a pixel, both other than the image of zeros, come out of a
    second division as they came out of the first. *)
Lemma second_division_leaves_float64_image :
  PrimFloat.eqb 2 1 = false ∧
  PrimFloat.eqb infinity 0 = false ∧
  Float64.div_scalar [[infinity; 0]; [0; infinity]]%float 2
    = [[infinity; 0]; [0; infinity]]%float ∧
  Float64.div_scalar (Float64.div_scalar [[infinity; 0]; [0; infinity]]%float 2) 2
    = Float64.div_scalar [[infinity; 0]; [0; infinity]]%float 2 ∧
  PrimFloat.eqb 0x1p-1074 0 = false ∧
  Float64.div_scalar [[0x1p-1074; 0]; [0; 0]]%float 2 = [[0; 0]; [0; 0]]%float ∧
  Float64.div_scalar (Float64.div_scalar [[0x1p-1074; 0]; [0; 0]]%float 2) 2
    = Float64.div_scalar [[0x1p-1074; 0]; [0; 0]]%float 2.
Proof. repeat split; reflexivity. Qed.

(** ** The loop over the source classes *)

(** [seed_files[0] is not None] *)
Definition populated (seed_files : list (option string)) : Prop :=
  ∃ f, seed_files !! 0 = Some (Some f).

#[export] Instance populated_dec seed_files : Decision (populated seed_files).
Proof.
  unfold populated. destruct (seed_files !! 0) as [[f|]|].
  - left. by exists f.
  - right. by intros [f [=]].
  - right. by intros [f [=]].
Defined.

Definition has_background (e : event) : bool :=
  match e with
  | EvFinalize _ _ (Some _) => true
  | _ => false
  end.

Definition is_fits_write (e : event) : bool :=
  match e with
  | EvWriteFits _ _ => true
  | _ => false
  end.

Lemma for_each_cons_Ok {A S} (body : S → A → io (S * bool)) s x l w w' s' :
  for_each body s (x :: l) w = (w', Ok s') →
  ∃ s1 b w1, body s x w = (w1, Ok (s1, b)) ∧
    if b then for_each body s1 l w1 = (w', Ok s') else s' = s1 ∧ w' = w1.
Proof.
  simpl. intros Hrun. apply io_bind_Ok in Hrun as ([s1 b] & w1 & Hbody & Hrun).
  exists s1, b, w1. split; [done|]. destruct b; [done|].
  by apply io_ret_Ok in Hrun as [-> ->].
Qed.

Section Dispersal.

Context {collab : Collaborators}.
Variables (self : WFSSSim) (loc : string) (SED_file : option string) (bg : background).

(** The arguments the disperser of a class is built with. *)
Definition class_args (seed_files : list (option string)) : GrismArgs :=
  mkGrismArgs seed_files
    (default "" (crossing_filter (info self)))
    (default "" (dmode bg)) loc
    (upper (default "" (instrument (info self))))
    (extrapolate_SED (inputs self)) SED_file (source_stamps_file (inputs self)).

Definition class_background (seed_files : list (option string)) : result ndarray :=
  make_background (default "" (instrument (info self))) loc bg (class_args seed_files).

(** The [finalize] calls made for the classes that come after the one
    that received the background, and the images they add. *)
Definition later_finalizes (cs : list (source_class * list (option string))) : list event :=
  (λ cs, EvFinalize cs.1 (class_args cs.2) None) <$> filter (λ cs, populated cs.2) cs.

Definition later_finals (cs : list (source_class * list (option string))) : list ndarray :=
  (λ cs, grism_final (class_args cs.2) None) <$> filter (λ cs, populated cs.2) cs.

Lemma step_Ok st cls files w w' st' b :
  disperse_step self loc SED_file bg st (cls, files) w = (w', Ok (st', b)) →
  b = true ∧
  ((files !! 0 = Some None ∧ st' = st ∧ w' = w) ∨
   (populated files ∧ background_done st = true ∧ background_done st' = true ∧
    w' = emit (EvFinalize cls (class_args files) None) w ∧
    NdArray.iadd (disp_seed st) (grism_final (class_args files) None)
      = Ok (disp_seed st')) ∨
   (populated files ∧ background_done st = false ∧ background_done st' = true ∧
    ∃ background_image fn,
      class_background files = Ok background_image ∧
      background_image_filename (info self) = Some fn ∧
      w' = emit (EvWriteFits fn (background_hdus background_image))
             (emit (EvFinalize cls (class_args files) (Some background_image)) w) ∧
      NdArray.iadd (disp_seed st) (grism_final (class_args files) (Some background_image))
        = Ok (disp_seed st'))).
Proof.
  unfold disperse_step. intros Hrun.
  apply io_bind_Ok in Hrun as (first & w1 & Hfirst & Hrun).
  apply lift_Ok in Hfirst as [Hfirst ->]. apply py_index_Ok in Hfirst.
  destruct first as [f|].
  2:{ apply io_ret_Ok in Hrun as [Heq ->]. injection Heq as -> ->.
      split; [done|]. by left. }
  assert (Hpop : populated files) by (by exists f).
  apply io_bind_Ok in Hrun as (cf & w1 & Hcf & Hrun).
  apply lift_Ok in Hcf as [Hcf ->].
  apply io_bind_Ok in Hrun as (dm & w1 & Hdm & Hrun).
  apply lift_Ok in Hdm as [Hdm ->].
  apply io_bind_Ok in Hrun as (inst & w1 & Hinst & Hrun).
  apply lift_Ok in Hinst as [Hinst ->].
  destruct (crossing_filter (info self)) as [cf'|] eqn:Ecf; [|done].
  destruct (dmode bg) as [dm'|] eqn:Edm; [|done].
  destruct (instrument (info self)) as [inst'|] eqn:Einst; [|done].
  simpl in Hcf, Hdm, Hinst. injection Hcf as ->. injection Hdm as ->.
  injection Hinst as ->.
  assert (Hargs : mkGrismArgs files cf dm loc (upper inst)
                    (extrapolate_SED (inputs self)) SED_file
                    (source_stamps_file (inputs self)) = class_args files).
  { unfold class_args. by rewrite Ecf, Edm, Einst. }
  rewrite Hargs in Hrun.
  apply io_bind_Ok in Hrun as ([final done] & w1 & Hfin & Hrun).
  apply io_bind_Ok in Hrun as (d & w2 & Hadd & Hrun).
  apply lift_Ok in Hadd as [Hadd ->].
  apply io_ret_Ok in Hrun as [Heq ->]. injection Heq as -> ->.
  split; [done|]. right. simpl.
  destruct (background_done st) eqn:Edone; simpl in Hfin.
  - left. apply io_bind_Ok in Hfin as ([] & w2 & Hemit & Hfin).
    apply io_ret_Ok in Hfin as [Heq ->]. injection Heq as -> ->.
    unfold modify_world in Hemit. injection Hemit as <-. done.
  - right. apply io_bind_Ok in Hfin as (bgimg & w2 & Hbg & Hfin).
    apply lift_Ok in Hbg as [Hbg ->].
    apply io_bind_Ok in Hfin as ([] & w2 & Hemit & Hfin).
    apply io_bind_Ok in Hfin as (fn & w3 & Hfn & Hfin).
    apply lift_Ok in Hfn as [Hfn ->].
    apply io_bind_Ok in Hfin as ([] & w3 & Hemit2 & Hfin).
    apply io_ret_Ok in Hfin as [Heq ->]. injection Heq as -> ->.
    unfold modify_world in Hemit, Hemit2.
    injection Hemit as <-. injection Hemit2 as <-.
    destruct (background_image_filename (info self)) as [fn'|] eqn:Efn; [|done].
    injection Hfn as ->.
    repeat split; try done. exists bgimg, fn.
    unfold class_background. rewrite Einst. done.
Qed.

Lemma iadd_Ok a b c :
  NdArray.iadd a b = Ok c →
  NdArray.shape b = NdArray.shape a ∧ c = NdArray.add a b ∧
  NdArray.shape c = NdArray.shape a.
Proof.
  unfold NdArray.iadd. destruct (decide _) as [Hs|]; [|done]. intros [= <-].
  split; [done|]. split; [done|].
  unfold NdArray.shape, NdArray.nrows in *. simpl. injection Hs as Hr Hc.
  rewrite length_zip_with. f_equal. lia.
Qed.

Definition unpopulated (cs : source_class * list (option string)) : Prop :=
  cs.2 !! 0 = Some None.

Lemma unpopulated_not_populated cs : unpopulated cs → ¬ populated cs.2.
Proof. unfold unpopulated. intros Hu [f Hf]. congruence. Qed.

Lemma later_finalizes_cons cs l :
  later_finalizes (cs :: l) =
  if decide (populated cs.2)
  then EvFinalize cs.1 (class_args cs.2) None :: later_finalizes l
  else later_finalizes l.
Proof. unfold later_finalizes. rewrite filter_cons. by destruct (decide _). Qed.

Lemma later_finals_cons cs l :
  later_finals (cs :: l) =
  if decide (populated cs.2)
  then grism_final (class_args cs.2) None :: later_finals l
  else later_finals l.
Proof. unfold later_finals. rewrite filter_cons. by destruct (decide _). Qed.

(** The loop once the background has been given to a class. *)
Lemma loop_after_background cs : ∀ st w w' st',
  background_done st = true →
  for_each (disperse_step self loc SED_file bg) st cs w = (w', Ok st') →
  events w' = (events w ++ later_finalizes cs)%list ∧
  Forall (λ x, NdArray.shape x = NdArray.shape (disp_seed st)) (later_finals cs) ∧
  disp_seed st' = foldl NdArray.add (disp_seed st) (later_finals cs).
Proof.
  induction cs as [|[cls files] cs IH]; intros st w w' st' Hdone Hrun.
  - apply io_ret_Ok in Hrun as [-> ->]. simpl. by rewrite app_nil_r.
  - apply for_each_cons_Ok in Hrun as (s1 & b & w1 & Hstep & Hrest).
    apply step_Ok in Hstep as [-> Hstep].
    rewrite later_finalizes_cons, later_finals_cons. simpl.
    destruct Hstep as [(Hnone & -> & ->)|[(Hpop & _ & Hdone1 & -> & Hadd)|(_ & Hf & _)]].
    + destruct (decide (populated files)) as [Hp|Hp].
      { by apply (unpopulated_not_populated (cls, files)) in Hp. }
      by apply IH.
    + destruct (decide (populated files)) as [Hp|Hp]; [|done].
      apply iadd_Ok in Hadd as (Hshape & Heq & Hshape1).
      destruct (IH _ _ _ _ Hdone1 Hrest) as (Hev & Hall & Hsum).
      rewrite Hev. simpl. rewrite <- app_assoc. split; [done|].
      rewrite Hshape1 in Hall. split; [by constructor|].
      simpl. by rewrite <- Heq.
    + congruence.
Qed.

(** The loop from its start: either no class is populated, or the first
    populated class is finalized with the background, the background image
    is saved, and the classes after it are finalized without. *)
Lemma loop_before_background cs : ∀ st w w' st',
  background_done st = false →
  for_each (disperse_step self loc SED_file bg) st cs w = (w', Ok st') →
  (Forall unpopulated cs ∧ st' = st ∧ w' = w) ∨
  (∃ before cls files after background_image fn,
     cs = (before ++ (cls, files) :: after)%list ∧
     Forall unpopulated before ∧ populated files ∧
     class_background files = Ok background_image ∧
     background_image_filename (info self) = Some fn ∧
     events w' = (events w ++
       EvFinalize cls (class_args files) (Some background_image) ::
       EvWriteFits fn (background_hdus background_image) ::
       later_finalizes after)%list ∧
     let finals := grism_final (class_args files) (Some background_image)
                   :: later_finals after in
     Forall (λ x, NdArray.shape x = NdArray.shape (disp_seed st)) finals ∧
     disp_seed st' = foldl NdArray.add (disp_seed st) finals).
Proof.
  induction cs as [|[cls files] cs IH]; intros st w w' st' Hdone Hrun.
  - apply io_ret_Ok in Hrun as [-> ->]. left. by repeat split.
  - apply for_each_cons_Ok in Hrun as (s1 & b & w1 & Hstep & Hrest).
    apply step_Ok in Hstep as [-> Hstep].
    destruct Hstep as [(Hnone & -> & ->)|[(_ & Hf & _)|
      (Hpop & _ & Hdone1 & bgimg & fn & Hbg & Hfn & -> & Hadd)]].
    + destruct (IH _ _ _ _ Hdone Hrest) as [(Hall & -> & ->)|
        (before & cls' & files' & after & bgimg & fn & -> & Hrest')].
      * left. repeat split; try done. by constructor.
      * right. exists ((cls, files) :: before), cls', files', after, bgimg, fn.
        split; [done|]. destruct Hrest' as (Hb & Hrest').
        split; [by constructor|]. done.
    + congruence.
    + right. exists [], cls, files, cs, bgimg, fn.
      apply iadd_Ok in Hadd as (Hshape & Heq & Hshape1).
      destruct (loop_after_background _ _ _ _ _ Hdone1 Hrest) as (Hev & Hall & Hsum).
      rewrite Hshape1 in Hall.
      repeat split; try done.
      * rewrite Hev. simpl. by rewrite <- !app_assoc.
      * by constructor.
      * simpl. by rewrite <- Heq.
Qed.

End Dispersal.

(** ** Sums of images *)

Module AddFacts.
Import NdArray.

Lemma zip_with_assoc {A} (f : A → A → A) `{!Assoc (=) f} (a b c : list A) :
  zip_with f (zip_with f a b) c = zip_with f a (zip_with f b c).
Proof.
  revert b c. induction a as [|x a IH]; intros [|y b] [|z c]; simpl; try done.
  by rewrite IH, (assoc f).
Qed.

Lemma zip_with_comm {A} (f : A → A → A) `{!Comm (=) f} (a b : list A) :
  zip_with f a b = zip_with f b a.
Proof.
  revert b. induction a as [|x a IH]; intros [|y b]; simpl; try done.
  by rewrite IH, (comm f x y).
Qed.

#[local] Instance row_add_assoc : Assoc (=) (zip_with Qcplus).
Proof. intros a b c. symmetry. apply zip_with_assoc, _. Qed.

#[local] Instance row_add_comm : Comm (=) (zip_with Qcplus).
Proof. intros a b. apply zip_with_comm, _. Qed.

Lemma add_assoc a b c : add (add a b) c = add a (add b c).
Proof. unfold add, map2; simpl. f_equal. apply zip_with_assoc, _. Qed.

Lemma add_comm a b : ncols a = ncols b → add a b = add b a.
Proof. unfold add, map2; simpl. intros ->. f_equal. apply zip_with_comm, _. Qed.

Lemma foldl_add_shift b x l : foldl add (add b x) l = add b (foldl add x l).
Proof.
  revert x. induction l as [|p l IH]; intros x; simpl; [done|].
  by rewrite add_assoc, IH.
Qed.

(** A sum in which one term carries the background is the background plus
    the sum of the bare terms. *)
Lemma background_out z b p l :
  ncols b = ncols z →
  foldl add z (add b p :: l) = add b (foldl add z (p :: l)).
Proof.
  intros Hc. simpl.
  rewrite <- add_assoc, (add_comm z b), add_assoc by done.
  apply foldl_add_shift.
Qed.

End AddFacts.

(** ** The background goes into exactly one class *)

Definition classes (s : seeds) : list (source_class * list (option string)) :=
  [(PointSources, ptsrc_seeds s); (Galaxies, galaxy_seeds s);
   (ExtendedSources, extended_seeds s)].

Section Background.

Context {collab : Collaborators}.
Variables (self : WFSSSim) (loc : string) (SED_file : option string) (bg : background).

Lemma later_finalizes_no_background cs :
  filter has_background (later_finalizes self loc SED_file bg cs) = [].
Proof.
  unfold later_finalizes. induction (filter _ cs) as [|x l IH]; simpl; [done|].
  by rewrite filter_cons.
Qed.

Lemma later_finalizes_no_write cs :
  filter is_fits_write (later_finalizes self loc SED_file bg cs) = [].
Proof.
  unfold later_finalizes. induction (filter _ cs) as [|x l IH]; simpl; [done|].
  by rewrite filter_cons.
Qed.

Lemma later_finals_app_unpopulated before cs :
  Forall unpopulated before →
  later_finals self loc SED_file bg (before ++ cs) = later_finals self loc SED_file bg cs.
Proof.
  induction 1 as [|x l Hx _ IH]; simpl; [done|].
  rewrite later_finals_cons. apply unpopulated_not_populated in Hx.
  by rewrite decide_False.
Qed.

(** What a successful run of the loop over the classes has done. *)
Lemma disperse_classes_Ok s c w w' composite :
  disperse_classes self loc SED_file bg s c w = (w', Ok composite) →
  let zero := NdArray.zeros (ffsize c) (ffsize c) in
  (Forall unpopulated (classes s) ∧ composite = zero ∧ w' = w) ∨
  (∃ before cls files after background_image fn,
     classes s = (before ++ (cls, files) :: after)%list ∧
     Forall unpopulated before ∧ populated files ∧
     class_background self loc SED_file bg files = Ok background_image ∧
     background_image_filename (info self) = Some fn ∧
     events w' = (events w ++
       EvFinalize cls (class_args self loc SED_file bg files) (Some background_image) ::
       EvWriteFits fn (background_hdus background_image) ::
       later_finalizes self loc SED_file bg after)%list ∧
     let finals := grism_final (class_args self loc SED_file bg files) (Some background_image)
                   :: later_finals self loc SED_file bg after in
     Forall (λ x, NdArray.shape x = NdArray.shape zero) finals ∧
     composite = foldl NdArray.add zero finals).
Proof.
  intros Hrun zero. subst zero. unfold disperse_classes in Hrun.
  apply io_bind_Ok in Hrun as (st & w1 & Hloop & Hrun).
  apply io_ret_Ok in Hrun as [-> ->].
  apply loop_before_background in Hloop; [|done].
  destruct Hloop as [Hnone|Hloop]; [left|by right].
  destruct Hnone as (Hall & Hst & Hw). by subst.
Qed.

End Background.

Definition is_finalize (e : event) : bool :=
  match e with
  | EvFinalize _ _ _ => true
  | _ => false
  end.

(** ** A run of [create] *)

Section CreateBackground.

Context {collab : Collaborators}.

Lemma make_seeds_runs self w :
  ∃ s, make_seeds self w = (w, Ok s).
Proof.
  unfold make_seeds. generalize (mkSeeds [] [] [] [] None).
  induction (paramfiles self) as [|pfile l IH]; intros s; [by exists s|].
  cbn [for_each]. unfold mbind, io_bind. cbn [seed_step].
  unfold seed_step at 1, mbind, io_bind, get_world, mret, io_ret.
  destruct (negb (create_continuum_seds self)); [apply IH|by eexists].
Qed.

Lemma make_seeds_world self w w1 s :
  make_seeds self w = (w1, Ok s) → w1 = w.
Proof. destruct (make_seeds_runs self w) as [s' ->]. by intros [= <- _]. Qed.

(** The location of the configuration files of the disperser. *)
Definition config_path (self : WFSSSim) : string :=
  let inst := default "" (instrument (info self)) in
  os_path_join (datadir self) (inst +:+ "/GRISM_" +:+ upper inst +:+ "/").

(** What a successful run of the first part of [create] has done. *)
Lemma composite_seed_runs self w w' c composite :
  composite_seed self w = (w', Ok (c, composite)) →
  ∃ s SED_file bg,
    make_seeds self w = (w, Ok s) ∧ cat s = Some c ∧
    continuum_seds self s = Ok SED_file ∧
    resolve_background self = Ok bg ∧
    disperse_classes self (config_path self) SED_file bg s c w = (w', Ok composite).
Proof.
  unfold composite_seed. intros Hrun.
  apply io_bind_Ok in Hrun as (s & w1 & Hseeds & Hrun).
  pose proof (make_seeds_world _ _ _ _ Hseeds) as ->.
  apply io_bind_Ok in Hrun as (sed & w2 & Hsed & Hrun).
  apply lift_Ok in Hsed as [Hsed ->].
  apply io_bind_Ok in Hrun as (inst & w3 & Hinst & Hrun).
  apply lift_Ok in Hinst as [Hinst ->].
  apply io_bind_Ok in Hrun as (bg & w4 & Hbg & Hrun).
  apply lift_Ok in Hbg as [Hbg ->].
  apply io_bind_Ok in Hrun as (c' & w5 & Hc & Hrun).
  apply lift_Ok in Hc as [Hc ->].
  apply io_bind_Ok in Hrun as (d & w6 & Hdisp & Hrun).
  apply io_ret_Ok in Hrun as [Heq ->]. injection Heq as -> ->.
  exists s, sed, bg. split; [done|].
  destruct (cat s) as [c0|] eqn:Ecat; [|done]. injection Hc as ->.
  split; [done|]. split; [done|]. split; [done|].
  unfold config_path. destruct (instrument (info self)) as [inst0|]; [|done].
  by injection Hinst as ->.
Qed.

(** The write of the dispersed seed image, when it is asked for. *)
Definition seed_write (self : WFSSSim) (saved : list event) : Prop :=
  if save_dispersed_seed (inputs self)
  then ∃ fn cropped,
         saved = [EvWriteFits fn (mkHDUList [("units", "e/sec")]
                                    [mkImageHDU cropped [("units", "e/sec")]])]
  else saved = [].

(** A successful run of [create]: the seed images, the spectra and the
    background are made without an event, the loop over the classes runs,
    and the dispersed seed image is written when it is asked for. *)
Lemma create_runs self w w' obs :
  create self w = (w', Ok obs) →
  ∃ s c SED_file bg w1 composite saved,
    make_seeds self w = (w, Ok s) ∧ cat s = Some c ∧
    continuum_seds self s = Ok SED_file ∧
    resolve_background self = Ok bg ∧
    disperse_classes self (config_path self) SED_file bg s c w = (w1, Ok composite) ∧
    composite_seed self w = (w1, Ok (c, composite)) ∧
    events w' = (events w1 ++ saved)%list ∧ seed_write self saved.
Proof.
  intros Hrun. apply create_Ok in Hrun as (c & composite & w1 & Hcomp & Hfin).
  destruct (composite_seed_runs _ _ _ _ _ Hcomp)
    as (s & sed & bg & Hseeds & Hcat & Hsed & Hbg & Hloop).
  apply finish_seed_Ok in Hfin as (cropped & gain & _ & _ & _ & _ & _ & Hsave).
  exists s, c, sed, bg, w1, composite. unfold seed_write.
  destruct (save_dispersed_seed (inputs self)).
  - destruct Hsave as [fn ->]. eexists [_]. repeat (split; [done|]). eauto.
  - subst w'. exists []. repeat (split; [done|]). by rewrite app_nil_r.
Qed.

Lemma seed_write_filters self saved :
  seed_write self saved →
  filter is_finalize saved = [] ∧ filter has_background saved = [] ∧
  filter is_fits_write saved = saved.
Proof.
  unfold seed_write. destruct (save_dispersed_seed (inputs self)).
  - by intros (fn & cropped & ->).
  - by intros ->.
Qed.

End CreateBackground.

Section BackgroundTheorems.

Context {collab : Collaborators}.
Variables (self : WFSSSim) (loc : string) (SED_file : option string) (bg : background).

Lemma later_finalizes_all_finalize cs :
  filter is_finalize (later_finalizes self loc SED_file bg cs)
  = later_finalizes self loc SED_file bg cs.
Proof.
  induction cs as [|x cs IH]; [done|]. rewrite later_finalizes_cons.
  destruct (decide _); [|done]. rewrite filter_cons. simpl. by rewrite IH.
Qed.

(** The loop over the source classes, when a class is populated: the first
    populated class is finalized with the background image, every populated
    class after it with none, and the composite is the sum of the images so
    finalized. *)
Lemma background_once_in_loop (s : seeds) (c : Catalog_seed)
    (w w' : world) (composite : ndarray) :
  disperse_classes self loc SED_file bg s c w = (w', Ok composite) →
  Exists (λ cs, populated cs.2) (classes s) →
  ∃ before cls files after background_image new_events,
    classes s = (before ++ (cls, files) :: after)%list ∧
    Forall (λ cs, ¬ populated cs.2) before ∧ populated files ∧
    class_background self loc SED_file bg files = Ok background_image ∧
    events w' = (events w ++ new_events)%list ∧
    filter is_finalize new_events =
      EvFinalize cls (class_args self loc SED_file bg files) (Some background_image)
      :: later_finalizes self loc SED_file bg after ∧
    length (filter has_background new_events) = 1 ∧
    let zero := NdArray.zeros (ffsize c) (ffsize c) in
    let finals := grism_final (class_args self loc SED_file bg files) (Some background_image)
                  :: later_finals self loc SED_file bg after in
    Forall (λ x, NdArray.shape x = (ffsize c, ffsize c)) finals ∧
    composite = foldl NdArray.add zero finals ∧
    ((∀ g b, grism_final g (Some b) = NdArray.add b (grism_final g None)) →
     composite = NdArray.add background_image
                   (foldl NdArray.add zero (later_finals self loc SED_file bg (classes s)))).
Proof.
  intros Hrun Hsome.
  apply disperse_classes_Ok in Hrun as [(Hnone & _)|Hrun].
  { exfalso. apply Exists_exists in Hsome as (cs & Hin & Hpop).
    apply (proj1 (Forall_forall _ _) Hnone), unpopulated_not_populated in Hin. done. }
  destruct Hrun as (before & cls & files & after & bgimg & fn & Hcs & Hbefore & Hpop
                    & Hbg & Hfn & Hev & Hshape & Hsum).
  exists before, cls, files, after, bgimg.
  eexists. split; [done|]. split.
  { eapply Forall_impl; [exact Hbefore|]. apply unpopulated_not_populated. }
  split; [done|]. split; [done|]. split; [exact Hev|]. split; [|split].
  - rewrite !filter_cons. simpl. by rewrite later_finalizes_all_finalize.
  - rewrite !filter_cons. simpl. by rewrite later_finalizes_no_background.
  - assert (Hz : NdArray.shape (NdArray.zeros (ffsize c) (ffsize c)) = (ffsize c, ffsize c)).
    { unfold NdArray.shape, NdArray.nrows; simpl. by rewrite length_replicate. }
    rewrite Hz in Hshape. split; [done|]. split; [done|].
    intros Hfinalize. rewrite Hsum, Hcs.
    rewrite later_finals_app_unpopulated, later_finals_cons by done.
    rewrite decide_True by done. simpl fst; simpl snd.
    rewrite Hfinalize. apply AddFacts.background_out.
    apply Forall_cons_1 in Hshape as [Hshape _].
    rewrite Hfinalize in Hshape. by injection Hshape.
Qed.

End BackgroundTheorems.

Section BackgroundInCreate.

Context {collab : Collaborators}.

(** C1, as the code has it: a class is dispersed when its first seed file,
    [seed_files[0]], is not [None], whatever its other seed files. In a run
    of [create] in which a class is so, the first such class, in the order
    point sources, galaxies, extended sources, is finalized with the
    background image, and every such class after it with none: one
    [finalize] call in all carries a background, and the composite is the
    sum, in that order and from an image of zeros, of the images so
    finalized. In a run in which no class is so, no [finalize] call is made
    and the composite is the image of zeros. *)
Theorem background_in_exactly_one_class (self : WFSSSim) (w w' : world)
    (obs : Observation) :
  create self w = (w', Ok obs) →
  ∃ s c SED_file bg w1 composite new_events,
    make_seeds self w = (w, Ok s) ∧ cat s = Some c ∧
    continuum_seds self s = Ok SED_file ∧ resolve_background self = Ok bg ∧
    composite_seed self w = (w1, Ok (c, composite)) ∧
    events w' = (events w ++ new_events)%list ∧
    let loc := config_path self in
    let zero := NdArray.zeros (ffsize c) (ffsize c) in
    let dispersed (seed_files : list (option string)) : Prop :=
      ∃ f, seed_files !! 0 = Some (Some f) in
    (Forall (λ cs, ¬ dispersed cs.2) (classes s) →
     filter is_finalize new_events = [] ∧ composite = zero) ∧
    (Exists (λ cs, dispersed cs.2) (classes s) →
     ∃ before cls files after background_image,
       classes s = (before ++ (cls, files) :: after)%list ∧
       Forall (λ cs, ¬ dispersed cs.2) before ∧ dispersed files ∧
       class_background self loc SED_file bg files = Ok background_image ∧
       filter is_finalize new_events =
         EvFinalize cls (class_args self loc SED_file bg files) (Some background_image)
         :: ((λ cs, EvFinalize cs.1 (class_args self loc SED_file bg cs.2) None)
             <$> filter (λ cs, dispersed cs.2) after) ∧
       length (filter has_background new_events) = 1 ∧
       let finals :=
         grism_final (class_args self loc SED_file bg files) (Some background_image)
         :: ((λ cs, grism_final (class_args self loc SED_file bg cs.2) None)
             <$> filter (λ cs, dispersed cs.2) after) in
       Forall (λ x, NdArray.shape x = (ffsize c, ffsize c)) finals ∧
       composite = foldl NdArray.add zero finals).
Proof.
  intros Hrun.
  apply create_runs in Hrun as (s & c & sed & bg & w1 & composite & saved & Hseeds & Hcat
                                & Hsed & Hbg & Hloop & Hcomp & Hev & Hsaved).
  apply seed_write_filters in Hsaved as (Hs1 & Hs2 & _).
  apply disperse_classes_Ok in Hloop. cbn zeta in Hloop.
  destruct Hloop as [(Hnone & -> & ->)|Hloop].
  - exists s, c, sed, bg, w, (NdArray.zeros (ffsize c) (ffsize c)), saved.
    do 6 (split; [done|]). intros loc zero dispersed. split; [done|].
    intros Hsome. exfalso. apply Exists_exists in Hsome as (cs & Hin & Hpop).
    apply (proj1 (Forall_forall _ _) Hnone), unpopulated_not_populated in Hin. done.
  - destruct Hloop as (before & cls & files & after & bgimg & fn & Hcs & Hbefore & Hpop
                       & Hbgimg & Hfn & Hev1 & Hshape & Hsum).
    eexists s, c, sed, bg, w1, composite, _.
    do 5 (split; [done|]).
    split; [by rewrite Hev, Hev1, <- app_assoc|].
    intros loc zero dispersed. split.
    { intros Hnone. exfalso. rewrite Hcs in Hnone.
      apply Forall_app in Hnone as [_ Hnone]. by apply Forall_cons_1 in Hnone as [Hnone _]. }
    intros _. exists before, cls, files, after, bgimg.
    split; [done|]. split.
    { eapply Forall_impl; [exact Hbefore|]. apply unpopulated_not_populated. }
    split; [done|]. split; [done|].
    rewrite !filter_app, !filter_cons, Hs1, Hs2, !app_nil_r. simpl.
    rewrite later_finalizes_all_finalize, later_finalizes_no_background.
    split; [done|]. split; [done|].
    assert (Hz : NdArray.shape (NdArray.zeros (ffsize c) (ffsize c)) = (ffsize c, ffsize c)).
    { unfold NdArray.shape, NdArray.nrows; simpl. by rewrite length_replicate. }
    rewrite Hz in Hshape. by split.
Qed.

End BackgroundInCreate.

Lemma background_in_exactly_one_class_witness :
  ∃ w' obs new_events,
    create (collab := Bench.collaborators) Bench.sim Bench.disk_after_init = (w', Ok obs) ∧
    events w' = (events Bench.disk_after_init ++ new_events)%list ∧
    length (filter has_background new_events) = 1.
Proof.
  destruct bench_create_runs as (w' & obs & Hrun).
  destruct (background_in_exactly_one_class _ _ _ _ Hrun)
    as (s & c & sed & bg & w1 & composite & evs & Hseeds & _ & _ & _ & _ & Hev & _ & Hsome).
  vm_compute in Hseeds. injection Hseeds as <-.
  destruct Hsome as (before & cls & files & after & bgimg & _ & _ & _ & _ & _ & Hone & _).
  { apply Exists_cons_hd. by exists "ptsrc_seed.fits". }
  by exists w', obs, evs.
Defined.

(** The concrete setting, with a seed generator that finds point sources
    and extended sources in the imaging file but none in the wfss file. *)
Definition late_seed_collaborators : Collaborators := {|
  MEAN_GAIN_niriss := @MEAN_GAIN_niriss Bench.collaborators;
  MEAN_GAIN_nircam := @MEAN_GAIN_nircam Bench.collaborators;
  NIRISS_GRISM_THROUGHPUT_FACTOR := @NIRISS_GRISM_THROUGHPUT_FACTOR Bench.collaborators;
  make_seed := λ _ _ pfile,
    if String.eqb pfile "/in/wfss.yaml"
    then mkCat pfile "seed.fits" None None None "NIS_SUB" 6 [4; 4; 5; 5]%Z (Bench.flat 6 0)
           {["units" := "e/sec"]}
    else Bench.the_cat pfile;
  make_all_spectra := @make_all_spectra Bench.collaborators;
  day_of_year_background_spectrum := @day_of_year_background_spectrum Bench.collaborators;
  low_med_high_background_spectrum := @low_med_high_background_spectrum Bench.collaborators;
  calculate_background := @calculate_background Bench.collaborators;
  get_filter_throughput_file := @get_filter_throughput_file Bench.collaborators;
  grism_final := @grism_final Bench.collaborators;
  disperse_background_1D := @disperse_background_1D Bench.collaborators;
  fits_getdata := @fits_getdata Bench.collaborators;
  dark_files := @dark_files Bench.collaborators
|}.

(** C1, as stated, fails when the classes that have a seed have none for
    the first parameter file: the point source and the extended source
    classes each have a seed image, made from the second parameter file,
    yet the run returns without a [finalize] call, and the background is in
    the composite zero times. *)
Lemma background_missing_when_first_seed_is_none :
  ∃ s w' obs composite,
    paramfiles Bench.sim = ["/in/wfss.yaml"; "/in/tmp_update_to_wfss_mode_img.yaml"] ∧
    make_seeds (collab := late_seed_collaborators) Bench.sim Bench.disk_after_init
      = (Bench.disk_after_init, Ok s) ∧
    ptsrc_seeds s = [None; Some "ptsrc_seed.fits"] ∧
    galaxy_seeds s = [None; None] ∧
    extended_seeds s = [None; Some "extended_seed.fits"] ∧
    create (collab := late_seed_collaborators) Bench.sim Bench.disk_after_init
      = (w', Ok obs) ∧
    events Bench.disk_after_init = [] ∧
    filter is_finalize (events w') = [] ∧
    filter has_background (events w') = [] ∧
    composite_seed (collab := late_seed_collaborators) Bench.sim Bench.disk_after_init
      = (Bench.disk_after_init, Ok (Bench.the_cat "/in/tmp_update_to_wfss_mode_img.yaml",
                                   composite)) ∧
    composite = NdArray.zeros 6 6.
Proof.
  eexists _, _, _, _. split; [reflexivity|]. split; [vm_compute; reflexivity|].
  split; [reflexivity|]. split; [reflexivity|]. split; [reflexivity|].
  split; [vm_compute; reflexivity|]. split; [reflexivity|].
  split; [by_compute|]. split; [by_compute|]. split; [vm_compute; reflexivity|].
  by_compute.
Qed.


(** ** The background image file *)

Section BackgroundFile.

Context {collab : Collaborators}.
Variables (self : WFSSSim) (loc : string) (SED_file : option string) (bg : background).

Lemma step_reads_instrument st cls files w w' st' b :
  populated files →
  disperse_step self loc SED_file bg st (cls, files) w = (w', Ok (st', b)) →
  is_Some (instrument (info self)).
Proof.
  intros [f Hf]. unfold disperse_step. intros Hrun.
  apply io_bind_Ok in Hrun as (first & w1 & Hfirst & Hrun).
  apply lift_Ok in Hfirst as [Hfirst ->]. apply py_index_Ok in Hfirst.
  rewrite Hf in Hfirst. injection Hfirst as <-.
  apply io_bind_Ok in Hrun as (cf & w1 & _ & Hrun).
  apply io_bind_Ok in Hrun as (dm & w2 & _ & Hrun).
  apply io_bind_Ok in Hrun as (inst & w3 & Hinst & _).
  apply lift_Ok in Hinst as [Hinst _].
  destruct (instrument (info self)); [by eexists | done].
Qed.

Lemma loop_reads_instrument cs : ∀ st w w' st',
  Exists (λ cs, populated cs.2) cs →
  for_each (disperse_step self loc SED_file bg) st cs w = (w', Ok st') →
  is_Some (instrument (info self)).
Proof.
  induction cs as [|[cls files] cs IH]; intros st w w' st' Hsome Hrun.
  - by apply Exists_nil in Hsome.
  - apply for_each_cons_Ok in Hrun as (s1 & b & w1 & Hstep & Hrest).
    apply Exists_cons in Hsome as [Hpop|Hsome].
    + by eapply step_reads_instrument.
    + destruct b; [by eapply IH|].
      by apply step_Ok in Hstep as [[=] _].
Qed.

Lemma make_background_Ok inst g background_image :
  make_background inst loc bg g = Ok background_image →
  if String.eqb inst "nircam"
  then ∃ sp, back_spectrum bg = Some sp ∧
             background_image = disperse_background_1D g sp
  else ∃ bf sf, background_file bg = Some bf ∧ scaling_factor bg = Some sf ∧
                background_image = rescale_background (fits_getdata (os_path_join loc bf)) sf.
Proof.
  unfold make_background. destruct (String.eqb inst "nircam").
  - destruct (back_spectrum bg) as [sp|]; simpl; [|done]. intros [= <-]. eauto.
  - destruct (background_file bg) as [bf|]; simpl; [|done].
    destruct (scaling_factor bg) as [sf|]; simpl; [|done]. intros [= <-]. eauto.
Qed.

(** The loop over the source classes writes one file, the background image,
    when a class is populated, and none otherwise. *)
Lemma background_file_in_loop (s : seeds) (c : Catalog_seed)
    (w w' : world) (composite : ndarray) :
  disperse_classes self loc SED_file bg s c w = (w', Ok composite) →
  ∃ new_events,
    events w' = (events w ++ new_events)%list ∧
    (Forall (λ cs, ¬ populated cs.2) (classes s) → new_events = []) ∧
    (Exists (λ cs, populated cs.2) (classes s) →
     ∃ fn background_image g inst,
       background_image_filename (info self) = Some fn ∧
       instrument (info self) = Some inst ∧
       filter is_fits_write new_events =
         [EvWriteFits fn
            (mkHDUList [] [mkImageHDU background_image
                             [("EXTNAME", "BACKGRND"); ("UNITS", "e/s")]])] ∧
       if String.eqb inst "nircam"
       then ∃ sp, back_spectrum bg = Some sp ∧
                  background_image = disperse_background_1D g sp
       else ∃ bf sf, background_file bg = Some bf ∧ scaling_factor bg = Some sf ∧
                     background_image =
                       rescale_background (fits_getdata (os_path_join loc bf)) sf).
Proof.
  intros Hrun.
  assert (Hinst : Exists (λ cs, populated cs.2) (classes s) →
                  is_Some (instrument (info self))).
  { intros Hsome. unfold disperse_classes in Hrun.
    apply io_bind_Ok in Hrun as (st & w1 & Hloop & _).
    by eapply loop_reads_instrument. }
  apply disperse_classes_Ok in Hrun as [(Hnone & _ & ->)|Hrun].
  { exists []. split; [by rewrite app_nil_r|]. split; [done|].
    intros Hsome. exfalso. apply Exists_exists in Hsome as (cs & Hin & Hpop).
    apply (proj1 (Forall_forall _ _) Hnone), unpopulated_not_populated in Hin. done. }
  destruct Hrun as (before & cls & files & after & bgimg & fn & Hcs & Hbefore & Hpop
                    & Hbg & Hfn & Hev & _).
  eexists. split; [exact Hev|]. split.
  { intros Hnone. exfalso. rewrite Hcs in Hnone.
    apply Forall_app in Hnone as [_ Hnone]. by apply Forall_cons_1 in Hnone as [Hnone _]. }
  intros Hsome. unfold class_background in Hbg.
  destruct (Hinst Hsome) as [inst Einst]. rewrite Einst in Hbg. simpl in Hbg.
  exists fn, bgimg, (class_args self loc SED_file bg files), inst.
  split; [done|]. split; [done|]. split.
  - rewrite !filter_cons. simpl. by rewrite later_finalizes_no_write.
  - by apply make_background_Ok.
Qed.

End BackgroundFile.

Section BackgroundFileInCreate.

Context {collab : Collaborators}.

(** C5, as the code has it: a class is dispersed when its first seed file,
    [seed_files[0]], is not [None]. A run of [create] in which a class is so
    writes the background image file once, right after the [finalize] call
    of the first such class and before any other call, for NIRCam (the image
    dispersed from the background spectrum) as for the other instruments
    (the rescaled reference image), with one image extension named
    ['BACKGRND'] in ['e/s']; a run in which no class is so does not write
    it. The only other file written is the dispersed seed image, at the end
    and when it is asked for. *)
Theorem background_image_file_written (self : WFSSSim) (w w' : world)
    (obs : Observation) :
  create self w = (w', Ok obs) →
  ∃ s c SED_file bg new_events saved,
    make_seeds self w = (w, Ok s) ∧ cat s = Some c ∧
    continuum_seds self s = Ok SED_file ∧ resolve_background self = Ok bg ∧
    events w' = (events w ++ new_events)%list ∧ seed_write self saved ∧
    let loc := config_path self in
    let dispersed (seed_files : list (option string)) : Prop :=
      ∃ f, seed_files !! 0 = Some (Some f) in
    (Forall (λ cs, ¬ dispersed cs.2) (classes s) → new_events = saved) ∧
    (Exists (λ cs, dispersed cs.2) (classes s) →
     ∃ before cls files after fn background_image inst,
       classes s = (before ++ (cls, files) :: after)%list ∧
       Forall (λ cs, ¬ dispersed cs.2) before ∧ dispersed files ∧
       background_image_filename (info self) = Some fn ∧
       instrument (info self) = Some inst ∧
       let g := class_args self loc SED_file bg files in
       let written :=
         EvWriteFits fn
           (mkHDUList [] [mkImageHDU background_image
                            [("EXTNAME", "BACKGRND"); ("UNITS", "e/s")]]) in
       new_events =
         (EvFinalize cls g (Some background_image) :: written ::
          ((λ cs, EvFinalize cs.1 (class_args self loc SED_file bg cs.2) None)
           <$> filter (λ cs, dispersed cs.2) after) ++ saved)%list ∧
       filter is_fits_write new_events = written :: saved ∧
       if String.eqb inst "nircam"
       then ∃ sp, back_spectrum bg = Some sp ∧
                  background_image = disperse_background_1D g sp
       else ∃ bf sf, background_file bg = Some bf ∧ scaling_factor bg = Some sf ∧
                     background_image =
                       rescale_background (fits_getdata (os_path_join loc bf)) sf).
Proof.
  intros Hrun.
  apply create_runs in Hrun as (s & c & sed & bg & w1 & composite & saved & Hseeds & Hcat
                                & Hsed & Hbg & Hloop & Hcomp & Hev & Hsaved).
  pose proof (seed_write_filters _ _ Hsaved) as (_ & _ & Hs3).
  assert (Hinst : Exists (λ cs, populated cs.2) (classes s) →
                  is_Some (instrument (info self))).
  { intros Hsome. unfold disperse_classes in Hloop.
    apply io_bind_Ok in Hloop as (st & w2 & Hfor & _).
    by eapply loop_reads_instrument. }
  apply disperse_classes_Ok in Hloop. cbn zeta in Hloop.
  destruct Hloop as [(Hnone & _ & ->)|Hloop].
  - exists s, c, sed, bg, saved, saved. do 5 (split; [done|]). split; [done|].
    intros loc dispersed. split; [done|].
    intros Hsome. exfalso. apply Exists_exists in Hsome as (cs & Hin & Hpop).
    apply (proj1 (Forall_forall _ _) Hnone), unpopulated_not_populated in Hin. done.
  - destruct Hloop as (before & cls & files & after & bgimg & fn & Hcs & Hbefore & Hpop
                       & Hbgimg & Hfn & Hev1 & _).
    eexists s, c, sed, bg, _, saved. do 4 (split; [done|]).
    split; [by rewrite Hev, Hev1, <- app_assoc|]. split; [done|].
    intros loc dispersed. split.
    { intros Hnone. exfalso. rewrite Hcs in Hnone.
      apply Forall_app in Hnone as [_ Hnone]. by apply Forall_cons_1 in Hnone as [Hnone _]. }
    intros Hsome. destruct (Hinst Hsome) as [inst Einst].
    exists before, cls, files, after, fn, bgimg, inst.
    split; [done|]. split.
    { eapply Forall_impl; [exact Hbefore|]. apply unpopulated_not_populated. }
    split; [done|]. split; [done|]. split; [done|]. intros g written.
    split; [done|]. split.
    + simpl. rewrite !filter_cons. simpl.
      by rewrite filter_app, later_finalizes_no_write, Hs3.
    + unfold class_background in Hbgimg. rewrite Einst in Hbgimg. simpl in Hbgimg.
      by apply make_background_Ok.
Qed.

End BackgroundFileInCreate.

Lemma background_image_file_written_witness :
  ∃ w' obs cls g fn background_image rest saved,
    create (collab := Bench.collaborators) Bench.sim Bench.disk_after_init = (w', Ok obs) ∧
    events w' =
      (events Bench.disk_after_init ++
       EvFinalize cls g (Some background_image) ::
       EvWriteFits fn
         (mkHDUList [] [mkImageHDU background_image
                          [("EXTNAME", "BACKGRND"); ("UNITS", "e/s")]]) :: rest)%list ∧
    filter is_fits_write rest = saved ∧ seed_write Bench.sim saved.
Proof.
  destruct bench_create_runs as (w' & obs & Hrun).
  destruct (background_image_file_written _ _ _ _ Hrun)
    as (s & c & sed & bg & evs & saved & Hseeds & _ & _ & _ & Hev & Hsaved & _ & Hsome).
  vm_compute in Hseeds. injection Hseeds as <-.
  destruct Hsome as (before & cls & files & after & fn & bgimg & inst & _ & _ & _ & _ & _
                     & Hnew & Hw & _).
  { apply Exists_cons_hd. by exists "ptsrc_seed.fits". }
  eexists w', obs, cls, _, fn, bgimg, _, saved. split; [exact Hrun|].
  rewrite Hev, Hnew. split; [reflexivity|].
  rewrite Hnew in Hw. rewrite !filter_cons in Hw. simpl in Hw.
  injection Hw as Hw. by split.
Defined.

(** C5, as stated, fails for NIRCam: in a run on the spectrum-based,
    epoch-derived branch the background image file is written all the
    same. *)
Lemma background_file_written_for_nircam :
  ∃ w' obs back_spectrum background_image,
    simSignals_use_dateobs_for_background Bench.nircam_wfss = true ∧
    resolve_background (collab := Bench.collaborators) Bench.nircam_sim
      = Ok (mkBackground (Some "modA_R") (Some back_spectrum) None None) ∧
    create (collab := Bench.collaborators) Bench.nircam_sim Bench.disk = (w', Ok obs) ∧
    EvWriteFits "/out/obs_background_image.fits"
      (mkHDUList [] [mkImageHDU background_image
                       [("EXTNAME", "BACKGRND"); ("UNITS", "e/s")]])
    ∈ events w'.
Proof.
  eexists _, _, _, (Bench.flat 6 3).
  split; [reflexivity|]. split; [vm_compute; reflexivity|].
  split; [vm_compute; reflexivity|]. by_compute.
Qed.

(** ** Resolution of the background level *)

(** The attributes [resolve_background] reads are set, as they are on an
    object the constructor has returned. *)
Definition ready (self : WFSSSim) (inst : string) (p : Params) : Prop :=
  instrument (info self) = Some inst ∧ params (info self) = Some p ∧
  is_Some (module (info self)) ∧ is_Some (detector (info self)) ∧
  is_Some (dispersion_direction (info self)) ∧ is_Some (crossing_filter (info self)).

Definition tier_name (s : string) : Prop := lower s ∈ ["low"; "medium"; "high"].

Section BackgroundLevel.

Context {collab : Collaborators}.

(** C6, as the code has it. For NIRCam with [use_dateobs_for_background]
    false, a string that is not (in any letter case) ['low'], ['medium'] or
    ['high'] raises a [ValueError], as does any value that is not a string,
    numbers included, and a tier name passes. For NIRCam with
    [use_dateobs_for_background] true the level is not looked at and the
    resolution passes. For NIRISS a string that is not a tier name raises a
    [ValueError], and a tier name or a real number passes, the number giving
    the scaling factor [rate * gain * throughput factor]. *)
Theorem background_level_checked (self : WFSSSim) (inst : string) (p : Params) :
  ready self inst p →
  let rate := simSignals_bkgdrate p in
  let dateobs := simSignals_use_dateobs_for_background p in
  (inst = "nircam" → dateobs = false →
   (∀ s, rate = PyStr s → ¬ tier_name s →
         ∃ msg, resolve_background self = Raise (ValueError msg)) ∧
   ((∀ s, rate ≠ PyStr s) →
         ∃ msg, resolve_background self = Raise (ValueError msg)) ∧
   (∀ s, rate = PyStr s → tier_name s → is_Ok (resolve_background self))) ∧
  (inst = "nircam" → dateobs = true → is_Ok (resolve_background self)) ∧
  (inst = "niriss" →
   (∀ s, rate = PyStr s → ¬ tier_name s →
         ∃ msg, resolve_background self = Raise (ValueError msg)) ∧
   (∀ s, rate = PyStr s → tier_name s → is_Ok (resolve_background self)) ∧
   (∀ x, rate = PyNum x →
         ∃ b, resolve_background self = Ok b ∧
              scaling_factor b =
                Some (x * MEAN_GAIN_niriss * NIRISS_GRISM_THROUGHPUT_FACTOR)%Qc)).
Proof.
  intros (Hinst & Hp & [m Hm] & [d Hd] & [dd Hdd] & [cf Hcf]) rate dateobs.
  subst rate dateobs.
  unfold resolve_background, tier_name. rewrite Hinst, Hp, Hm, Hd, Hdd, Hcf. simpl.
  split; [|split].
  - intros -> Hdate. simpl. rewrite Hdate. split; [|split].
    + intros s -> Hs. unfold is_tier. rewrite bool_decide_false by done. by eexists.
    + intros Hs. destruct (simSignals_bkgdrate p) as [s| |]; [by destruct (Hs s)| |];
        by eexists.
    + intros s -> Hs. unfold is_tier. rewrite bool_decide_true by done. by eexists.
  - intros -> Hdate. simpl. rewrite Hdate. by eexists.
  - intros ->. simpl. split; [|split].
    + intros s -> Hs. unfold is_tier. rewrite bool_decide_false by done. by eexists.
    + intros s -> Hs. unfold is_tier. rewrite bool_decide_true by done. by eexists.
    + intros x ->. by eexists.
Qed.

End BackgroundLevel.

(** C6, as stated, fails for NIRCam when the background is derived from the
    observation date: a level that is no tier name passes the resolution. *)
Lemma unrecognized_level_passes_with_dateobs :
  ready Bench.nircam_sim "nircam" Bench.nircam_wfss ∧
  simSignals_bkgdrate Bench.nircam_wfss = PyStr "nonsense" ∧
  ¬ tier_name "nonsense" ∧
  is_Ok (resolve_background (collab := Bench.collaborators) Bench.nircam_sim).
Proof.
  split; [by repeat split; eexists|]. split; [done|]. split; [by_compute|].
  eexists. vm_compute. reflexivity.
Qed.

Lemma background_level_checked_witness :
  ready Bench.sim "niriss" Bench.niriss_wfss ∧
  is_Ok (resolve_background (collab := Bench.collaborators) Bench.sim).
Proof.
  assert (Hready : ready Bench.sim "niriss" Bench.niriss_wfss)
    by (by repeat split; eexists).
  split; [exact Hready|].
  destruct (background_level_checked (collab := Bench.collaborators) _ _ _ Hready)
    as (_ & _ & Hniriss).
  destruct (Hniriss eq_refl) as (_ & Htier & _).
  apply (Htier "medium"); [reflexivity | by_compute].
Defined.

Section UnassignedScalingFactor.

Context {collab : Collaborators}.

(** A NIRISS level that is neither a string nor a real number: neither
    test holds, [scaling_factor] stays unassigned and the resolution
    returns all the same; the first populated class then fails on the
    unassigned name. *)
Lemma niriss_level_not_real (self : WFSSSim) (p : Params) :
  ready self "niriss" p → simSignals_bkgdrate p = PyNotReal →
  ∃ b, resolve_background self = Ok b ∧ scaling_factor b = None ∧
       ∀ loc g, make_background "niriss" loc b g
                = Raise (UnboundLocalError "scaling_factor").
Proof.
  intros (Hinst & Hp & [m Hm] & [d Hd] & [dd Hdd] & [cf Hcf]) Hrate.
  unfold resolve_background. rewrite Hinst, Hp, Hdd, Hcf. simpl. rewrite Hrate.
  eexists. split; [done|]. split; [done|]. done.
Qed.

End UnassignedScalingFactor.

(** ** The constructor: the parameter files *)

Definition mode_of (p : Params) : string := lower (Inst_mode p).

(** [enumerate(l)], counting from [k] *)
Definition enumerate_from {A} (k : nat) (l : list A) : list (nat * A) :=
  imap (λ i x, (k + i, x)) l.

Lemma enumerate_from_0 {A} (l : list A) : enumerate l = enumerate_from 0 l.
Proof. done. Qed.

Lemma enumerate_from_cons {A} k (x : A) l :
  enumerate_from k (x :: l) = (k, x) :: enumerate_from (S k) l.
Proof.
  unfold enumerate_from. simpl. rewrite Nat.add_0_r. f_equal.
  apply imap_ext. intros i y _. simpl. f_equal. lia.
Qed.

Lemma enumerate_from_app {A} k (l1 l2 : list A) :
  enumerate_from k (l1 ++ l2)%list
  = (enumerate_from k l1 ++ enumerate_from (k + length l1) l2)%list.
Proof.
  unfold enumerate_from. rewrite imap_app. f_equal.
  apply imap_ext. intros i y _. simpl. f_equal. lia.
Qed.

Section FindParamInfo.

Lemma first_file_info_Ok p f f' :
  first_file_info p f = Ok f' →
  is_Some (instrument f') ∧ wfss_yaml f' = wfss_yaml f ∧ params f' = params f.
Proof.
  unfold first_file_info.
  destruct (String.eqb _ "niriss"); [intros [= <-]; simpl; eauto|].
  destruct (String.eqb _ "nircam"); [|intros [= <-]; simpl; eauto].
  destruct (str_index _ 3); simpl; [|done]. intros [= <-]; simpl; eauto.
Qed.

Lemma wfss_file_info_Ok p f f' :
  wfss_file_info p f = Ok f' →
  instrument f' = instrument f ∧ wfss_yaml f' = wfss_yaml f ∧ params f' = params f.
Proof.
  unfold wfss_file_info. simpl.
  destruct (instrument f) as [inst|] eqn:E; simpl; [|done].
  destruct (String.eqb inst "niriss").
  { destruct (str_last _); simpl; [|done]. intros [= <-]. by rewrite <- E. }
  destruct (String.eqb inst "nircam"); [|intros [= <-]; by rewrite <- E].
  destruct (str_last _); simpl; [|done]. intros [= <-]. by rewrite <- E.
Qed.

(** The attributes once the [if i == 0] block has run, or been skipped. *)
Definition after_first_block (k : nat) (p : Params) (f : ParamInfo) : result ParamInfo :=
  let f := add_catalogs (filter (λ e, lower e ≠ "none") (simSignals_catalogs p)) f in
  if bool_decide (k = 0) then first_file_info p f else Ok f.

Lemma after_first_block_Ok k p f f' :
  after_first_block k p f = Ok f' →
  (k = 0 → is_Some (instrument f')) ∧ (k ≠ 0 → instrument f' = instrument f) ∧
  wfss_yaml f' = wfss_yaml f ∧ params f' = params f.
Proof.
  unfold after_first_block. case_bool_decide as Hk.
  - intros Hf. apply first_file_info_Ok in Hf as (? & ? & ?). done.
  - by intros [= <-].
Qed.

(** One round of the loop, as a function of the document it loads. *)
Lemma find_param_step_unfold st k q w :
  find_param_step st (k, q) w =
  match yaml_files w !! q with
  | None => (w, Raise (FileNotFoundError q))
  | Some p =>
      match after_first_block k p (found st) with
      | Raise e => (w, Raise e)
      | Ok f =>
          if String.eqb (mode_of p) "wfss" then
            if bool_decide (S (wfss_files_found st) = 2) then (w, Raise two_wfss_error)
            else match wfss_file_info p (set_wfss q p f) with
                 | Raise e => (w, Raise e)
                 | Ok f' => (w, Ok (mkFind f' (q :: yamls_to_disperse st)
                                      (S (wfss_files_found st)), true))
                 end
          else if bool_decide (mode_of p ∈ ["imaging"; "pom"]) then
            (write_yaml (modified_file q) (update_to_wfss_mode p) w,
             Ok (mkFind f (yamls_to_disperse st ++ [modified_file q])
                   (wfss_files_found st), true))
          else (w, Ok (mkFind f (yamls_to_disperse st) (wfss_files_found st), true))
      end
  end.
Proof.
  unfold find_param_step, after_first_block, load_yaml, mbind, io_bind, mode_of.
  destruct (yaml_files w !! q) as [p|]; [|done].
  case_bool_decide as Hk; simpl.
  - unfold lift. destruct (first_file_info p _) as [f|e]; [|done].
    destruct (String.eqb _ "wfss"); [|by case_bool_decide].
    case_bool_decide; [done|]. by destruct (wfss_file_info p _).
  - unfold mret, io_ret.
    destruct (String.eqb _ "wfss"); [|by case_bool_decide].
    case_bool_decide; [done|]. unfold lift. by destruct (wfss_file_info p _).
Qed.

(** Once a wfss mode file has been found, it heads the list of files to
    disperse, and [self.wfss_yaml] and [self.params] are its name and its
    contents. *)
Definition head_is_wfss (all : list string) (st : find_state) : Prop :=
  wfss_files_found st = 0 ∨
  ∃ y p rest, yamls_to_disperse st = y :: rest ∧
    wfss_yaml (found st) = Some y ∧ params (found st) = Some p ∧
    mode_of p = "wfss" ∧ y ∈ all.

Lemma find_param_step_Ok all st k q w w' st' b :
  q ∈ all → head_is_wfss all st →
  find_param_step st (k, q) w = (w', Ok (st', b)) →
  b = true ∧ head_is_wfss all st' ∧
  length (yamls_to_disperse st') ≤ S (length (yamls_to_disperse st)).
Proof.
  intros Hq Hinv. rewrite find_param_step_unfold.
  destruct (yaml_files w !! q) as [p|]; [|done].
  destruct (after_first_block k p (found st)) as [f|] eqn:Ef; [|done].
  apply after_first_block_Ok in Ef as (_ & _ & Hy & Hp).
  destruct (String.eqb (mode_of p) "wfss") eqn:Emode.
  - apply String.eqb_eq in Emode. case_bool_decide; [done|].
    destruct (wfss_file_info p _) as [f'|] eqn:Ef'; [|done].
    apply wfss_file_info_Ok in Ef' as (_ & Hy' & Hp').
    intros [= <- <- <-]. split; [done|]. simpl. split; [|lia].
    right. exists q, p, (yamls_to_disperse st). simpl. by rewrite Hy', Hp'.
  - case_bool_decide.
    + intros [= <- <- <-]. split; [done|]. simpl. rewrite length_app. simpl.
      split; [|lia]. destruct Hinv as [H0|(y & p0 & rest & Hl & Hwy & Hwp & Hm & Hin)].
      * by left.
      * right. exists y, p0, (rest ++ [modified_file q])%list. simpl.
        rewrite Hl, Hy, Hp. done.
    + intros [= <- <- <-]. split; [done|]. simpl. split; [|lia].
      destruct Hinv as [H0|(y & p0 & rest & Hl & Hwy & Hwp & Hm & Hin)].
      * by left.
      * right. exists y, p0, rest. simpl. by rewrite Hy, Hp.
Qed.

Lemma find_param_loop_Ok all l : ∀ k st w w' st',
  (∀ q, q ∈ l → q ∈ all) → head_is_wfss all st →
  for_each find_param_step st (enumerate_from k l) w = (w', Ok st') →
  head_is_wfss all st' ∧
  length (yamls_to_disperse st') ≤ length (yamls_to_disperse st) + length l.
Proof.
  induction l as [|q l IH]; intros k st w w' st' Hall Hinv Hrun.
  - apply io_ret_Ok in Hrun as [-> ->]. split; [done|lia].
  - rewrite enumerate_from_cons in Hrun.
    apply for_each_cons_Ok in Hrun as (s1 & b & w1 & Hstep & Hrest).
    apply (find_param_step_Ok all) in Hstep as (-> & Hinv1 & Hlen);
      [|apply Hall; by left|done].
    apply IH in Hrest as [Hinv' Hlen']; [|intros; apply Hall; by right|done].
    split; [done|]. simpl. lia.
Qed.

(** What a successful [find_param_info] returns. *)
Lemma find_param_info_Ok pfiles w w' yamls f :
  find_param_info pfiles w = (w', Ok (yamls, f)) →
  ∃ y p rest, yamls = y :: rest ∧ wfss_yaml f = Some y ∧ params f = Some p ∧
    mode_of p = "wfss" ∧ y ∈ pfiles ∧ length yamls ≤ length pfiles.
Proof.
  unfold find_param_info. intros Hrun.
  apply io_bind_Ok in Hrun as (st & w1 & Hloop & Hrun).
  rewrite enumerate_from_0 in Hloop.
  apply (find_param_loop_Ok pfiles) in Hloop as [Hinv Hlen]; [|done|by left].
  case_bool_decide as Hfound; [done|].
  apply io_ret_Ok in Hrun as [Heq ->]. injection Heq as -> ->.
  destruct Hinv as [H0|(y & p & rest & Hl & Hwy & Hwp & Hm & Hin)]; [done|].
  exists y, p, rest. simpl in Hlen. done.
Qed.

Lemma check_inputs_Ok f dark w w' f' :
  check_inputs f dark w = (w', Ok f') →
  w' = w ∧ wfss_yaml f' = wfss_yaml f ∧ params f' = params f.
Proof.
  unfold check_inputs. intros [= <- Hr]. split; [done|].
  apply bind_Ok_inv in Hr as (inst & _ & Hr).
  apply bind_Ok_inv in Hr as (u1 & _ & Hr).
  apply bind_Ok_inv in Hr as (f1 & Hf1 & Hr).
  apply bind_Ok_inv in Hr as (dd & _ & Hr).
  apply bind_Ok_inv in Hr as (u2 & _ & Hr).
  apply bind_Ok_inv in Hr as (u3 & _ & Hr).
  assert (f' = f1) as -> by congruence. clear Hr.
  destruct (String.eqb inst "nircam").
  - apply bind_Ok_inv in Hf1 as (m & _ & Hf1).
    apply bind_Ok_inv in Hf1 as (u4 & _ & Hf1).
    apply bind_Ok_inv in Hf1 as (cf & _ & Hf1).
    apply bind_Ok_inv in Hf1 as (u5 & _ & Hf1).
    assert (f1 = set_module (upper m) f) as -> by congruence. done.
  - destruct (String.eqb inst "niriss").
    + apply bind_Ok_inv in Hf1 as (cf & _ & Hf1).
      apply bind_Ok_inv in Hf1 as (u4 & _ & Hf1).
      by assert (f1 = f) as -> by congruence.
    + by assert (f1 = f) as -> by congruence.
Qed.

(** What a successful constructor has done. *)
Lemma init_Ok pf ins ccs w w' self :
  init pf ins ccs w = (w', Ok self) →
  ¬ (1 < length (supplied pf) ∧ is_Some (in_SED_file ins)) ∧
  ∃ f0, find_param_info (supplied pf) w = (w', Ok (paramfiles self, f0)) ∧
    inputs self = ins ∧
    create_continuum_seds self =
      decide_continuum_seds (paramfiles self) (in_SED_file ins) (SED_dict ins) ccs ∧
    wfss_yaml (info self) = wfss_yaml f0 ∧ params (info self) = params f0.
Proof.
  unfold init. intros Hrun.
  apply io_bind_Ok in Hrun as (w0 & w1 & Hget & Hrun).
  unfold get_world in Hget. injection Hget as <- <-.
  destruct (environ w !! "MIRAGE_DATA") as [datadir|]; [|done].
  apply io_bind_Ok in Hrun as (u & w1 & Hchk & Hrun).
  apply lift_Ok in Hchk as [Hchk ->].
  apply io_bind_Ok in Hrun as ([yamls f0] & w1 & Hfind & Hrun).
  apply io_bind_Ok in Hrun as (f & w2 & Hci & Hrun).
  apply check_inputs_Ok in Hci as (-> & Hy & Hp).
  apply io_ret_Ok in Hrun as [-> ->]. simpl. split.
  - unfold param_checks in Hchk. intros [Hlen Hsed].
    by rewrite !bool_decide_true in Hchk.
  - by exists f0.
Qed.

End FindParamInfo.

(** ** The attributes of a constructed object *)

(** The module and the detector are set along with a known instrument. *)
Definition module_set (f : ParamInfo) : Prop :=
  ∀ inst, instrument f = Some inst → inst = "nircam" ∨ inst = "niriss" →
    is_Some (module f) ∧ is_Some (detector f).

Lemma first_file_info_module p f f' :
  first_file_info p f = Ok f' → module_set f'.
Proof.
  unfold first_file_info, module_set.
  destruct (String.eqb _ "niriss") eqn:E1; [intros [= <-]; simpl; eauto|].
  destruct (String.eqb _ "nircam") eqn:E2.
  - destruct (str_index _ 3); simpl; [|done]. intros [= <-]; simpl; eauto.
  - intros [= <-]. simpl. intros inst [= <-] [Hi|Hi]; rewrite Hi in *.
    + by rewrite String.eqb_refl in E2.
    + by rewrite String.eqb_refl in E1.
Qed.

Lemma wfss_file_info_module p f f' :
  wfss_file_info p f = Ok f' → module f' = module f ∧ detector f' = detector f.
Proof.
  unfold wfss_file_info. simpl.
  destruct (instrument f) as [inst|]; simpl; [|done].
  destruct (String.eqb inst "niriss").
  { destruct (str_last _); simpl; [|done]. by intros [= <-]. }
  destruct (String.eqb inst "nircam"); [|by intros [= <-]].
  destruct (str_last _); simpl; [|done]. by intros [= <-].
Qed.

Lemma after_first_block_module k p f f' :
  after_first_block k p f = Ok f' → module_set f → module_set f'.
Proof.
  unfold after_first_block. case_bool_decide.
  - intros Hf _. by apply first_file_info_module in Hf.
  - by intros [= <-].
Qed.

Lemma find_param_step_module st k q w w' st' b :
  find_param_step st (k, q) w = (w', Ok (st', b)) →
  module_set (found st) → module_set (found st').
Proof.
  rewrite find_param_step_unfold. intros Hrun Hset.
  destruct (yaml_files w !! q) as [p|]; [|done].
  destruct (after_first_block k p (found st)) as [f|] eqn:Ef; [|done].
  apply after_first_block_module in Ef; [|done].
  destruct (String.eqb (mode_of p) "wfss").
  - case_bool_decide; [done|].
    destruct (wfss_file_info p _) as [f'|] eqn:Ef'; [|done].
    pose proof (wfss_file_info_module _ _ _ Ef') as [Hm Hd].
    apply wfss_file_info_Ok in Ef' as (Hi & _).
    injection Hrun as <- <- <-. simpl. unfold module_set.
    rewrite Hi, Hm, Hd. exact Ef.
  - case_bool_decide; by injection Hrun as <- <- <-.
Qed.

Lemma find_param_loop_module l : ∀ k st w w' st',
  for_each find_param_step st (enumerate_from k l) w = (w', Ok st') →
  module_set (found st) → module_set (found st').
Proof.
  induction l as [|q l IH]; intros k st w w' st' Hrun Hset.
  - by apply io_ret_Ok in Hrun as [-> ->].
  - rewrite enumerate_from_cons in Hrun.
    apply for_each_cons_Ok in Hrun as (s1 & b & w1 & Hstep & Hrest).
    pose proof (find_param_step_module _ _ _ _ _ _ _ Hstep Hset) as Hset1.
    destruct b; [by eapply IH|]. by destruct Hrest as [-> _].
Qed.

Lemma find_param_info_module pfiles w w' yamls f :
  find_param_info pfiles w = (w', Ok (yamls, f)) → module_set f.
Proof.
  unfold find_param_info. intros Hrun.
  apply io_bind_Ok in Hrun as (st & w1 & Hloop & Hrun).
  rewrite enumerate_from_0 in Hloop.
  apply find_param_loop_module in Hloop; [|by intros inst [=]].
  case_bool_decide; [done|].
  apply io_ret_Ok in Hrun as [Heq ->]. by injection Heq as -> ->.
Qed.

Lemma check_member_Ok field value allowed u :
  check_member field value allowed = Ok u → value ∈ allowed.
Proof. unfold check_member. by case_bool_decide. Qed.

(** What [check_inputs] has found when it returns. *)
Lemma check_inputs_checked f dark w w' f' :
  check_inputs f dark w = (w', Ok f') →
  ∃ inst cf dd,
    instrument f' = Some inst ∧ inst ∈ ["nircam"; "niriss"] ∧ instrument f = Some inst ∧
    crossing_filter f' = Some cf ∧ dispersion_direction f' = Some dd ∧
    dd ∈ ["R"; "C"] ∧
    (inst = "nircam" → cf ∈ NIRCAM_GRISM_CROSSING_FILTERS ∧
                       ∃ m, module f' = Some (upper m) ∧ m ∈ ["A"; "B"]) ∧
    (inst = "niriss" → cf ∈ NIRISS_GRISM_CROSSING_FILTERS ∧ module f' = module f) ∧
    detector f' = detector f.
Proof.
  unfold check_inputs. intros [= <- Hr].
  apply bind_Ok_inv in Hr as (inst & Hinst & Hr).
  apply bind_Ok_inv in Hr as (u1 & Hin & Hr). apply check_member_Ok in Hin.
  apply bind_Ok_inv in Hr as (f1 & Hf1 & Hr).
  apply bind_Ok_inv in Hr as (dd & Hdd & Hr).
  apply bind_Ok_inv in Hr as (u2 & Hdir & Hr). apply check_member_Ok in Hdir.
  apply bind_Ok_inv in Hr as (u3 & _ & Hr).
  assert (f' = f1) as -> by congruence. clear Hr.
  destruct (instrument f) as [inst0|] eqn:Einst; [|done]. injection Hinst as ->.
  destruct (dispersion_direction f1) as [dd0|] eqn:Edd; [|done]. injection Hdd as ->.
  destruct (String.eqb inst "nircam") eqn:E1.
  - apply String.eqb_eq in E1 as ->.
    apply bind_Ok_inv in Hf1 as (m & Hm & Hf1).
    apply bind_Ok_inv in Hf1 as (u4 & Hmin & Hf1). apply check_member_Ok in Hmin.
    apply bind_Ok_inv in Hf1 as (cf & Hcf & Hf1).
    apply bind_Ok_inv in Hf1 as (u5 & Hcfin & Hf1). apply check_member_Ok in Hcfin.
    assert (f1 = set_module (upper m) f) as -> by congruence.
    simpl in *. destruct (crossing_filter f) as [cf0|]; [|done]. injection Hcf as ->.
    exists "nircam", cf, dd. repeat split; try done. by exists m.
  - destruct (String.eqb inst "niriss") eqn:E2.
    + apply String.eqb_eq in E2 as ->.
      apply bind_Ok_inv in Hf1 as (cf & Hcf & Hf1).
      apply bind_Ok_inv in Hf1 as (u4 & Hcfin & Hf1). apply check_member_Ok in Hcfin.
      assert (f1 = f) as -> by congruence.
      destruct (crossing_filter f) as [cf0|]; [|done]. injection Hcf as ->.
      exists "niriss", cf, dd. repeat split; done.
    + exfalso. apply elem_of_cons in Hin as [->|Hin]; [by rewrite String.eqb_refl in E1|].
      apply list_elem_of_singleton in Hin as ->. by rewrite String.eqb_refl in E2.
Qed.

Lemma init_checks pf ins ccs w w' self :
  init pf ins ccs w = (w', Ok self) →
  ∃ yamls f0 w1,
    find_param_info (supplied pf) w = (w1, Ok (yamls, f0)) ∧
    check_inputs f0 (override_dark ins) w1 = (w', Ok (info self)).
Proof.
  unfold init. intros Hrun.
  apply io_bind_Ok in Hrun as (w0 & w1 & Hget & Hrun).
  unfold get_world in Hget. injection Hget as <- <-.
  destruct (environ w !! "MIRAGE_DATA") as [datadir|]; [|done].
  apply io_bind_Ok in Hrun as (u & w1 & Hchk & Hrun).
  apply lift_Ok in Hchk as [Hchk ->].
  apply io_bind_Ok in Hrun as ([yamls f0] & w1 & Hfind & Hrun).
  apply io_bind_Ok in Hrun as (f & w2 & Hci & Hrun).
  apply io_ret_Ok in Hrun as [-> ->]. simpl. eauto.
Qed.

(** An object the constructor returns has the attributes [create] reads:
    the instrument is ['nircam'] or ['niriss'], and the module, the
    detector, the crossing filter, the dispersion direction and the
    contents of the wfss mode file are set. *)
Lemma init_ready pf ins ccs w w' self :
  init pf ins ccs w = (w', Ok self) →
  ∃ inst p, inst ∈ ["nircam"; "niriss"] ∧ ready self inst p ∧ mode_of p = "wfss".
Proof.
  intros Hinit.
  destruct (init_checks _ _ _ _ _ _ Hinit) as (yamls & f0 & w1 & Hfind & Hci).
  pose proof (find_param_info_module _ _ _ _ _ Hfind) as Hset.
  apply find_param_info_Ok in Hfind as (y & p & rest & _ & _ & Hp & Hmode & _).
  pose proof (check_inputs_Ok _ _ _ _ _ Hci) as (_ & _ & Hp').
  apply check_inputs_checked in Hci
    as (inst & cf & dd & Hinst & Hin & Hinst0 & Hcf & Hdd & _ & Hnircam & Hniriss & Hdet).
  exists inst, p. split; [done|]. split; [|done].
  assert (Hor : inst = "nircam" ∨ inst = "niriss").
  { apply elem_of_cons in Hin as [->|Hin]; [by left|].
    apply list_elem_of_singleton in Hin as ->. by right. }
  destruct (Hset inst Hinst0 Hor) as [Hm0 Hd0].
  unfold ready. rewrite Hinst, Hp', Hp, Hcf, Hdd, Hdet.
  repeat split; eauto.
  destruct Hor as [->| ->].
  - destruct (Hnircam eq_refl) as (_ & m & -> & _). eauto.
  - destruct (Hniriss eq_refl) as (_ & ->). done.
Qed.

(** The objects of the concrete setting are those the constructor builds. *)
Lemma bench_sim_constructed :
  init (FileList ["/in/img.yaml"; "/in/wfss.yaml"]) Bench.defaults false Bench.disk
  = (Bench.disk_after_init, Ok Bench.sim).
Proof. vm_compute. reflexivity. Qed.

Lemma bench_nircam_sim_constructed :
  init (OneFile "/in/nircam.yaml") Bench.defaults false Bench.disk
  = (Bench.disk, Ok Bench.nircam_sim).
Proof. vm_compute. reflexivity. Qed.

(** ** The constructor: [create_continuum_seds] *)

(** C9: on an object the constructor returns, [create_continuum_seds] is
    True when one parameter file was supplied, and when a file or a
    dictionary of spectra was supplied with several parameter files,
    whatever the caller asked for; it is False only when several parameter
    files and no spectra were supplied and the caller asked for False. The
    test the constructor makes is on the number of files to disperse that
    [find_param_info] returned: with more than one and no spectra, the
    caller's value is kept. *)
Theorem continuum_seds_forced (pf : paramfiles_arg) (ins : UserInputs) (ccs : bool)
    (w w' : world) (self : WFSSSim) :
  init pf ins ccs w = (w', Ok self) →
  (length (supplied pf) = 1 → create_continuum_seds self = true) ∧
  (1 < length (supplied pf) → is_Some (in_SED_file ins) ∨ is_Some (SED_dict ins) →
   create_continuum_seds self = true) ∧
  (create_continuum_seds self = false →
   ccs = false ∧ 1 < length (supplied pf) ∧
   in_SED_file ins = None ∧ SED_dict ins = None) ∧
  (1 < length (paramfiles self) → in_SED_file ins = None → SED_dict ins = None →
   create_continuum_seds self = ccs).
Proof.
  intros Hinit.
  apply init_Ok in Hinit as (Hchk & f0 & Hfind & _ & -> & _).
  apply find_param_info_Ok in Hfind as (y & p & rest & Hl & _ & _ & _ & _ & Hlen).
  rewrite Hl in *. simpl in Hlen. unfold decide_continuum_seds. simpl.
  split; [|split; [|split]].
  - intros H1. rewrite bool_decide_true by lia. done.
  - intros _ Hsed. case_bool_decide; [done|].
    destruct Hsed as [Hsed|Hsed].
    + by rewrite (bool_decide_true _ Hsed).
    + rewrite (bool_decide_true _ Hsed). by rewrite orb_true_r.
  - case_bool_decide as H1; [done|].
    destruct (in_SED_file ins) as [?|] eqn:E1.
    { rewrite bool_decide_true by eauto. done. }
    destruct (SED_dict ins) as [?|] eqn:E2.
    { rewrite (bool_decide_true (is_Some (Some _))) by eauto.
      by rewrite orb_true_r. }
    rewrite !bool_decide_false by (by intros [? ?]). simpl.
    intros ->. repeat split; try done. lia.
  - intros Hlen2 -> ->. rewrite bool_decide_false by lia.
    by rewrite !bool_decide_false by (by intros [? ?]).
Qed.

Lemma continuum_seds_forced_witness :
  ∃ w' self,
    init (OneFile "/in/wfss.yaml") Bench.defaults false Bench.disk = (w', Ok self) ∧
    create_continuum_seds self = true.
Proof.
  destruct (init (OneFile "/in/wfss.yaml") Bench.defaults false Bench.disk)
    as [w' [self|e]] eqn:Hinit; [|by vm_compute in Hinit].
  exists w', self. split; [done|].
  by destruct (continuum_seds_forced _ _ _ _ _ _ Hinit) as [Hone _]; apply Hone.
Defined.

(** The constructor counts the files [find_param_info] kept: with two files
    supplied, one of a mode that is skipped, and no spectra,
    [create_continuum_seds] is set to True whatever the caller asked for. *)
Lemma skipped_file_forces_continuum_seds :
  ∃ w' self,
    init (FileList ["/in/wfss.yaml"; "/in/tso.yaml"]) Bench.defaults false Bench.disk_with_tso
      = (w', Ok self) ∧
    paramfiles self = ["/in/wfss.yaml"] ∧ create_continuum_seds self = true.
Proof.
  destruct (init (FileList ["/in/wfss.yaml"; "/in/tso.yaml"]) Bench.defaults false
              Bench.disk_with_tso) as [w' [self|e]] eqn:Hinit; [|by vm_compute in Hinit].
  exists w', self. split; [done|].
  vm_compute in Hinit. by injection Hinit as <- <-.
Qed.

(** ** The wfss mode file comes first *)

Section WfssFirst.

Context {collab : Collaborators}.

Lemma make_seeds_single self y rest w :
  paramfiles self = y :: rest → create_continuum_seds self = true →
  let c := make_seed (offline (inputs self)) (yaml_files w) y in
  make_seeds self w =
    (w, Ok (mkSeeds [seed_file c] [ptsrc_seed_filename c] [galaxy_seed_filename c]
              [extended_seed_filename c] (Some c))).
Proof.
  intros Hl Hccs. unfold make_seeds. rewrite Hl. simpl.
  unfold seed_step, mbind, io_bind, get_world, mret, io_ret. simpl.
  by rewrite Hccs.
Qed.

(** C10: the list [find_param_info] returns starts with the wfss mode
    parameter file, which is [self.wfss_yaml], and whose contents are
    [self.params]; so on a constructed object with [create_continuum_seds]
    True, [create] makes one direct seed image, from that file, and takes
    the detector name, the segmentation map and the seed metadata from
    it. *)
Theorem wfss_file_first :
  (∀ pfiles w w' yamls f,
     find_param_info pfiles w = (w', Ok (yamls, f)) →
     ∃ y p rest, yamls = y :: rest ∧ wfss_yaml f = Some y ∧ params f = Some p ∧
                 mode_of p = "wfss" ∧ y ∈ pfiles) ∧
  (∀ pf ins ccs w w' self,
     init pf ins ccs w = (w', Ok self) →
     ∃ y p rest,
       paramfiles self = y :: rest ∧ wfss_yaml (info self) = Some y ∧
       params (info self) = Some p ∧ mode_of p = "wfss" ∧
       (create_continuum_seds self = true →
        ∀ w1, let c := make_seed (offline (inputs self)) (yaml_files w1) y in
          let s := mkSeeds [seed_file c] [ptsrc_seed_filename c] [galaxy_seed_filename c]
                     [extended_seed_filename c] (Some c) in
          make_seeds self w1 = (w1, Ok s) ∧
          (∀ m, module (info self) = Some m →
                continuum_seds self s =
                  Ok (Some (make_all_spectra (catalog_files (info self))
                              (SED_dict (inputs self)) (in_SED_file (inputs self))
                              (extrapolate_SED (inputs self)) (final_SED_file (inputs self))
                              (SED_normalizing_catalog_column (inputs self)) m
                              (before_first "_" (cat_array_name c))))) ∧
          (∀ w2 obs, create self w1 = (w2, Ok obs) →
                     segmap obs = seed_segmap c ∧
                     seedheader obs = <["units" := "ADU/sec"]> (seedinfo c) ∧
                     obs_paramfile obs = y))).
Proof.
  split.
  - intros pfiles w w' yamls f Hfind.
    apply find_param_info_Ok in Hfind as (y & p & rest & ? & ? & ? & ? & ? & _).
    by exists y, p, rest.
  - intros pf ins ccs w w' self Hinit.
    apply init_Ok in Hinit as (_ & f0 & Hfind & Hins & _ & Hy & Hp).
    apply find_param_info_Ok in Hfind as (y & p & rest & Hl & Hy0 & Hp0 & Hm & _ & _).
    exists y, p, rest. rewrite Hy, Hp. do 4 (split; [done|]).
    intros Hccs w1 c s.
    pose proof (make_seeds_single self y rest w1 Hl Hccs) as Hseeds.
    split; [exact Hseeds|]. split.
    + intros m Hmod. unfold continuum_seds. rewrite Hccs. simpl. by rewrite Hmod.
    + intros w2 obs Hrun.
      apply create_Ok in Hrun as (c' & composite & w3 & Hcomp & Hfin).
      apply composite_seed_runs in Hcomp as (s' & _ & _ & Hseeds' & Hcat & _).
      rewrite Hseeds in Hseeds'. injection Hseeds' as <-. simpl in Hcat.
      injection Hcat as <-.
      pose proof Hfin as Hfin'.
      apply finish_seed_Ok in Hfin as (cropped & gain & _ & _ & _ & Hhdr & Hseg & _).
      split; [done|]. split; [done|].
      unfold finish_seed in Hfin'.
      apply io_bind_Ok in Hfin' as (? & ? & _ & Hfin').
      apply io_bind_Ok in Hfin' as (? & ? & _ & Hfin').
      apply io_bind_Ok in Hfin' as (? & ? & _ & Hfin').
      apply io_bind_Ok in Hfin' as (? & ? & _ & Hfin').
      apply io_bind_Ok in Hfin' as (y' & ? & Hy' & Hfin').
      apply lift_Ok in Hy' as [Hy' _]. rewrite Hy, Hy0 in Hy'. injection Hy' as <-.
      by apply io_ret_Ok in Hfin' as [-> _].
Qed.

End WfssFirst.

Lemma wfss_file_first_witness :
  ∃ w' self rest,
    init (FileList ["/in/img.yaml"; "/in/wfss.yaml"]) Bench.defaults true Bench.disk
      = (w', Ok self) ∧
    paramfiles self = "/in/wfss.yaml" :: rest ∧
    wfss_yaml (info self) = Some "/in/wfss.yaml" ∧
    make_seeds (collab := Bench.collaborators) self w' =
      (w', Ok (mkSeeds ["seed.fits"] [Some "ptsrc_seed.fits"] [None]
                 [Some "extended_seed.fits"] (Some (Bench.the_cat "/in/wfss.yaml")))).
Proof.
  destruct (init (FileList ["/in/img.yaml"; "/in/wfss.yaml"]) Bench.defaults true Bench.disk)
    as [w' [self|e]] eqn:Hinit; [|by vm_compute in Hinit].
  destruct (wfss_file_first (collab := Bench.collaborators)) as [_ Hfirst].
  destruct (Hfirst _ _ _ _ _ _ Hinit) as (y & p & rest & Hl & Hy & Hp & Hm & Hcreate).
  assert (Hccs : create_continuum_seds self = true).
  { vm_compute in Hinit. by injection Hinit as <- <-. }
  assert (y = "/in/wfss.yaml") as ->.
  { vm_compute in Hinit. injection Hinit as <- <-. by injection Hl as <- <-. }
  exists w', self, rest. split; [done|]. split; [done|]. split; [done|].
  exact (proj1 (Hcreate Hccs w')).
Defined.

(** ** Paths *)

Module PathFacts.

#[local] Arguments String.append !_ _ / : simpl nomatch.

(** ['/' not in s] *)
Fixpoint no_sep (s : string) : bool :=
  match s with
  | EmptyString => true
  | String c s' => negb (Ascii.eqb c SEP) && no_sep s'
  end.

Lemma no_sep_app a b : no_sep (a +:+ b) = no_sep a && no_sep b.
Proof. induction a as [|c a IH]; simpl; [done|]. by rewrite IH, andb_assoc. Qed.

Lemma length_append a b : String.length (a +:+ b) = String.length a + String.length b.
Proof. induction a as [|c a IH]; simpl; [done|]. by rewrite IH. Qed.

Lemma rsplit_sep_app p : (rsplit_sep p).1 +:+ (rsplit_sep p).2 = p.
Proof.
  induction p as [|c p IH]; simpl; [done|].
  destruct (rsplit_sep p) as [[|c' h] t]; cbn in *.
  - subst p. by destruct (Ascii.eqb c SEP).
  - congruence.
Qed.

Lemma rsplit_sep_no_sep x : no_sep x = true → rsplit_sep x = (EmptyString, x).
Proof.
  induction x as [|c x IH]; simpl; [done|].
  intros [Hc Hx]%andb_true_iff. rewrite (IH Hx).
  by destruct (Ascii.eqb c SEP).
Qed.

Lemma rsplit_sep_tail p : no_sep (rsplit_sep p).2 = true.
Proof.
  induction p as [|c p IH]; simpl; [done|].
  pose proof (rsplit_sep_app p) as Happ.
  destruct (rsplit_sep p) as [[|c' h] t]; cbn in *; [|done].
  subst p. destruct (Ascii.eqb c SEP) eqn:E; cbn; [done|]. by rewrite E, IH.
Qed.

Lemma rsplit_sep_append a x :
  ends_with_sep a = true → no_sep x = true → rsplit_sep (a +:+ x) = (a, x).
Proof.
  intros Ha Hx. induction a as [|c a IH]; [done|].
  simpl. destruct a as [|c' a].
  - simpl in *. rewrite (rsplit_sep_no_sep x Hx). by rewrite Ha.
  - rewrite IH by done. done.
Qed.

Lemma ends_with_sep_snoc a : ends_with_sep (a +:+ "/") = true.
Proof.
  induction a as [|c a IH]; [done|].
  simpl. destruct a as [|c' a]; [done|]. exact IH.
Qed.

Lemma all_sep_snoc a : all_sep (a +:+ "/") = all_sep a.
Proof. induction a as [|c a IH]; simpl; [done|]. by rewrite IH. Qed.

Lemma rstrip_sep_snoc a : rstrip_sep (a +:+ "/") = rstrip_sep a.
Proof.
  induction a as [|c a IH]; [done|].
  simpl. rewrite all_sep_snoc, IH. done.
Qed.

Lemma all_sep_rstrip_sep s : all_sep (rstrip_sep s) = true → all_sep s = true.
Proof.
  induction s as [|c s IH]; [done|]. simpl.
  destruct (Ascii.eqb c SEP && all_sep s) eqn:E; [done|]. simpl.
  intros [Hc Hs]%andb_true_iff. rewrite Hc, (IH Hs) in E. done.
Qed.

Lemma rstrip_sep_idemp s : rstrip_sep (rstrip_sep s) = rstrip_sep s.
Proof.
  induction s as [|c s IH]; [done|]. simpl.
  destruct (Ascii.eqb c SEP && all_sep s) eqn:E; [done|]. simpl.
  destruct (Ascii.eqb c SEP && all_sep (rstrip_sep s)) eqn:E'.
  - apply andb_true_iff in E' as [Hc Hs]. apply all_sep_rstrip_sep in Hs.
    rewrite Hc, Hs in E. done.
  - by rewrite IH.
Qed.

Lemma ends_with_sep_rstrip_sep s : ends_with_sep (rstrip_sep s) = false.
Proof.
  induction s as [|c s IH]; [done|]. simpl.
  destruct (Ascii.eqb c SEP && all_sep s) eqn:E; [done|]. simpl.
  destruct (rstrip_sep s) as [|c' s'] eqn:Es; [|done].
  destruct (Ascii.eqb c SEP) eqn:Ec; [|done]. simpl in E.
  assert (all_sep s = true) as Hs; [|by rewrite Hs in E].
  apply all_sep_rstrip_sep. by rewrite Es.
Qed.

Lemma ends_with_sep_all_sep s : s ≠ EmptyString → all_sep s = true → ends_with_sep s = true.
Proof.
  induction s as [|c s IH]; [done|]. intros _. simpl.
  intros [Hc Hs]%andb_true_iff. destruct s as [|c' s]; [done|]. by apply IH.
Qed.

(** The directory part [os.path.split] returns is empty, or made of
    separators only, or does not end with a separator. *)
Lemma os_path_split_head p :
  let head := (os_path_split p).1 in
  head = EmptyString ∨ (head ≠ EmptyString ∧ all_sep head = true) ∨
  (head ≠ EmptyString ∧ all_sep head = false ∧ ends_with_sep head = false ∧
   rstrip_sep head = head).
Proof.
  unfold os_path_split. destruct (rsplit_sep p) as [h t]. simpl.
  destruct (String.eqb h "") eqn:Eh; simpl.
  { apply String.eqb_eq in Eh. by left. }
  apply String.eqb_neq in Eh.
  destruct (all_sep h) eqn:Ea; simpl; [by right; left|].
  right; right. split; [|split; [|split]].
  - intros Hr. pose proof (all_sep_rstrip_sep h) as H. rewrite Hr in H.
    by rewrite H in Ea.
  - destruct (all_sep (rstrip_sep h)) eqn:E; [|done].
    apply all_sep_rstrip_sep in E. congruence.
  - apply ends_with_sep_rstrip_sep.
  - apply rstrip_sep_idemp.
Qed.

Lemma os_path_split_tail p : no_sep (os_path_split p).2 = true.
Proof.
  unfold os_path_split. pose proof (rsplit_sep_tail p) as H.
  destruct (rsplit_sep p) as [h t]. simpl in *. by destruct (_ && _).
Qed.

(** [os.path.split(os.path.join(head, name)) = (head, name)] for a
    directory part that [os.path.split] returned and a name with no
    separator. *)
Lemma split_join p name :
  name ≠ EmptyString → no_sep name = true →
  os_path_split (os_path_join (os_path_split p).1 name) = ((os_path_split p).1, name).
Proof.
  intros Hne Hname.
  assert (String.prefix "/" name = false) as Hpre.
  { destruct name as [|c name]; [done|]. cbn [String.prefix].
    destruct (ascii_dec "/" c) as [<-|]; [|done]. by vm_compute in Hname. }
  unfold os_path_join. rewrite Hpre.
  destruct (os_path_split_head p) as [Hh|[[Hh Ha]|(Hh & Ha & He & Hr)]];
    set (head := (os_path_split p).1) in *.
  - rewrite Hh. simpl. unfold os_path_split.
    rewrite (rsplit_sep_no_sep name Hname). done.
  - rewrite (ends_with_sep_all_sep head Hh Ha), orb_true_r.
    unfold os_path_split.
    rewrite (rsplit_sep_append head name) by (by apply ends_with_sep_all_sep || done).
    rewrite Ha. by rewrite andb_false_r.
  - rewrite He, orb_false_r.
    rewrite (proj2 (String.eqb_neq head "") Hh).
    unfold os_path_split.
    replace (head +:+ "/" +:+ name) with ((head +:+ "/") +:+ name)
      by (clear; induction head as [|c h IH]; simpl; [done | by rewrite IH]).
    rewrite (rsplit_sep_append (head +:+ "/") name)
      by (by apply ends_with_sep_snoc || done).
    rewrite all_sep_snoc, Ha, rstrip_sep_snoc, Hr.
    destruct (String.eqb (head +:+ "/") "") eqn:E; [|done].
    apply String.eqb_eq in E. by destruct head.
Qed.

End PathFacts.

(** The rewritten copy of a parameter file is saved in the directory of
    the file, under the name of the file with [tmp_update_to_wfss_mode_] in
    front, and that is not the file itself. *)
Lemma modified_file_split q :
  os_path_split (modified_file q) =
  ((os_path_split q).1, "tmp_update_to_wfss_mode_" +:+ (os_path_split q).2).
Proof.
  unfold modified_file.
  pose proof (PathFacts.split_join q ("tmp_update_to_wfss_mode_" +:+ (os_path_split q).2))
    as H.
  destruct (os_path_split q) as [outdir basename] eqn:E. simpl in *.
  apply H; [done|].
  pose proof (PathFacts.os_path_split_tail q) as Ht. rewrite E in Ht. simpl in Ht.
  by rewrite PathFacts.no_sep_app, Ht.
Qed.

Lemma modified_file_fresh q : modified_file q ≠ q.
Proof.
  intros Heq. pose proof (modified_file_split q) as H. rewrite Heq in H.
  apply (f_equal snd) in H. simpl in H.
  apply (f_equal String.length) in H. rewrite PathFacts.length_append in H.
  assert (String.length "tmp_update_to_wfss_mode_" = 24) as Hlen by done.
  lia.
Qed.

(** ** The constructor: exactly one wfss mode file *)

Lemma find_param_step_continues st ip w w' st' b :
  find_param_step st ip w = (w', Ok (st', b)) → b = true.
Proof.
  destruct ip as [k q]. rewrite find_param_step_unfold.
  destruct (yaml_files w !! q) as [p|]; [|done].
  destruct (after_first_block k p (found st)) as [f|]; [|done].
  destruct (String.eqb (mode_of p) "wfss").
  - case_bool_decide; [done|]. destruct (wfss_file_info p _); [|done]. congruence.
  - case_bool_decide; congruence.
Qed.

Lemma for_each_app {A S} (body : S → A → io (S * bool)) l1 l2 : ∀ s w w1 s1,
  (∀ s x w w' s' b, body s x w = (w', Ok (s', b)) → b = true) →
  for_each body s l1 w = (w1, Ok s1) →
  for_each body s (l1 ++ l2) w = for_each body s1 l2 w1.
Proof.
  induction l1 as [|x l1 IH]; intros s w w1 s1 Hcont Hrun.
  - by apply io_ret_Ok in Hrun as [-> ->].
  - apply for_each_cons_Ok in Hrun as (s2 & b & w2 & Hstep & Hrest).
    pose proof (Hcont _ _ _ _ _ _ Hstep) as ->.
    simpl. rewrite (io_bind_run _ _ _ _ _ Hstep). by apply IH.
Qed.

Lemma for_each_cons_raise {A S} (body : S → A → io (S * bool)) s x l w w1 e :
  body s x w = (w1, Raise e) → for_each body s (x :: l) w = (w1, Raise e).
Proof. intros Hstep. simpl. by apply io_bind_raise. Qed.

Lemma for_each_cons_run {A S} (body : S → A → io (S * bool)) s x l w w1 s1 :
  body s x w = (w1, Ok (s1, true)) →
  for_each body s (x :: l) w = for_each body s1 l w1.
Proof. intros Hstep. simpl. by rewrite (io_bind_run _ _ _ _ _ Hstep). Qed.

Lemma find_param_loop_count l : ∀ k st w w' st',
  for_each find_param_step st (enumerate_from k l) w = (w', Ok st') →
  wfss_files_found st' ≤ wfss_files_found st + length l.
Proof.
  induction l as [|q l IH]; intros k st w w' st' Hrun.
  - apply io_ret_Ok in Hrun as [-> ->]. lia.
  - rewrite enumerate_from_cons in Hrun.
    apply for_each_cons_Ok in Hrun as (s1 & b & w1 & Hstep & Hrest).
    pose proof (find_param_step_continues _ _ _ _ _ _ Hstep) as ->.
    apply IH in Hrest. simpl.
    assert (wfss_files_found s1 ≤ S (wfss_files_found st)); [|lia].
    rewrite find_param_step_unfold in Hstep.
    destruct (yaml_files w !! q) as [p|]; [|done].
    destruct (after_first_block k p (found st)) as [f|]; [|done].
    destruct (String.eqb (mode_of p) "wfss").
    + case_bool_decide; [done|]. destruct (wfss_file_info p _); [|done].
      injection Hstep as _ <-. simpl. lia.
    + case_bool_decide; injection Hstep as _ <-; simpl; lia.
Qed.

(** The second wfss mode file stops the constructor where it is read. *)
Lemma second_wfss_file_raises pre q post w w1 st p :
  for_each find_param_step (mkFind no_info [] 0) (enumerate pre) w = (w1, Ok st) →
  wfss_files_found st = 1 →
  yaml_files w1 !! q = Some p → mode_of p = "wfss" →
  find_param_info (pre ++ q :: post) w = (w1, Raise two_wfss_error).
Proof.
  intros Hpre Hone Hq Hmode.
  assert (Hk : length pre ≠ 0).
  { rewrite enumerate_from_0 in Hpre. apply find_param_loop_count in Hpre.
    simpl in Hpre. lia. }
  unfold find_param_info.
  rewrite enumerate_from_0, enumerate_from_app, enumerate_from_cons in *.
  apply io_bind_raise.
  rewrite (for_each_app _ _ _ _ _ _ _ find_param_step_continues Hpre).
  apply for_each_cons_raise.
  rewrite find_param_step_unfold, Hq. unfold after_first_block.
  rewrite bool_decide_false by done.
  rewrite (proj2 (String.eqb_eq _ _) Hmode), Hone. done.
Qed.

(** A document on which the indexing made by [find_param_info] cannot
    fail: an aperture name of four characters at least, and filter and pupil
    names that are not empty. *)
Definition doc_ok (p : Params) : Prop :=
  4 ≤ String.length (Readout_array_name p) ∧
  Readout_filter p ≠ "" ∧ Readout_pupil p ≠ "".

(** The parameter files by the mode they declare on disk. *)
Definition wfss_file (fs : gmap string Params) (q : string) : bool :=
  match fs !! q with
  | Some p => String.eqb (mode_of p) "wfss"
  | None => false
  end.

Definition direct_file (fs : gmap string Params) (q : string) : bool :=
  match fs !! q with
  | Some p => bool_decide (mode_of p ∈ ["imaging"; "pom"])
  | None => false
  end.

(** A file that holds a copy rewritten for wfss mode. *)
Definition rewritten (w : world) (out : string) : Prop :=
  ∃ p, yaml_files w !! out = Some p ∧ Inst_mode p = "wfss" ∧
       Output_grism_source_image p = true.

Lemma get_Some s : ∀ i, i < String.length s → is_Some (String.get i s).
Proof.
  induction s as [|c s IH]; intros i Hi; simpl in *; [lia|].
  destruct i as [|i]; [by eexists|]. apply IH. lia.
Qed.

Lemma str_index_total s i : i < String.length s → ∃ c, str_index s i = Ok c.
Proof.
  intros Hi. unfold str_index. destruct (get_Some s i Hi) as [c ->]. by eexists.
Qed.

Lemma str_last_total s : s ≠ "" → ∃ c, str_last s = Ok c.
Proof.
  intros Hs. destruct s as [|c s]; [done|]. unfold str_last.
  apply str_index_total. simpl. lia.
Qed.

Lemma first_file_info_total p f :
  doc_ok p → ∃ f', first_file_info p f = Ok f'.
Proof.
  intros (Hlen & _ & _). unfold first_file_info.
  destruct (String.eqb _ "niriss"); [by eexists|].
  destruct (String.eqb _ "nircam"); [|by eexists].
  destruct (str_index_total (Readout_array_name p) 3) as [c ->]; [lia|]. by eexists.
Qed.

Lemma wfss_file_info_total p f :
  doc_ok p → is_Some (instrument f) → ∃ f', wfss_file_info p f = Ok f'.
Proof.
  intros (_ & Hfilter & Hpupil) [inst Hinst]. unfold wfss_file_info. simpl.
  rewrite Hinst. simpl.
  destruct (str_last_total _ Hfilter) as [c1 ->].
  destruct (str_last_total _ Hpupil) as [c2 ->]. simpl.
  destruct (String.eqb inst "niriss"); [by eexists|].
  destruct (String.eqb inst "nircam"); by eexists.
Qed.

Lemma after_first_block_total k p f :
  doc_ok p → (k = 0 ∨ is_Some (instrument f)) →
  ∃ f', after_first_block k p f = Ok f' ∧ is_Some (instrument f').
Proof.
  intros Hok Hk. unfold after_first_block. case_bool_decide as Hk0.
  - destruct (first_file_info_total p
                (add_catalogs (filter (λ e, lower e ≠ "none") (simSignals_catalogs p)) f) Hok)
      as [f' Hf']. exists f'. split; [done|].
    by apply first_file_info_Ok in Hf' as [? _].
  - eexists. split; [done|]. by destruct Hk.
Qed.

(** One round of the loop on a document that is in order. *)
Lemma find_param_step_run st k q w p :
  yaml_files w !! q = Some p → doc_ok p →
  (k = 0 ∨ is_Some (instrument (found st))) →
  ∃ f, is_Some (instrument f) ∧
    find_param_step st (k, q) w =
    if String.eqb (mode_of p) "wfss" then
      if decide (wfss_files_found st = 1) then (w, Raise two_wfss_error)
      else (w, Ok (mkFind f (q :: yamls_to_disperse st) (S (wfss_files_found st)), true))
    else if bool_decide (mode_of p ∈ ["imaging"; "pom"]) then
      (write_yaml (modified_file q) (update_to_wfss_mode p) w,
       Ok (mkFind f (yamls_to_disperse st ++ [modified_file q]) (wfss_files_found st), true))
    else (w, Ok (mkFind f (yamls_to_disperse st) (wfss_files_found st), true)).
Proof.
  intros Hq Hok Hk. rewrite find_param_step_unfold, Hq.
  destruct (after_first_block_total k p (found st) Hok Hk) as (f & -> & Hf).
  destruct (String.eqb (mode_of p) "wfss").
  - destruct (wfss_file_info_total p (set_wfss q p f) Hok Hf) as [f' Hf'].
    exists f'. rewrite Hf'. split.
    + apply wfss_file_info_Ok in Hf' as (-> & _). done.
    + destruct (decide (wfss_files_found st = 1)) as [->|Hne].
      * by rewrite bool_decide_true.
      * by rewrite bool_decide_false by lia.
  - by exists f.
Qed.

Section OneWfssFile.

(** The files on disk when the constructor starts, and the parameter files
    it is given: all of them there and in order, none of them bearing the
    name under which the rewritten copy of one of them is saved. *)
Variables (fs0 : gmap string Params) (all : list string).
Hypothesis Hload : ∀ q, q ∈ all → ∃ p, fs0 !! q = Some p ∧ doc_ok p.
Hypothesis Hclash : ∀ q q', q ∈ all → q' ∈ all → modified_file q ≠ q'.

Definition untouched (w : world) : Prop :=
  ∀ q, q ∈ all → yaml_files w !! q = fs0 !! q.

Lemma untouched_write w q p :
  q ∈ all → untouched w → untouched (write_yaml (modified_file q) p w).
Proof.
  intros Hq Hw q' Hq'. unfold write_yaml; simpl.
  rewrite lookup_insert_ne by (by apply Hclash). by apply Hw.
Qed.

Lemma rewritten_write w out q p :
  rewritten w out → rewritten (write_yaml q (update_to_wfss_mode p) w) out.
Proof.
  intros Hout. unfold rewritten, write_yaml; simpl.
  destruct (decide (q = out)) as [->|Hne].
  - rewrite lookup_insert_eq. by eexists.
  - by rewrite lookup_insert_ne.
Qed.

Lemma rewritten_write_eq w q p :
  rewritten (write_yaml q (update_to_wfss_mode p) w) q.
Proof. unfold rewritten, write_yaml; simpl. rewrite lookup_insert_eq. by eexists. Qed.

Lemma find_param_loop_run l : ∀ k st w written,
  (∀ q, q ∈ l → q ∈ all) → untouched w →
  (k = 0 ∨ is_Some (instrument (found st))) →
  wfss_files_found st ≤ 1 → Forall (rewritten w) written →
  let nw := length (filter (λ q, wfss_file fs0 q = true) l) in
  let copies := modified_file <$> filter (λ q, direct_file fs0 q = true) l in
  if decide (wfss_files_found st + nw ≤ 1) then
    ∃ w' st',
      for_each find_param_step st (enumerate_from k l) w = (w', Ok st') ∧
      untouched w' ∧ environ w' = environ w ∧
      wfss_files_found st' = wfss_files_found st + nw ∧
      yamls_to_disperse st' =
        (filter (λ q, wfss_file fs0 q = true) l ++ yamls_to_disperse st ++ copies)%list ∧
      Forall (rewritten w') (written ++ copies)
  else ∃ w', for_each find_param_step st (enumerate_from k l) w
             = (w', Raise two_wfss_error).
Proof.
  induction l as [|q l IH]; intros k st w written Hall Hw Hk Hcount Hwritten.
  { simpl. rewrite decide_True by lia. exists w, st.
    rewrite !app_nil_r, Nat.add_0_r. done. }
  assert (Hq : q ∈ all) by (apply Hall; by left).
  assert (Hl : ∀ q', q' ∈ l → q' ∈ all) by (intros; apply Hall; by right).
  destruct (Hload q Hq) as (p & Hp & Hok).
  assert (Hwq : yaml_files w !! q = Some p) by (by rewrite Hw).
  destruct (find_param_step_run st k q w p Hwq Hok Hk) as (f & Hf & Hstep).
  rewrite enumerate_from_cons, !filter_cons. cbn zeta.
  assert (Ewf : wfss_file fs0 q = String.eqb (mode_of p) "wfss")
    by (unfold wfss_file; by rewrite Hp).
  assert (Edf : direct_file fs0 q = bool_decide (mode_of p ∈ ["imaging"; "pom"]))
    by (unfold direct_file; by rewrite Hp).
  destruct (decide (wfss_file fs0 q = true)) as [Hwf|Hwf];
    destruct (decide (direct_file fs0 q = true)) as [Hdf|Hdf];
    rewrite Ewf in Hwf; rewrite Edf in Hdf; rewrite ?Hwf, ?Hdf in Hstep.
  - (* both: impossible *)
    apply String.eqb_eq in Hwf. rewrite Hwf in Hdf. by vm_compute in Hdf.
  - (* a wfss mode file *)
    destruct (decide (wfss_files_found st = 1)) as [Hone|Hzero].
    + rewrite decide_False by (simpl; lia).
      eexists. by apply for_each_cons_raise.
    + assert (wfss_files_found st = 0) as H0 by lia.
      rewrite (for_each_cons_run _ _ _ _ _ _ _ Hstep).
      specialize (IH (S k) (mkFind f (q :: yamls_to_disperse st) (S (wfss_files_found st)))
                    w written Hl Hw (or_intror Hf)).
      cbn [wfss_files_found yamls_to_disperse found] in IH.
      specialize (IH ltac:(lia) Hwritten). cbn zeta in IH. cbn [length].
      set (n := length (filter (λ q, wfss_file fs0 q = true) l)) in *.
      destruct (decide (n = 0)) as [Hn|Hn].
      * rewrite decide_True in IH by lia. rewrite decide_True by lia.
        destruct IH as (w' & st' & Hrun & Hw' & Henv & Hcnt & Hyamls & Hcopies).
        exists w', st'.
        split; [done|]. split; [done|]. split; [done|]. split; [lia|].
        split; [|done]. rewrite Hyamls.
        subst n. by destruct (filter (λ q, wfss_file fs0 q = true) l).
      * rewrite decide_False in IH by lia. rewrite decide_False by lia. done.
  - (* an imaging or pom mode file *)
    apply not_true_is_false in Hwf. rewrite Hwf in Hstep.
    rewrite (for_each_cons_run _ _ _ _ _ _ _ Hstep).
    specialize (IH (S k)
      (mkFind f (yamls_to_disperse st ++ [modified_file q]) (wfss_files_found st))
      (write_yaml (modified_file q) (update_to_wfss_mode p) w)
      (written ++ [modified_file q])%list Hl (untouched_write _ _ _ Hq Hw)
      (or_intror Hf) Hcount).
    cbn [wfss_files_found yamls_to_disperse found] in IH.
    assert (Hwr : Forall (rewritten (write_yaml (modified_file q) (update_to_wfss_mode p) w))
                    (written ++ [modified_file q])).
    { apply Forall_app. split.
      - eapply Forall_impl; [exact Hwritten|]. intros out. apply rewritten_write.
      - repeat constructor. apply rewritten_write_eq. }
    specialize (IH Hwr). cbn zeta in IH.
    destruct (decide (_ ≤ 1)); [|done].
    destruct IH as (w' & st' & Hrun & Hw' & Henv & Hcnt & Hyamls & Hcopies).
    exists w', st'.
    split; [done|]. split; [done|]. split; [done|]. split; [done|]. split.
    + rewrite Hyamls. rewrite fmap_cons. by rewrite <- !app_assoc.
    + rewrite fmap_cons. by rewrite <- app_assoc in Hcopies.
  - (* a file of another mode *)
    apply not_true_is_false in Hwf, Hdf. rewrite Hwf, Hdf in Hstep.
    rewrite (for_each_cons_run _ _ _ _ _ _ _ Hstep).
    by apply (IH (S k) (mkFind f (yamls_to_disperse st) (wfss_files_found st))
                w written Hl Hw (or_intror Hf) Hcount Hwritten).
Qed.

End OneWfssFile.

(** C7: exactly one of the parameter files must be in wfss mode.
    - The constructor raises the [ValueError] on the second wfss mode file
      at the point where it reads it: nothing is done after the files that
      come before it.
    - When the parameter files are all on disk and in order, and none bears
      the name given to the rewritten copy of one of them: with no wfss mode
      file [find_param_info] raises the [ValueError] that none was found,
      with two or more the [ValueError] that only one is allowed, and with
      exactly one it returns that file followed by the rewritten copies of
      the imaging and pom mode files, each of which is then on disk with
      mode ['wfss'] and [grism_source_image] True, the parameter files
      themselves being as they were.
    - The rewritten copy of a file is saved in the directory of the file,
      under its name with [tmp_update_to_wfss_mode_] in front, which is
      never the file itself.
    - One round of the loop on an imaging or pom mode document saves that
      document, with the mode and the flag changed and nothing else, under
      that name, appends the name to the list, and leaves the file it read
      as it was. *)
Theorem exactly_one_wfss_file :
  (∀ pre q post w w1 st p,
     for_each find_param_step (mkFind no_info [] 0) (enumerate pre) w = (w1, Ok st) →
     wfss_files_found st = 1 →
     yaml_files w1 !! q = Some p → mode_of p = "wfss" →
     find_param_info (pre ++ q :: post) w = (w1, Raise two_wfss_error)) ∧
  (∀ w pfiles,
     (∀ q, q ∈ pfiles → ∃ p, yaml_files w !! q = Some p ∧ doc_ok p) →
     (∀ q q', q ∈ pfiles → q' ∈ pfiles → modified_file q ≠ q') →
     let wfss := filter (λ q, wfss_file (yaml_files w) q = true) pfiles in
     let copies :=
       modified_file <$> filter (λ q, direct_file (yaml_files w) q = true) pfiles in
     (length wfss = 0 → ∃ w', find_param_info pfiles w = (w', Raise no_wfss_error)) ∧
     (2 ≤ length wfss → ∃ w', find_param_info pfiles w = (w', Raise two_wfss_error)) ∧
     (length wfss = 1 →
      ∃ w' y f, find_param_info pfiles w = (w', Ok (y :: copies, f)) ∧
                wfss = [y] ∧ Forall (rewritten w') copies ∧
                ∀ q, q ∈ pfiles → yaml_files w' !! q = yaml_files w !! q)) ∧
  (∀ q, os_path_split (modified_file q) =
          ((os_path_split q).1, "tmp_update_to_wfss_mode_" +:+ (os_path_split q).2) ∧
        modified_file q ≠ q) ∧
  (∀ st k q w p,
     yaml_files w !! q = Some p → doc_ok p →
     (k = 0 ∨ is_Some (instrument (found st))) →
     mode_of p ∈ ["imaging"; "pom"] →
     ∃ w' st', find_param_step st (k, q) w = (w', Ok (st', true)) ∧
       yamls_to_disperse st' = (yamls_to_disperse st ++ [modified_file q])%list ∧
       wfss_files_found st' = wfss_files_found st ∧
       yaml_files w' !! modified_file q = Some (update_to_wfss_mode p) ∧
       Inst_mode (update_to_wfss_mode p) = "wfss" ∧
       Output_grism_source_image (update_to_wfss_mode p) = true ∧
       yaml_files w' !! q = Some p).
Proof.
  split; [exact second_wfss_file_raises|]. split; [|split].
  - intros w pfiles Hload Hclash wfss copies.
    pose proof (find_param_loop_run (yaml_files w) pfiles Hload Hclash pfiles 0
                  (mkFind no_info [] 0) w [] (λ q Hq, Hq) (λ q Hq, eq_refl)
                  (or_introl eq_refl) (Nat.le_0_1) (Forall_nil_2 _)) as Hloop.
    cbn zeta in Hloop. cbn [wfss_files_found yamls_to_disperse] in Hloop.
    fold wfss copies in Hloop. rewrite Nat.add_0_l in Hloop.
    unfold find_param_info. rewrite enumerate_from_0.
    split; [|split]; intros Hn.
    + rewrite decide_True in Hloop by lia.
      destruct Hloop as (w' & st' & Hrun & _ & _ & Hcnt & _).
      exists w'. rewrite (io_bind_run _ _ _ _ _ Hrun).
      by rewrite bool_decide_true by lia.
    + rewrite decide_False in Hloop by lia. destruct Hloop as [w' Hrun].
      exists w'. by apply io_bind_raise.
    + rewrite decide_True in Hloop by lia.
      destruct Hloop as (w' & st' & Hrun & Hw' & _ & Hcnt & Hyamls & Hcopies).
      destruct wfss as [|y [|? ?]] eqn:Ewfss; try done.
      exists w', y, (found st'). rewrite (io_bind_run _ _ _ _ _ Hrun).
      rewrite bool_decide_false by lia. rewrite Hyamls. simpl.
      split; [done|]. split; [done|]. split; [done|]. exact Hw'.
  - intros q. split; [apply modified_file_split | apply modified_file_fresh].
  - intros st k q w p Hq Hok Hk Hmode.
    destruct (find_param_step_run st k q w p Hq Hok Hk) as (f & _ & Hstep).
    assert (String.eqb (mode_of p) "wfss" = false) as Hnot.
    { apply String.eqb_neq. intros Heq. rewrite Heq in Hmode.
      apply (bool_decide_pack _) in Hmode. by vm_compute in Hmode. }
    rewrite Hnot, bool_decide_true in Hstep by done.
    eexists _, _. split; [exact Hstep|]. simpl.
    split; [done|]. split; [done|]. split; [by rewrite lookup_insert_eq|].
    split; [done|]. split; [done|].
    rewrite lookup_insert_ne by apply modified_file_fresh. done.
Qed.

Lemma exactly_one_wfss_file_witness :
  ∃ w' f,
    find_param_info ["/in/img.yaml"; "/in/wfss.yaml"] Bench.disk
      = (w', Ok (["/in/wfss.yaml"; "/in/tmp_update_to_wfss_mode_img.yaml"], f)) ∧
    rewritten w' "/in/tmp_update_to_wfss_mode_img.yaml" ∧
    yaml_files w' !! "/in/img.yaml" = Some Bench.niriss_imaging.
Proof.
  destruct exactly_one_wfss_file as (_ & Hrun & _).
  destruct (Hrun Bench.disk ["/in/img.yaml"; "/in/wfss.yaml"]) as (_ & _ & Hone).
  - intros q Hq. apply list_elem_of_In in Hq. simpl in Hq.
    destruct Hq as [<-|[<-|[]]]; eexists; (split; [vm_compute; reflexivity|]);
      unfold doc_ok; simpl; (split; [lia|done]).
  - intros q q' Hq Hq'. apply list_elem_of_In in Hq, Hq'. simpl in Hq, Hq'.
    destruct Hq as [<-|[<-|[]]]; destruct Hq' as [<-|[<-|[]]]; by_compute.
  - destruct Hone as (w' & y & f & Hfind & Hy & Hcopies & Hsame); [by vm_compute|].
    exists w', f.
    assert (y = "/in/wfss.yaml") as -> by (vm_compute in Hy; congruence).
    split; [exact Hfind|]. split.
    + by apply Forall_cons_1 in Hcopies as [? _].
    + rewrite Hsame by (apply list_elem_of_In; simpl; tauto). by vm_compute.
Defined.

(** A pom mode document. *)
Definition niriss_pom : Params :=
  mkParams "NIRISS" "pom" "NIS_SUB" "CLEAR" "F200W" "pom.fits" "/out" "2022-01-01"
    false ["ptsrc.cat"] (PyStr "medium") false 0%Qc 0%Qc "fluxcal.txt" "config".

(** A disk with an imaging mode file and a pom mode file that bears the
    name under which the rewritten copy of the imaging mode file is saved. *)
Definition disk_with_clash : world :=
  mkWorld {["MIRAGE_DATA" := "/data"]}
    {["/in/img.yaml" := Bench.niriss_imaging;
      "/in/tmp_update_to_wfss_mode_img.yaml" := niriss_pom]}
    ∅ [].

(** C7, as stated, fails when a parameter file bears the name given to the
    rewritten copy of another: neither of the two documents declares wfss
    mode, yet [find_param_info] raises no error - it reads the copy it has
    just written over the second file and takes it for the wfss mode file -
    and the second file is not left as it was. *)
Lemma rewritten_copy_overwrites_parameter_file :
  ∃ w' f,
    yaml_files disk_with_clash !! "/in/img.yaml" = Some Bench.niriss_imaging ∧
    yaml_files disk_with_clash !! "/in/tmp_update_to_wfss_mode_img.yaml" = Some niriss_pom ∧
    Inst_mode Bench.niriss_imaging = "imaging" ∧ Inst_mode niriss_pom = "pom" ∧
    filter (λ q, wfss_file (yaml_files disk_with_clash) q = true)
      ["/in/img.yaml"; "/in/tmp_update_to_wfss_mode_img.yaml"] = [] ∧
    modified_file "/in/img.yaml" = "/in/tmp_update_to_wfss_mode_img.yaml" ∧
    find_param_info ["/in/img.yaml"; "/in/tmp_update_to_wfss_mode_img.yaml"] disk_with_clash
      = (w', Ok (["/in/tmp_update_to_wfss_mode_img.yaml";
                  "/in/tmp_update_to_wfss_mode_img.yaml"], f)) ∧
    wfss_yaml f = Some "/in/tmp_update_to_wfss_mode_img.yaml" ∧
    yaml_files w' !! "/in/tmp_update_to_wfss_mode_img.yaml"
      = Some (update_to_wfss_mode Bench.niriss_imaging) ∧
    yaml_files w' !! "/in/tmp_update_to_wfss_mode_img.yaml"
      ≠ yaml_files disk_with_clash !! "/in/tmp_update_to_wfss_mode_img.yaml".
Proof.
  eexists _, _. split; [by vm_compute|]. split; [by vm_compute|].
  split; [reflexivity|]. split; [reflexivity|]. split; [by vm_compute|].
  split; [by vm_compute|]. split; [vm_compute; reflexivity|].
  split; [reflexivity|]. split; [by vm_compute|]. vm_compute. intros [=].
Qed.

(** ** Sigma clipping *)

Module StatsFacts.
Import Stats.

Local Open Scope Qc_scope.

Lemma sq_pos (k : Qc) : k ≠ 0 → 0 < sq k.
Proof.
  intros Hk. unfold sq.
  destruct (Qclt_le_dec 0 k) as [Hpos|Hle].
  - by apply Qcmult_pos_pos.
  - assert (0 < - k) as Hneg.
    { apply Qcle_lt_or_eq in Hle as [Hlt|Heq]; [|done].
      apply Qclt_minus_iff in Hlt. by rewrite Qcplus_0_l in Hlt. }
    replace (k * k) with (- k * - k) by ring. by apply Qcmult_pos_pos.
Qed.

Lemma sum_cons x c : sum (x :: c) = x + sum c.
Proof. done. Qed.

Lemma sum_scale (k : Qc) c : sum ((λ x, x * k) <$> c) = sum c * k.
Proof.
  induction c as [|x c IH]; [unfold sum; simpl; ring|].
  rewrite fmap_cons, !sum_cons, IH. ring.
Qed.

Lemma mean_scale (k : Qc) c : mean ((λ x, x * k) <$> c) = mean c * k.
Proof.
  unfold mean. rewrite sum_scale, length_fmap. unfold Qcdiv. ring.
Qed.

Lemma var_scale (k : Qc) c : var ((λ x, x * k) <$> c) = var c * sq k.
Proof.
  unfold var. rewrite (mean_scale k c).
  transitivity (mean ((λ y, y * sq k) <$> ((λ x, sq (x - mean c)) <$> c))).
  - f_equal. rewrite <- !list_fmap_compose. apply list_fmap_ext.
    intros i x _. unfold sq; simpl. ring.
  - apply mean_scale.
Qed.

(** The value is within [t] standard deviations of the mean. *)
Definition within (m v t x : Qc) : Prop := sq (x - m) ≤ sq t * v ∨ x = m.

Lemma kept_within m v t x :
  ge_critlower m v t x && le_critupper m v t x = true ↔ within m v t x.
Proof.
  unfold ge_critlower, le_critupper, within.
  rewrite andb_true_iff, !orb_true_iff, !bool_decide_eq_true.
  replace (sq (m - x)) with (sq (x - m)) by (unfold sq; ring).
  split.
  - intros [[Hlo|Hq] [Hhi|Hq']]; try (by left). right.
    apply Qcle_antisym.
    + apply Qcle_minus_iff. apply Qcle_minus_iff in Hhi.
      replace (m + - x) with (0 + - (x - m)) by ring. done.
    + apply Qcle_minus_iff. apply Qcle_minus_iff in Hlo.
      replace (x + - m) with (0 + - (m - x)) by ring. done.
  - intros [Hq| ->]; [by split; right|].
    replace (m - m) with 0 by ring. split; left; done.
Qed.

Lemma within_scale (k m v t x : Qc) :
  k ≠ 0 → within (m * k) (v * sq k) t (x * k) ↔ within m v t x.
Proof.
  intros Hk. unfold within.
  replace (sq (x * k - m * k)) with (sq (x - m) * sq k) by (unfold sq; ring).
  replace (sq t * (v * sq k)) with (sq t * v * sq k) by ring.
  rewrite <- (Qcmult_le_mono_pos_r _ _ (sq k)) by (by apply sq_pos).
  split; (intros [Hq|Heq]; [by left|right]).
  - apply (f_equal (λ y, y * / k)) in Heq.
    rewrite <- !Qcmult_assoc, Qcmult_inv_r, !Qcmult_1_r in Heq; done.
  - by rewrite Heq.
Qed.

Lemma filter_kept_scale (k m v t : Qc) (c : list Qc) :
  k ≠ 0 →
  filter (λ x, ge_critlower (m * k) (v * sq k) t x && le_critupper (m * k) (v * sq k) t x
               = true) ((λ x, x * k) <$> c)
  = (λ x, x * k) <$>
      filter (λ x, ge_critlower m v t x && le_critupper m v t x = true) c.
Proof.
  intros Hk. induction c as [|x c IH]; [done|].
  rewrite fmap_cons, !filter_cons, IH.
  destruct (decide (_ (x * k) && _ = true)) as [H1|H1];
    destruct (decide (_ x && _ = true)) as [H2|H2]; try done.
  - apply kept_within, within_scale, kept_within in H1; done.
  - apply kept_within, (within_scale k), kept_within in H2; done.
Qed.

Lemma clip_once_scale (k t : Qc) (c : list Qc) :
  k ≠ 0 → clip_once t t ((λ x, x * k) <$> c) = (λ x, x * k) <$> clip_once t t c.
Proof.
  intros Hk. unfold clip_once. rewrite mean_scale, var_scale.
  by apply filter_kept_scale.
Qed.

Lemma clip_loop_scale (k t : Qc) fuel : ∀ c : list Qc,
  k ≠ 0 →
  clip_loop fuel t t ((λ x, x * k) <$> c) = (λ x, x * k) <$> clip_loop fuel t t c.
Proof.
  induction fuel as [|fuel IH]; intros c Hk; [done|].
  simpl. rewrite clip_once_scale, !length_fmap by done.
  case_bool_decide; [done|]. by apply IH.
Qed.

(** Clipping commutes with a change of unit. *)
Lemma sigmaclip_scale (k t : Qc) (c : list Qc) :
  k ≠ 0 → sigmaclip ((λ x, x * k) <$> c) t t = (λ x, x * k) <$> sigmaclip c t t.
Proof. intros Hk. unfold sigmaclip. rewrite length_fmap. by apply clip_loop_scale. Qed.

Lemma filter_same_length {A} (P : A → Prop) `{!∀ x, Decision (P x)} (l : list A) :
  length (filter P l) = length l → filter P l = l.
Proof.
  induction l as [|x l IH]; [done|]. rewrite filter_cons.
  destruct (decide (P x)); simpl.
  - intros [= Hl]. by rewrite IH.
  - intros Hl. pose proof (length_filter P l). lia.
Qed.

(** The loop ends because a round removed nothing, not for want of fuel. *)
Lemma clip_loop_converged (low high : Qc) fuel : ∀ c,
  (length c < fuel)%nat →
  clip_once low high (clip_loop fuel low high c) = clip_loop fuel low high c.
Proof.
  induction fuel as [|fuel IH]; intros c Hlen; [lia|].
  simpl. case_bool_decide as Hsame.
  - unfold clip_once in Hsame. apply filter_same_length in Hsame.
    unfold clip_once at 2 3. rewrite Hsame. unfold clip_once. by rewrite Hsame.
  - apply IH. unfold clip_once in *.
    pose proof (length_filter
      (λ x, ge_critlower (mean c) (var c) low x && le_critupper (mean c) (var c) high x
            = true) c). lia.
Qed.

Lemma sigmaclip_converged (low high : Qc) c :
  clip_once low high (sigmaclip c low high) = sigmaclip c low high.
Proof. apply clip_loop_converged. lia. Qed.

Lemma sum_zeros c : Forall (λ x, x = 0) c → sum c = 0.
Proof.
  induction 1 as [|x c -> _ IH]; [done|]. rewrite sum_cons, IH. ring.
Qed.

Lemma mean_zeros c : Forall (λ x, x = 0) c → mean c = 0.
Proof. intros Hc. unfold mean. rewrite (sum_zeros c Hc). unfold Qcdiv. ring. Qed.

Lemma clip_loop_sublist (low high : Qc) fuel : ∀ c x,
  x ∈ clip_loop fuel low high c → x ∈ c.
Proof.
  induction fuel as [|fuel IH]; intros c x; [done|]. simpl.
  assert (Hsub : ∀ y, y ∈ clip_once low high c → y ∈ c).
  { intros y. unfold clip_once. rewrite list_elem_of_filter. tauto. }
  case_bool_decide; [apply Hsub|]. intros Hx. by apply Hsub, IH.
Qed.

Lemma sigma_clipped_mean_zeros c :
  Forall (λ x, x = 0) c → mean (sigmaclip c three three) = 0.
Proof.
  intros Hc. apply mean_zeros. apply Forall_forall. intros x Hx.
  apply clip_loop_sublist in Hx. by apply (proj1 (Forall_forall _ _) Hc).
Qed.

End StatsFacts.

(** ** The rejection of [sigmaclip], written out *)

Module ClipFacts.
Import Stats.

Local Open Scope Qc_scope.

Lemma Qc_of_nat_nonneg (n : nat) : 0 ≤ Qc_of_Z (Z.of_nat n).
Proof.
  unfold Qcle; simpl. unfold Qle; simpl. lia.
Qed.

Lemma sum_nonneg c : Forall (λ x, 0 ≤ x) c → 0 ≤ sum c.
Proof.
  induction 1 as [|x c Hx _ IH]; [done|]. rewrite StatsFacts.sum_cons.
  replace 0 with (0 + 0) by ring. by apply Qcplus_le_compat.
Qed.

Lemma sq_nonneg (x : Qc) : 0 ≤ sq x.
Proof.
  destruct (decide (x = 0)) as [->|Hx]; [done|].
  apply Qclt_le_weak. by apply StatsFacts.sq_pos.
Qed.

Lemma mean_nonneg c : Forall (λ x, 0 ≤ x) c → 0 ≤ mean c.
Proof.
  intros Hc. unfold mean, Qcdiv.
  destruct (decide (Qc_of_Z (Z.of_nat (length c)) = 0)) as [->|Hn].
  - replace (/ 0) with 0 by done. by rewrite Qcmult_0_r.
  - replace 0 with (0 * / Qc_of_Z (Z.of_nat (length c))) by ring.
    apply Qcmult_le_compat_r; [by apply sum_nonneg|].
    apply Qclt_le_weak, Qcinv_pos.
    pose proof (Qc_of_nat_nonneg (length c)) as Hle.
    apply Qcle_lt_or_eq in Hle as [Hlt|Heq]; [done|by symmetry in Heq].
Qed.

Lemma var_nonneg c : 0 ≤ var c.
Proof.
  unfold var. apply mean_nonneg, Forall_fmap, Forall_true. intros x. apply sq_nonneg.
Qed.

(** One round of the rejection, written out: the values within 3 standard
    deviations of the mean are kept. *)
Definition kept (c : list Qc) : list Qc :=
  filter (λ x, (x - mean c) * (x - mean c) ≤ Qc_of_Z 9 * var c) c.

Lemma clip_once_kept c : clip_once three three c = kept c.
Proof.
  unfold clip_once, kept. apply list_filter_iff. intros x.
  rewrite StatsFacts.kept_within. unfold StatsFacts.within.
  replace (sq three) with (Qc_of_Z 9) by (by apply (bool_decide_unpack _)).
  unfold sq. split; [|by left].
  intros [Hle| ->]; [done|].
  replace ((mean c - mean c) * (mean c - mean c)) with 0 by ring.
  replace 0 with (0 * Qc_of_Z 9) at 1 by ring.
  rewrite (Qcmult_comm (Qc_of_Z 9) (var c)).
  apply Qcmult_le_compat_r; [apply var_nonneg|done].
Qed.

Lemma kept_length c : length (kept c) ≠ length c → (length (kept c) < length c)%nat.
Proof.
  intros Hne. unfold kept in *.
  pose proof (length_filter
    (λ x, (x - mean c) * (x - mean c) ≤ Qc_of_Z 9 * var c) c) as Hle.
  lia.
Qed.

(** The loop of [sigmaclip] runs the rejection until a round drops nothing:
    each of the [rounds] rounds counted here drops a value. *)
Lemma clip_loop_rounds fuel : ∀ c,
  ∃ rounds, clip_loop fuel three three c = Nat.iter rounds kept c ∧
    ∀ n, (n < rounds)%nat →
         (length (Nat.iter (S n) kept c) < length (Nat.iter n kept c))%nat.
Proof.
  induction fuel as [|fuel IH]; intros c.
  { exists 0%nat. split; [done|]. intros n Hn. lia. }
  simpl. rewrite clip_once_kept. case_bool_decide as Hsame.
  - exists 0%nat. split; [|intros n Hn; lia]. simpl.
    unfold kept in *. by apply StatsFacts.filter_same_length.
  - destruct (IH (kept c)) as (n & Hn & Hdrop). exists (S n).
    split; [by rewrite Nat.iter_succ_r|].
    intros [|m] Hm.
    + simpl. by apply kept_length.
    + rewrite (Nat.iter_succ_r m). apply (Hdrop m). lia.
Qed.

Lemma sigmaclip_rounds c :
  ∃ rounds, sigmaclip c three three = Nat.iter rounds kept c ∧
            kept (Nat.iter rounds kept c) = Nat.iter rounds kept c ∧
            ∀ n, (n < rounds)%nat →
                 (length (Nat.iter (S n) kept c) < length (Nat.iter n kept c))%nat.
Proof.
  destruct (clip_loop_rounds (S (length c)) c) as (n & Hn & Hdrop). exists n.
  split; [done|]. split; [|done]. unfold sigmaclip in Hn. rewrite <- Hn, <- clip_once_kept.
  apply (StatsFacts.sigmaclip_converged three three c).
Qed.

End ClipFacts.

(** ** The rescaled background image *)

Lemma ravel_map f a : NdArray.ravel (NdArray.map f a) = f <$> NdArray.ravel a.
Proof.
  unfold NdArray.ravel, NdArray.map; simpl.
  induction (NdArray.rows a) as [|row rows IH]; [done|].
  rewrite fmap_cons, !concat_cons, fmap_app. by rewrite IH.
Qed.

(** In exact arithmetic, and when the sigma-clipped mean of the image is
    not 0, the sigma-clipped mean of the rescaled image is the scaling
    factor. *)
Lemma sigma_clipped_mean_rescaled (image : ndarray) (scaling_factor : Qc) :
  Stats.sigma_clipped_mean image ≠ 0%Qc →
  Stats.sigma_clipped_mean (rescale_background image scaling_factor) = scaling_factor.
Proof.
  intros Hm. unfold rescale_background.
  set (m := Stats.sigma_clipped_mean image) in *.
  unfold Stats.sigma_clipped_mean at 1. rewrite ravel_map.
  destruct (decide (scaling_factor = 0%Qc)) as [->|Hsf].
  - apply StatsFacts.sigma_clipped_mean_zeros.
    apply Forall_fmap, Forall_true. intros p. simpl. ring.
  - assert (Hext : (λ p, p / m * scaling_factor)%Qc <$> NdArray.ravel image
                   = (λ x, x * (scaling_factor / m))%Qc <$> NdArray.ravel image)
      by (apply list_fmap_ext; intros i x _; simpl; field; done).
    rewrite Hext, StatsFacts.sigmaclip_scale, StatsFacts.mean_scale.
    + fold (Stats.sigma_clipped_mean image). fold m. field. done.
    + intros Hk. apply Qcmult_integral in Hk as [Hk|Hk]; [done|].
      apply (f_equal (λ y, y * m)%Qc) in Hk.
      rewrite Qcmult_inv_l, Qcmult_0_l in Hk by done. done.
Qed.

Section RescaledBackground.

Context {collab : Collaborators}.

(** C8, as the code has it: for NIRISS, the background image given to the
    first class dispersed is the reference image with every pixel divided by
    the sigma-clipped mean of the reference and multiplied by the scaling
    factor. The sigma-clipped mean is the mean of the pixels left when those
    farther than 3 standard deviations from the mean, on either side, have
    been dropped, round after round, until a round drops none. The scaling
    factor is the requested rate times the NIRISS mean gain times the grism
    throughput factor: the rate itself for a numeric level, the rate
    [calculate_background] gives for a tier. *)
Theorem background_rescaled_to_target (self : WFSSSim) (p : Params) (loc : string)
    (bg : background) (g : GrismArgs) (background_image : ndarray) :
  ready self "niriss" p →
  resolve_background self = Ok bg →
  make_background "niriss" loc bg g = Ok background_image →
  ∃ bf sf rounds,
    background_file bg = Some bf ∧ scaling_factor bg = Some sf ∧
    let reference := fits_getdata (os_path_join loc bf) in
    let within_3_sigma (c : list Qc) : list Qc :=
      filter (λ x, (x - Stats.mean c) * (x - Stats.mean c) ≤ Qc_of_Z 9 * Stats.var c)%Qc c in
    let clipped := Nat.iter rounds within_3_sigma (NdArray.ravel reference) in
    let background_mean := Stats.mean clipped in
    Stats.sigmaclip (NdArray.ravel reference) Stats.three Stats.three = clipped ∧
    within_3_sigma clipped = clipped ∧
    (∀ n, n < rounds →
       length (Nat.iter (S n) within_3_sigma (NdArray.ravel reference))
       < length (Nat.iter n within_3_sigma (NdArray.ravel reference))) ∧
    background_image = NdArray.map (λ x, x / background_mean * sf)%Qc reference ∧
    (∀ x, simSignals_bkgdrate p = PyNum x →
          sf = (x * MEAN_GAIN_niriss * NIRISS_GRISM_THROUGHPUT_FACTOR)%Qc) ∧
    (∀ s, simSignals_bkgdrate p = PyStr s →
          ∃ filter_file,
            sf = (calculate_background (Telescope_ra p) (Telescope_dec p) filter_file
                    (simSignals_use_dateobs_for_background p) MEAN_GAIN_niriss
                    (Readout_array_name p) s
                  * NIRISS_GRISM_THROUGHPUT_FACTOR * MEAN_GAIN_niriss)%Qc).
Proof.
  intros (Hinst & Hp & [m Hm] & [d Hd] & [dd Hdd] & [cf Hcf]) Hres Hbg.
  unfold make_background in Hbg. simpl in Hbg.
  destruct (background_file bg) as [bf|] eqn:Ebf; [|done].
  destruct (scaling_factor bg) as [sf|] eqn:Esf; [|done].
  simpl in Hbg. injection Hbg as <-.
  destruct (ClipFacts.sigmaclip_rounds (NdArray.ravel (fits_getdata (os_path_join loc bf))))
    as (rounds & Hclip & Hfix & Hdrop).
  exists bf, sf, rounds. split; [done|]. split; [done|].
  intros reference within_3_sigma clipped background_mean.
  change within_3_sigma with ClipFacts.kept in *.
  split; [exact Hclip|]. split; [exact Hfix|]. split; [exact Hdrop|]. split.
  { subst background_mean clipped reference.
    unfold rescale_background, Stats.sigma_clipped_mean. by rewrite Hclip. }
  unfold resolve_background in Hres.
  rewrite Hinst, Hp, Hdd, Hcf in Hres. simpl in Hres.
  split.
  - intros x Hx. rewrite Hx in Hres. injection Hres as <-. simpl in Esf. congruence.
  - intros s Hs. rewrite Hs in Hres. destruct (is_tier s); [|done].
    injection Hres as <-. simpl in Esf. injection Esf as <-. by eexists.
Qed.

End RescaledBackground.

(** The concrete setting, with a given reference background image on disk. *)
Definition reference_collaborators (reference : ndarray) : Collaborators := {|
  MEAN_GAIN_niriss := @MEAN_GAIN_niriss Bench.collaborators;
  MEAN_GAIN_nircam := @MEAN_GAIN_nircam Bench.collaborators;
  NIRISS_GRISM_THROUGHPUT_FACTOR := @NIRISS_GRISM_THROUGHPUT_FACTOR Bench.collaborators;
  make_seed := @make_seed Bench.collaborators;
  make_all_spectra := @make_all_spectra Bench.collaborators;
  day_of_year_background_spectrum := @day_of_year_background_spectrum Bench.collaborators;
  low_med_high_background_spectrum := @low_med_high_background_spectrum Bench.collaborators;
  calculate_background := @calculate_background Bench.collaborators;
  get_filter_throughput_file := @get_filter_throughput_file Bench.collaborators;
  grism_final := @grism_final Bench.collaborators;
  disperse_background_1D := @disperse_background_1D Bench.collaborators;
  fits_getdata := λ _, reference;
  dark_files := @dark_files Bench.collaborators
|}.

(** A reference image with one pixel far from the others. *)
Definition outlier_reference : ndarray :=
  NdArray.of_Z 4 [[7; 7; 7; 7]; [7; 7; 7; 7]; [7; 7; 7; 7]; [7; 7; 7; 100]]%Z.

Lemma background_rescaled_to_target_witness :
  ∃ background_image,
    make_background (collab := reference_collaborators outlier_reference)
      "niriss" Bench.loc Bench.the_background
      (class_args Bench.sim Bench.loc None Bench.the_background
         [Some "ptsrc_seed.fits"; Some "ptsrc_seed.fits"])
    = Ok background_image ∧
    Stats.mean (NdArray.ravel outlier_reference) = Q2Qc (205 # 16) ∧
    Stats.sigmaclip (NdArray.ravel outlier_reference) Stats.three Stats.three
      = replicate 15 (Qc_of_Z 7) ∧
    background_image =
      NdArray.map (λ x, x / Qc_of_Z 7 * Qc_of_Z 8)%Qc outlier_reference ∧
    NdArray.pixel background_image 0 0 = Some (Qc_of_Z 8) ∧
    NdArray.pixel background_image 3 3 = Some (Q2Qc (800 # 7)).
Proof.
  assert (Hready : ready Bench.sim "niriss" Bench.niriss_wfss)
    by (by repeat split; eexists).
  assert (Hres : resolve_background (collab := reference_collaborators outlier_reference)
                   Bench.sim = Ok Bench.the_background) by by_compute.
  destruct (make_background (collab := reference_collaborators outlier_reference)
              "niriss" Bench.loc Bench.the_background
              (class_args Bench.sim Bench.loc None Bench.the_background
                 [Some "ptsrc_seed.fits"; Some "ptsrc_seed.fits"]))
    as [background_image|e] eqn:Hbg; [|by vm_compute in Hbg].
  destruct (background_rescaled_to_target _ _ _ _ _ _ Hready Hres Hbg)
    as (bf & sf & rounds & Hbf & Hsf & Hclip & _ & _ & Himg & _).
  injection Hsf as <-. cbn [fits_getdata reference_collaborators] in Hclip, Himg.
  assert (Hclipped : Stats.sigmaclip (NdArray.ravel outlier_reference) Stats.three Stats.three
                     = replicate 15 (Qc_of_Z 7)) by by_compute.
  rewrite <- Hclip in Himg. rewrite Hclipped in Himg.
  assert (Hmean : Stats.mean (replicate 15 (Qc_of_Z 7)) = Qc_of_Z 7) by by_compute.
  rewrite Hmean in Himg.
  exists background_image. split; [done|]. split; [by_compute|]. split; [done|].
  split; [done|]. rewrite Himg. split; by_compute.
Defined.

(** C8, as stated, fails when the sigma-clipped mean of the reference image
    is 0: the division is by zero, and the sigma-clipped mean of the image
    made is not the scaling factor. On float64 pixels the image made of a
    reference of zeros is all [nan]. *)
Lemma background_off_target_at_zero_mean :
  ∃ background_image,
    resolve_background (collab := reference_collaborators (Bench.flat 6 0)) Bench.sim
      = Ok Bench.the_background ∧
    scaling_factor Bench.the_background = Some (Qc_of_Z 8) ∧
    Stats.sigma_clipped_mean (Bench.flat 6 0) = 0%Qc ∧
    make_background (collab := reference_collaborators (Bench.flat 6 0))
      "niriss" Bench.loc Bench.the_background
      (class_args Bench.sim Bench.loc None Bench.the_background
         [Some "ptsrc_seed.fits"; Some "ptsrc_seed.fits"])
    = Ok background_image ∧
    Stats.sigma_clipped_mean background_image ≠ Qc_of_Z 8 ∧
    Float64.rescale [[0; 0]; [0; 0]]%float 0%float 8%float
      = [[nan; nan]; [nan; nan]].
Proof.
  eexists. split; [by_compute|]. split; [done|]. split; [by_compute|].
  split; [vm_compute; reflexivity|]. split; [by_compute|reflexivity].
Qed.

(** ** The table of subarray definitions *)

(** An astropy table: its columns have one length. *)
Definition table_wf (t : subarr_table) : Prop :=
  length (xstart t) = length (AperName t) ∧ length (ystart t) = length (AperName t) ∧
  length (xend t) = length (AperName t) ∧ length (yend t) = length (AperName t).

Lemma first_match_lookup (subname : string) (names : list string) (column : list Z) i v :
  length column = length names →
  names !! i = Some subname → (∀ j, j < i → names !! j ≠ Some subname) →
  column !! i = Some v →
  (mask_select ((λ name, bool_decide (subname = name)) <$> names) column
     ≫= λ l, py_index l 0) = Ok v.
Proof.
  intros Hlen Hi Hfirst Hv. unfold mask_select.
  rewrite bool_decide_true by (by rewrite length_fmap). simpl.
  revert column i Hlen Hi Hfirst Hv.
  induction names as [|n names IH]; intros [|x column] i Hlen Hi Hfirst Hv; try done.
  simpl. case_bool_decide as Hn.
  - destruct i as [|i]; [by injection Hv as ->|].
    exfalso. apply (Hfirst 0); [lia|]. simpl. by rewrite Hn.
  - destruct i as [|i]; [simpl in Hi; congruence|].
    simpl in *. apply (IH column i); [lia|done| |done].
    intros j Hj. apply (Hfirst (S j)). lia.
Qed.

(** A name that is in the table has a first row. *)
Lemma first_row (subname : string) (names : list string) :
  subname ∈ names →
  ∃ i, names !! i = Some subname ∧ ∀ j, j < i → names !! j ≠ Some subname.
Proof.
  induction names as [|n names IH]; intros Hin; [by apply elem_of_nil in Hin|].
  destruct (decide (n = subname)) as [->|Hne].
  - exists 0. split; [done|]. intros j Hj. lia.
  - apply elem_of_cons in Hin as [->|Hin]; [done|].
    destruct (IH Hin) as (i & Hi & Hfirst). exists (S i). split; [done|].
    intros [|j] Hj; simpl; [congruence|]. apply Hfirst. lia.
Qed.

(** [get_subarr_bounds] on a table: for a name of the [AperName] column it
    returns [xstart, ystart, xend, yend] of the first row that bears the
    name, also when later rows bear it too; for any other name it raises the
    [ValueError] that names it. *)
Theorem get_subarr_bounds_first_row (subname : string) (t : subarr_table) :
  table_wf t →
  (subname ∈ AperName t →
   ∃ i x0 y0 x1 y1,
     AperName t !! i = Some subname ∧ (∀ j, j < i → AperName t !! j ≠ Some subname) ∧
     xstart t !! i = Some x0 ∧ ystart t !! i = Some y0 ∧
     xend t !! i = Some x1 ∧ yend t !! i = Some y1 ∧
     get_subarr_bounds subname t = Ok [x0; y0; x1; y1]) ∧
  (subname ∉ AperName t →
   get_subarr_bounds subname t = Raise (no_subarray_error subname)).
Proof.
  intros (Hx0 & Hy0 & Hx1 & Hy1). unfold get_subarr_bounds. split.
  - intros Hin. rewrite bool_decide_true by done.
    destruct (first_row _ _ Hin) as (i & Hi & Hfirst).
    assert (Hlt : i < length (AperName t)) by (by eapply lookup_lt_Some).
    destruct (lookup_lt_is_Some_2 (xstart t) i) as [x0 Ex0]; [lia|].
    destruct (lookup_lt_is_Some_2 (ystart t) i) as [y0 Ey0]; [lia|].
    destruct (lookup_lt_is_Some_2 (xend t) i) as [x1 Ex1]; [lia|].
    destruct (lookup_lt_is_Some_2 (yend t) i) as [y1 Ey1]; [lia|].
    exists i, x0, y0, x1, y1. do 6 (split; [done|]).
    cbn zeta.
    rewrite (first_match_lookup subname _ (xstart t) i x0 Hx0 Hi Hfirst Ex0).
    rewrite (first_match_lookup subname _ (ystart t) i y0 Hy0 Hi Hfirst Ey0).
    rewrite (first_match_lookup subname _ (xend t) i x1 Hx1 Hi Hfirst Ex1).
    by rewrite (first_match_lookup subname _ (yend t) i y1 Hy1 Hi Hfirst Ey1).
  - intros Hnot. by rewrite bool_decide_false.
Qed.

Lemma get_subarr_bounds_first_row_witness :
  get_subarr_bounds "SUB64"
    (mkTable ["FULL"; "SUB64"; "SUB64"] [0; 10; 20]%Z [0; 11; 21]%Z
       [2047; 73; 83]%Z [2047; 74; 84]%Z)
  = Ok [10; 11; 73; 74]%Z.
Proof.
  destruct (get_subarr_bounds_first_row "SUB64"
              (mkTable ["FULL"; "SUB64"; "SUB64"] [0; 10; 20]%Z [0; 11; 21]%Z
                 [2047; 73; 83]%Z [2047; 74; 84]%Z)) as [Hin _]; [done|].
  destruct Hin as (i & x0 & y0 & x1 & y1 & Hi & Hfirst & E0 & E1 & E2 & E3 & ->).
  { apply elem_of_cons. right. by left. }
  destruct i as [|[|i]]; [done| |].
  - simpl in *. congruence.
  - exfalso. apply (Hfirst 1); [lia|done].
Defined.

(** ** The gain map *)

Definition gain_pixel (image : list (list fval)) (r c : nat) : option fval :=
  image !! r ≫= λ row, row !! c.

Lemma gain_pixel_set_where mask v image r c :
  gain_pixel (set_where mask v image) r c =
  (λ x, if mask x then v else x) <$> gain_pixel image r c.
Proof.
  unfold gain_pixel, set_where. rewrite list_lookup_fmap.
  destruct (image !! r) as [row|]; simpl; [|done]. by rewrite list_lookup_fmap.
Qed.

Section GainFacts.

Variable nanmedian : list (list fval) → fval.
Variable gain_files : gmap string (list (header * list (list fval))).
Variable has_logger : bool.

(** [read_gain_file] on a file with two units or more returns the header of
    the first unit and the image of the second in which every pixel that is
    0 or not finite has been replaced by the median [np.nanmedian] gives for
    the image as read, the other pixels and the shape being kept. So with a
    median that is finite and not 0 the map returned has no pixel that is 0
    or not finite; with a median that is 0 or not finite (an image of zeros,
    or with no number in it) the pixels replaced are 0 or not finite all the
    same. *)
Theorem read_gain_file_cleans (file : string) (hdu0 hdu1 : header * list (list fval))
    (more : list (header * list (list fval))) :
  gain_files !! file = Some (hdu0 :: hdu1 :: more) →
  ∃ image,
    read_gain_file nanmedian gain_files has_logger file = Ok (image, hdu0.1) ∧
    let mngain := nanmedian hdu1.2 in
    length image = length hdu1.2 ∧
    (∀ r c, gain_pixel image r c =
            (λ x, if is_zero x || negb (isfinite x) then mngain else x)
              <$> gain_pixel hdu1.2 r c) ∧
    (isfinite mngain = true → is_zero mngain = false →
     ∀ r c x, gain_pixel image r c = Some x → isfinite x = true ∧ is_zero x = false) ∧
    (∀ r c x, gain_pixel hdu1.2 r c = Some x → is_zero x || negb (isfinite x) = true →
              gain_pixel image r c = Some mngain).
Proof.
  intros Hfile. unfold read_gain_file, open_gain_file. rewrite Hfile. simpl.
  eexists. split; [done|]. set (mngain := nanmedian hdu1.2).
  assert (Hpix : ∀ r c,
    gain_pixel (set_where (λ x, negb (isfinite x)) mngain
                  (set_where is_zero mngain hdu1.2)) r c =
    (λ x, if is_zero x || negb (isfinite x) then mngain else x)
      <$> gain_pixel hdu1.2 r c).
  { intros r c. rewrite !gain_pixel_set_where.
    destruct (gain_pixel hdu1.2 r c) as [x|]; simpl; [|done]. f_equal.
    destruct (is_zero x) eqn:Ez; simpl.
    - by destruct (isfinite mngain).
    - done. }
  split; [|split; [|split]].
  - unfold set_where. by rewrite !length_fmap.
  - exact Hpix.
  - intros Hfin Hnz r c x. rewrite Hpix.
    destruct (gain_pixel hdu1.2 r c) as [y|]; simpl; [|done].
    destruct (is_zero y) eqn:Ez; simpl.
    + by intros [= <-].
    + destruct (isfinite y) eqn:Ef; simpl.
      * by intros [= <-].
      * by intros [= <-].
  - intros r c x Hx Hbad. by rewrite Hpix, Hx; simpl; rewrite Hbad.
Qed.

(** A gain file that is not there gives neither a [FileNotFoundError] nor a
    gain map: the exception is caught and logged, and the median is then
    taken of a name that was never assigned; when no logger is set yet, the
    logging itself fails. A file with one unit only fails on the second. *)
Theorem read_gain_file_missing (file : string) :
  (gain_files !! file = None →
   read_gain_file nanmedian gain_files has_logger file =
     Raise (if has_logger then UnboundLocalError "image" else AttributeError "logger")) ∧
  (∀ h, gain_files !! file = Some h → length h < 2 →
        read_gain_file nanmedian gain_files has_logger file = Raise IndexError).
Proof.
  unfold read_gain_file, open_gain_file. split.
  - intros ->. by destruct has_logger.
  - intros h -> Hlen. by destruct h as [|? [|? ?]]; simpl in *; [| |lia].
Qed.

End GainFacts.

Lemma read_gain_file_cleans_witness :
  ∃ image,
    read_gain_file (λ _, Fin (Qc_of_Z 2))
      {["gain.fits" := [([("TELESCOP", "JWST")], []);
                        ([], [[Fin 0%Qc; NaN]; [PosInf; Fin (Qc_of_Z 3)]])]]}
      true "gain.fits"
    = Ok (image, [("TELESCOP", "JWST")]) ∧
    gain_pixel image 0 1 = Some (Fin (Qc_of_Z 2)) ∧
    gain_pixel image 1 1 = Some (Fin (Qc_of_Z 3)).
Proof.
  destruct (read_gain_file_cleans (λ _, Fin (Qc_of_Z 2))
              {["gain.fits" := [([("TELESCOP", "JWST")], []);
                                ([], [[Fin 0%Qc; NaN]; [PosInf; Fin (Qc_of_Z 3)]])]]}
              true "gain.fits" ([("TELESCOP", "JWST")], [])
              ([], [[Fin 0%Qc; NaN]; [PosInf; Fin (Qc_of_Z 3)]]) [])
    as (image & Hrun & _ & Hpix & _); [by vm_compute|].
  exists image. split; [exact Hrun|]. by rewrite !Hpix.
Defined.

Lemma read_gain_file_missing_witness :
  read_gain_file (λ _, NaN) {["gain.fits" := [([], [])]]} true "gain.fits"
  = Raise IndexError.
Proof.
  destruct (read_gain_file_missing (λ _, NaN) {["gain.fits" := [([], [])]]} true "gain.fits")
    as [_ Hshort].
  apply (Hshort [([], [])]); [by vm_compute | simpl; lia].
Defined.

(** ** More on cropping *)

Module CropFacts.
Import NdArray.

Lemma py_slice_nat {A} (l : list A) (s e : nat) :
  py_slice (Z.of_nat s) (Z.of_nat e) l = take (e `min` length l - s `min` length l)
                                           (drop (s `min` length l) l).
Proof.
  unfold py_slice. rewrite !NdArrayFacts.slice_bound_nonneg by lia.
  by rewrite !Nat2Z.id.
Qed.

Lemma py_slice_all {A} (l : list A) : py_slice 0 (Z.of_nat (length l)) l = l.
Proof.
  change 0%Z with (Z.of_nat 0). rewrite py_slice_nat.
  rewrite Nat.min_id, Nat.min_0_l, Nat.sub_0_r. apply take_ge. simpl. lia.
Qed.

Lemma py_slice_fmap {A B} (f : A → B) (start stop : Z) (l : list A) :
  py_slice start stop (f <$> l) = f <$> py_slice start stop l.
Proof. unfold py_slice. by rewrite length_fmap, fmap_take, fmap_drop. Qed.

(** A slice of a slice is a slice: [l[s:e][a:b] = l[s+a:s+b]]. *)
Lemma py_slice_py_slice_nat {A} (l : list A) (s e a b : nat) :
  s ≤ e → e ≤ length l → b ≤ e - s →
  py_slice (Z.of_nat a) (Z.of_nat b) (py_slice (Z.of_nat s) (Z.of_nat e) l)
  = py_slice (Z.of_nat (s + a)) (Z.of_nat (s + b)) l.
Proof.
  intros Hs He Hb. rewrite !py_slice_nat. rewrite length_take, length_drop.
  rewrite (Nat.min_l e) by lia. rewrite (Nat.min_l s) by lia.
  rewrite (Nat.min_l (e - s)) by lia. rewrite (Nat.min_l b) by lia.
  rewrite (Nat.min_l (s + b)) by lia.
  destruct (decide (a ≤ e - s)) as [Ha|Ha].
  - rewrite (Nat.min_l a) by lia. rewrite (Nat.min_l (s + a)) by lia.
    rewrite skipn_firstn_comm, take_take, drop_drop.
    f_equal. lia.
  - rewrite (Nat.min_r a) by lia.
    replace (b - (e - s)) with 0 by lia.
    replace (s + b - (s + a) `min` length l) with 0 by lia. done.
Qed.

Lemma py_slice_py_slice {A} (l : list A) (s e a b : Z) :
  (0 ≤ s ≤ e)%Z → (e ≤ Z.of_nat (length l))%Z →
  (0 ≤ a)%Z → (0 ≤ b ≤ e - s)%Z →
  py_slice a b (py_slice s e l) = py_slice (s + a) (s + b) l.
Proof.
  intros Hs He Ha Hb.
  pose proof (py_slice_py_slice_nat l (Z.to_nat s) (Z.to_nat e) (Z.to_nat a) (Z.to_nat b))
    as H.
  rewrite !Z2Nat.id in H by lia.
  replace (Z.of_nat (Z.to_nat s + Z.to_nat a)) with (s + a)%Z in H by lia.
  replace (Z.of_nat (Z.to_nat s + Z.to_nat b)) with (s + b)%Z in H by lia.
  apply H; lia.
Qed.

End CropFacts.

Lemma slice2_all (data : ndarray) :
  NdArray.wf data →
  NdArray.slice2 data 0 (Z.of_nat (NdArray.nrows data)) 0 (Z.of_nat (NdArray.ncols data))
  = data.
Proof.
  intros Hwf. destruct data as [xl rows]. unfold NdArray.slice2, NdArray.nrows; simpl.
  f_equal.
  - rewrite NdArrayFacts.slice_len_eq by lia. lia.
  - rewrite CropFacts.py_slice_all.
    rewrite <- (list_fmap_id rows) at 2. apply Forall_fmap_ext_1.
    eapply Forall_impl; [exact Hwf|]. simpl. intros row <-.
    apply CropFacts.py_slice_all.
Qed.

(** Cropping to the whole frame changes nothing: on an array with a
    pixel at least, the bounds [0, 0, xl - 1, yl - 1] give the array back. *)
Theorem crop_to_subarray_full_frame (data : ndarray) :
  NdArray.wf data → 0 < NdArray.nrows data → 0 < NdArray.ncols data →
  crop_to_subarray data
    [0%Z; 0%Z; (Z.of_nat (NdArray.ncols data) - 1)%Z; (Z.of_nat (NdArray.nrows data) - 1)%Z]
  = Ok data.
Proof.
  intros Hwf Hr Hc. rewrite crop_to_subarray_unfold.
  rewrite !(proj2 (bound_ok_in_frame _ _)) by (unfold in_frame; lia). simpl.
  replace (Z.of_nat (NdArray.nrows data) - 1 + 1)%Z with (Z.of_nat (NdArray.nrows data))
    by lia.
  replace (Z.of_nat (NdArray.ncols data) - 1 + 1)%Z with (Z.of_nat (NdArray.ncols data))
    by lia.
  by rewrite slice2_all.
Qed.

Lemma crop_to_subarray_full_frame_witness :
  crop_to_subarray (NdArray.of_Z 3 [[1; 2; 3]; [4; 5; 6]]%Z) [0; 0; 2; 1]%Z
  = Ok (NdArray.of_Z 3 [[1; 2; 3]; [4; 5; 6]]%Z).
Proof.
  apply (crop_to_subarray_full_frame (NdArray.of_Z 3 [[1; 2; 3]; [4; 5; 6]]%Z)).
  - repeat constructor.
  - cbv. lia.
  - cbv. lia.
Defined.

(** A crop of a crop is the crop to the bounds of the second moved by the
    start of the first. *)
Theorem crop_to_subarray_twice (data sub : ndarray) (x0 y0 x1 y1 a0 b0 a1 b1 : Z) :
  NdArray.wf data → (x0 ≤ x1)%Z → (y0 ≤ y1)%Z →
  crop_to_subarray data [x0; y0; x1; y1] = Ok sub →
  in_frame (NdArray.ncols sub) a0 → in_frame (NdArray.ncols sub) a1 →
  in_frame (NdArray.nrows sub) b0 → in_frame (NdArray.nrows sub) b1 →
  crop_to_subarray sub [a0; b0; a1; b1]
  = crop_to_subarray data [x0 + a0; y0 + b0; x0 + a1; y0 + b1]%Z ∧
  is_Ok (crop_to_subarray sub [a0; b0; a1; b1]).
Proof.
  intros Hwf Hx Hy Hcrop Ha0 Ha1 Hb0 Hb1.
  rewrite crop_to_subarray_unfold in Hcrop.
  destruct (_ && _) eqn:Ein in Hcrop; [|done]. injection Hcrop as <-.
  rewrite !andb_true_iff, !bound_ok_in_frame in Ein.
  destruct Ein as (((Hx0 & Hx1) & Hy0) & Hy1).
  destruct (NdArrayFacts.slice2_spec data y0 (y1 + 1) x0 (x1 + 1) Hwf) as (Hshape & Hwfs & _);
    try (unfold in_frame in *; lia).
  set (sub := NdArray.slice2 data y0 (y1 + 1) x0 (x1 + 1)) in *.
  assert (Hrows : NdArray.nrows sub = Z.to_nat (y1 + 1 - y0)) by apply (f_equal fst Hshape).
  assert (Hcols : NdArray.ncols sub = Z.to_nat (x1 + 1 - x0)) by apply (f_equal snd Hshape).
  unfold in_frame in *.
  rewrite !crop_to_subarray_unfold.
  rewrite (proj2 (bound_ok_in_frame _ a0)) by done.
  rewrite (proj2 (bound_ok_in_frame _ a1)) by done.
  rewrite (proj2 (bound_ok_in_frame _ b0)) by done.
  rewrite (proj2 (bound_ok_in_frame _ b1)) by done.
  rewrite (proj2 (bound_ok_in_frame _ (x0 + a0)%Z)) by (unfold in_frame; lia).
  rewrite (proj2 (bound_ok_in_frame _ (x0 + a1)%Z)) by (unfold in_frame; lia).
  rewrite (proj2 (bound_ok_in_frame _ (y0 + b0)%Z)) by (unfold in_frame; lia).
  rewrite (proj2 (bound_ok_in_frame _ (y0 + b1)%Z)) by (unfold in_frame; lia).
  simpl.
  split; [|by eexists]. f_equal.
  assert (Hc : NdArray.slice_len (NdArray.ncols data) x0 (x1 + 1) = Z.to_nat (x1 + 1 - x0))
    by (apply NdArrayFacts.slice_len_eq; lia).
  unfold sub, NdArray.slice2; simpl. f_equal.
  - rewrite Hc. rewrite !NdArrayFacts.slice_len_eq by lia. lia.
  - rewrite CropFacts.py_slice_fmap, <- list_fmap_compose.
    rewrite CropFacts.py_slice_py_slice by (unfold NdArray.nrows in *; lia).
    replace (y0 + (b1 + 1))%Z with (y0 + b1 + 1)%Z by lia.
    apply Forall_fmap_ext_1, Forall_forall. intros row Hin. simpl.
    assert (Hlen : length row = NdArray.ncols data).
    { unfold NdArray.py_slice in Hin.
      apply (proj1 (Forall_forall (λ r, length r = NdArray.ncols data) _)
               (Forall_take _ _ _ (Forall_drop _ _ _ Hwf)) row Hin). }
    rewrite CropFacts.py_slice_py_slice by lia.
    f_equal. lia.
Qed.

Lemma crop_to_subarray_twice_witness :
  let data := NdArray.of_Z 4 [[1; 2; 3; 4]; [5; 6; 7; 8]; [9; 10; 11; 12]]%Z in
  crop_to_subarray (NdArray.of_Z 3 [[6; 7; 8]; [10; 11; 12]]%Z) [1; 0; 2; 0]%Z
  = crop_to_subarray data [2; 1; 3; 1]%Z.
Proof.
  intros data.
  refine (proj1 (crop_to_subarray_twice data (NdArray.of_Z 3 [[6; 7; 8]; [10; 11; 12]]%Z)
                   1 1 3 2 1 0 2 0 _ _ _ _ _ _ _ _)).
  - repeat constructor.
  - lia.
  - lia.
  - reflexivity.
  - by vm_compute.
  - by vm_compute.
  - by vm_compute.
  - by vm_compute.
Defined.

(** With fewer than four bounds nothing is returned: the bounds that are
    there are checked, and when they pass, the missing one is asked for. *)
Theorem crop_to_subarray_short_bounds (data : ndarray) (bounds : list Z) :
  length bounds < 4 →
  let frame (i : nat) := if Nat.even i then NdArray.ncols data else NdArray.nrows data in
  ((∀ i b, bounds !! i = Some b → in_frame (frame i) b) →
   crop_to_subarray data bounds = Raise IndexError) ∧
  (∀ i b, bounds !! i = Some b → ¬ in_frame (frame i) b →
   crop_to_subarray data bounds = Raise subarray_error).
Proof.
  intros Hlen frame. subst frame.
  destruct bounds as [|b0 [|b1 [|b2 [|b3 rest]]]]; simpl in Hlen; [| | | |lia].
  - split; [done|]. by intros i b [=].
  - unfold crop_to_subarray; simpl. unfold id.
    destruct (bound_ok _ b0) eqn:E0; simpl.
    + split; [done|]. intros [|i] b [=]; subst. apply bound_ok_in_frame in E0. done.
    + split; [|done]. intros Hall.
      pose proof (proj2 (bound_ok_in_frame _ _) (Hall 0 b0 eq_refl)). simpl in *. congruence.
  - unfold crop_to_subarray; simpl. unfold id.
    destruct (bound_ok _ b0) eqn:E0, (bound_ok _ b1) eqn:E1; simpl.
    + split; [done|]. intros [|[|i]] b [=]; subst.
      * apply bound_ok_in_frame in E0. done.
      * apply bound_ok_in_frame in E1. done.
    + split; [|done]. intros Hall.
      pose proof (proj2 (bound_ok_in_frame _ _) (Hall 1 b1 eq_refl)). simpl in *. congruence.
    + split; [|done]. intros Hall.
      pose proof (proj2 (bound_ok_in_frame _ _) (Hall 0 b0 eq_refl)). simpl in *. congruence.
    + split; [|done]. intros Hall.
      pose proof (proj2 (bound_ok_in_frame _ _) (Hall 0 b0 eq_refl)). simpl in *. congruence.
  - unfold crop_to_subarray; simpl. unfold id.
    destruct (bound_ok _ b0) eqn:E0, (bound_ok _ b2) eqn:E2, (bound_ok _ b1) eqn:E1; simpl;
      try (split; [|done]; intros Hall;
           pose proof (proj2 (bound_ok_in_frame _ _) (Hall 0 b0 eq_refl));
           pose proof (proj2 (bound_ok_in_frame _ _) (Hall 1 b1 eq_refl));
           pose proof (proj2 (bound_ok_in_frame _ _) (Hall 2 b2 eq_refl));
           simpl in *; congruence).
    split; [done|]. intros [|[|[|i]]] b [=]; subst.
    + apply bound_ok_in_frame in E0. done.
    + apply bound_ok_in_frame in E1. done.
    + apply bound_ok_in_frame in E2. done.
Qed.

Lemma crop_to_subarray_short_bounds_witness :
  crop_to_subarray (NdArray.of_Z 3 [[1; 2; 3]; [4; 5; 6]]%Z) [0; 0; 5]%Z
  = Raise subarray_error.
Proof.
  destruct (crop_to_subarray_short_bounds (NdArray.of_Z 3 [[1; 2; 3]; [4; 5; 6]]%Z)
              [0; 0; 5]%Z) as [_ Hout]; [simpl; lia|].
  apply (Hout 2 5%Z); [reflexivity|]. unfold in_frame. simpl. lia.
Defined.

(** * The constructor, attribute by attribute *)

(** ** What one round of the loop of [find_param_info] sets *)

(** The catalogs a document lists: its entries other than ['none'], in any
    letter case. *)
Definition catalogs_of (p : Params) : list string :=
  filter (λ e, lower e ≠ "none") (simSignals_catalogs p).

(** The attributes the [if i == 0] block sets, from the document [p]. *)
Definition first_attrs (p : Params) (f : ParamInfo) : Prop :=
  let inst := lower (Inst_instrument p) in
  instrument f = Some inst ∧
  (inst = "niriss" → module f = Some "N" ∧ detector f = Some "NIS") ∧
  (inst = "nircam" →
   ∃ m, str_index (Readout_array_name p) 3 = Ok m ∧ module f = Some m ∧
        detector f = Some (substring 0 5 (Readout_array_name p))).

(** The attributes the wfss mode branch sets, from the document [p]. *)
Definition wfss_attrs (p : Params) (f : ParamInfo) : Prop :=
  let stem := before_first ".fits" (Output_file p) in
  default_dispersed_filename f =
    Some (os_path_join (Output_directory p) (stem +:+ "_dispersed_seed_image.fits")) ∧
  background_image_filename f =
    Some (os_path_join (Output_directory p) (stem +:+ "_background_image.fits")) ∧
  (instrument f = Some "niriss" →
   crossing_filter f = Some (upper (Readout_pupil p)) ∧
   ∃ d, str_last (Readout_filter p) = Ok d ∧ dispersion_direction f = Some (upper d)) ∧
  (instrument f = Some "nircam" →
   crossing_filter f = Some (upper (Readout_filter p)) ∧
   ∃ d, str_last (Readout_pupil p) = Ok d ∧ dispersion_direction f = Some (upper d)).

Definition same_first_fields (f f' : ParamInfo) : Prop :=
  instrument f' = instrument f ∧ module f' = module f ∧ detector f' = detector f.

Definition same_wfss_fields (f f' : ParamInfo) : Prop :=
  wfss_yaml f' = wfss_yaml f ∧ params f' = params f ∧
  default_dispersed_filename f' = default_dispersed_filename f ∧
  background_image_filename f' = background_image_filename f ∧
  crossing_filter f' = crossing_filter f ∧
  dispersion_direction f' = dispersion_direction f.

Lemma first_file_info_attrs p f f' :
  first_file_info p f = Ok f' →
  first_attrs p f' ∧ same_wfss_fields f f' ∧ catalog_files f' = catalog_files f.
Proof.
  unfold first_file_info, first_attrs, same_wfss_fields. cbn zeta.
  destruct (String.eqb _ "niriss") eqn:E1.
  { apply String.eqb_eq in E1. intros [= <-]. simpl. rewrite E1.
    repeat split; try done. }
  apply String.eqb_neq in E1.
  destruct (String.eqb _ "nircam") eqn:E2.
  - destruct (str_index _ 3) as [m|] eqn:Em; simpl; [|done]. intros [= <-]. simpl.
    repeat split; try done. intros _. by exists m.
  - apply String.eqb_neq in E2. intros [= <-]. simpl. repeat split; done.
Qed.

Lemma after_first_block_attrs k p f f' :
  after_first_block k p f = Ok f' →
  same_wfss_fields f f' ∧ catalog_files f' = (catalog_files f ++ catalogs_of p)%list ∧
  (k = 0 → first_attrs p f') ∧ (k ≠ 0 → same_first_fields f f').
Proof.
  unfold after_first_block. case_bool_decide as Hk.
  - intros Hf. apply first_file_info_attrs in Hf as (Hfirst & Hsame & Hcat).
    split; [exact Hsame|]. split; [by rewrite Hcat|]. split; [done|]. by intros [].
  - intros [= <-]. repeat split; done.
Qed.

Lemma wfss_file_info_attrs p f f' :
  wfss_file_info p f = Ok f' →
  wfss_attrs p f' ∧ same_first_fields f f' ∧ catalog_files f' = catalog_files f ∧
  wfss_yaml f' = wfss_yaml f ∧ params f' = params f.
Proof.
  unfold wfss_file_info, wfss_attrs, same_first_fields. simpl.
  destruct (instrument f) as [inst|] eqn:E; simpl; [|done].
  destruct (String.eqb inst "niriss") eqn:E1.
  { apply String.eqb_eq in E1 as ->.
    destruct (str_last (Readout_filter p)) as [d|] eqn:Ed; simpl; [|done].
    intros [= <-]. simpl. rewrite E. repeat split; try done. by exists d. }
  apply String.eqb_neq in E1.
  destruct (String.eqb inst "nircam") eqn:E2.
  - apply String.eqb_eq in E2 as ->.
    destruct (str_last (Readout_pupil p)) as [d|] eqn:Ed; simpl; [|done].
    intros [= <-]. simpl. rewrite E. repeat split; try done. by exists d.
  - apply String.eqb_neq in E2. intros [= <-]. simpl. rewrite E.
    split; [|done]. split; [done|]. split; [done|].
    split; intros [= ->]; done.
Qed.

(** One round of the loop that goes through, by the mode of the document
    it reads. *)
Lemma find_param_step_spec st k q w w' st' b :
  find_param_step st (k, q) w = (w', Ok (st', b)) →
  ∃ p, yaml_files w !! q = Some p ∧
    catalog_files (found st') = (catalog_files (found st) ++ catalogs_of p)%list ∧
    (k = 0 → first_attrs p (found st')) ∧
    (k ≠ 0 → same_first_fields (found st) (found st')) ∧
    ((mode_of p = "wfss" ∧ wfss_files_found st ≠ 1 ∧
      wfss_files_found st' = S (wfss_files_found st) ∧
      wfss_yaml (found st') = Some q ∧ params (found st') = Some p ∧
      wfss_attrs p (found st') ∧ w' = w ∧
      yamls_to_disperse st' = q :: yamls_to_disperse st) ∨
     (mode_of p ≠ "wfss" ∧ wfss_files_found st' = wfss_files_found st ∧
      same_wfss_fields (found st) (found st') ∧
      if bool_decide (mode_of p ∈ ["imaging"; "pom"])
      then w' = write_yaml (modified_file q) (update_to_wfss_mode p) w ∧
           yamls_to_disperse st' = (yamls_to_disperse st ++ [modified_file q])%list
      else w' = w ∧ yamls_to_disperse st' = yamls_to_disperse st)).
Proof.
  rewrite find_param_step_unfold.
  destruct (yaml_files w !! q) as [p|]; [|done].
  destruct (after_first_block k p (found st)) as [f|] eqn:Ef; [|done].
  apply after_first_block_attrs in Ef as (Hsame & Hcat & Hk0 & Hk).
  intros Hrun. exists p. split; [done|].
  destruct (String.eqb (mode_of p) "wfss") eqn:Emode.
  - apply String.eqb_eq in Emode. case_bool_decide as Htwo; [done|].
    destruct (wfss_file_info p _) as [f'|] eqn:Ef'; [|done].
    apply wfss_file_info_attrs in Ef' as (Hattrs & (Hi & Hm & Hd) & Hcat' & Hy & Hp).
    injection Hrun as <- <- <-. simpl in *.
    split; [by rewrite Hcat'|]. split.
    { intros Hz. destruct (Hk0 Hz) as (H1 & H2 & H3).
      unfold first_attrs. cbn zeta. by rewrite Hi, Hm, Hd. }
    split.
    { intros Hnz. destruct (Hk Hnz) as (H1 & H2 & H3).
      unfold same_first_fields. by rewrite Hi, Hm, Hd. }
    left. refine (conj Emode (conj _ (conj eq_refl (conj Hy (conj Hp (conj Hattrs
                   (conj eq_refl eq_refl))))))). lia.
  - apply String.eqb_neq in Emode.
    case_bool_decide; injection Hrun as <- <- <-; simpl;
      (split; [done|]); (split; [done|]); (split; [done|]); right; done.
Qed.

(** ** The loop as a whole *)

Lemma same_first_fields_trans f1 f2 f3 :
  same_first_fields f1 f2 → same_first_fields f2 f3 → same_first_fields f1 f3.
Proof. intros (? & ? & ?) (? & ? & ?). repeat split; congruence. Qed.

Lemma first_attrs_same p f f' :
  first_attrs p f → same_first_fields f f' → first_attrs p f'.
Proof. unfold first_attrs. intros H (Hi & Hm & Hd). by rewrite Hi, Hm, Hd. Qed.

Lemma wfss_attrs_same p f f' :
  wfss_attrs p f → same_first_fields f f' → same_wfss_fields f f' → wfss_attrs p f'.
Proof.
  unfold wfss_attrs. intros H (Hi & _) (_ & _ & H1 & H2 & H3 & H4).
  by rewrite Hi, H1, H2, H3, H4.
Qed.

(** After the first file the instrument, the module and the detector stay
    as they are. *)
Lemma find_param_loop_first l : ∀ k st w w' st',
  k ≠ 0 →
  for_each find_param_step st (enumerate_from k l) w = (w', Ok st') →
  same_first_fields (found st) (found st').
Proof.
  induction l as [|q l IH]; intros k st w w' st' Hk Hrun.
  - by apply io_ret_Ok in Hrun as [-> ->].
  - rewrite enumerate_from_cons in Hrun.
    apply for_each_cons_Ok in Hrun as (s1 & b & w1 & Hstep & Hrest).
    pose proof (find_param_step_continues _ _ _ _ _ _ Hstep) as ->.
    apply find_param_step_spec in Hstep as (p & _ & _ & _ & Hsame & _).
    apply IH in Hrest; [|lia]. eapply same_first_fields_trans; eauto.
Qed.

(** Once a wfss mode file has been read, the attributes taken from it are
    set. *)
Definition wfss_read (st : find_state) : Prop :=
  wfss_files_found st = 0 ∨
  ∃ p, params (found st) = Some p ∧ wfss_attrs p (found st).

Lemma find_param_step_wfss st k q w w' st' b :
  (k = 0 → wfss_files_found st = 0) → wfss_read st →
  find_param_step st (k, q) w = (w', Ok (st', b)) → wfss_read st'.
Proof.
  intros Hk0 Hinv Hstep.
  apply find_param_step_spec in Hstep as (p & _ & _ & _ & Hfirst & Hmode).
  destruct Hmode as [(_ & _ & _ & _ & Hp & Hattrs & _)|(_ & Hcnt & Hsame & _)].
  - right. by exists p.
  - destruct Hinv as [H0|(p0 & Hp0 & Hattrs)]; [left; congruence|].
    destruct (decide (k = 0)) as [Hz|Hnz]; [left; rewrite Hcnt; auto|].
    right. exists p0. split.
    + destruct Hsame as (_ & -> & _). done.
    + eapply wfss_attrs_same; eauto.
Qed.

Lemma find_param_loop_wfss l : ∀ k st w w' st',
  (k = 0 → wfss_files_found st = 0) → wfss_read st →
  for_each find_param_step st (enumerate_from k l) w = (w', Ok st') → wfss_read st'.
Proof.
  induction l as [|q l IH]; intros k st w w' st' Hk0 Hinv Hrun.
  - by apply io_ret_Ok in Hrun as [-> ->].
  - rewrite enumerate_from_cons in Hrun.
    apply for_each_cons_Ok in Hrun as (s1 & b & w1 & Hstep & Hrest).
    pose proof (find_param_step_continues _ _ _ _ _ _ Hstep) as ->.
    apply (find_param_step_wfss _ _ _ _ _ _ _ Hk0 Hinv) in Hstep.
    eapply IH; [|exact Hstep|exact Hrest]. lia.
Qed.

(** What [find_param_info] has set when it returns: the instrument, the
    module and the detector from the first file of the list, the file names
    and the grism attributes from the wfss mode file. *)
Lemma find_param_info_attrs pfiles w w' yamls f :
  find_param_info pfiles w = (w', Ok (yamls, f)) →
  ∃ q0 rest p0 p,
    pfiles = q0 :: rest ∧ yaml_files w !! q0 = Some p0 ∧ first_attrs p0 f ∧
    params f = Some p ∧ wfss_attrs p f.
Proof.
  unfold find_param_info. intros Hrun.
  apply io_bind_Ok in Hrun as (st & w1 & Hloop & Hrun).
  case_bool_decide as Hfound; [done|].
  apply io_ret_Ok in Hrun as [Heq ->]. injection Heq as -> ->.
  rewrite enumerate_from_0 in Hloop.
  destruct pfiles as [|q0 rest].
  { apply io_ret_Ok in Hloop as [-> _]. done. }
  rewrite enumerate_from_cons in Hloop.
  apply for_each_cons_Ok in Hloop as (s1 & b & w2 & Hstep & Hrest).
  pose proof (find_param_step_continues _ _ _ _ _ _ Hstep) as ->.
  assert (Hread : wfss_read s1).
  { eapply find_param_step_wfss; [| |exact Hstep]; [done|by left]. }
  apply find_param_step_spec in Hstep as (p0 & Hp0 & _ & Hfirst & _).
  pose proof (find_param_loop_first _ _ _ _ _ _ (Nat.neq_succ_0 0) Hrest) as Hsame.
  apply find_param_loop_wfss in Hrest; [|lia|done].
  destruct Hrest as [H0|(p & Hp & Hattrs)]; [done|].
  exists q0, rest, p0, p. split; [done|]. split; [done|].
  split; [|done]. eapply first_attrs_same; eauto.
Qed.

(** ** [check_inputs] and the constructor *)

Lemma upper_module m : m ∈ ["A"; "B"] → upper m = m.
Proof.
  intros Hm. apply elem_of_cons in Hm as [->|Hm]; [done|].
  by apply list_elem_of_singleton in Hm as ->.
Qed.

Lemma check_darks_Ok w dark u :
  check_darks w dark = Ok u →
  match dark with
  | DarkNone => True
  | DarkFile f => os_path_isfile w f = true
  | DarkList fs => Forall (λ f, os_path_isfile w f = true) fs
  end.
Proof.
  unfold check_darks.
  destruct (list_find _ _) as [[i f]|] eqn:Efind; [done|]. intros _.
  apply list_find_None in Efind.
  destruct dark as [|f|fs]; [done| |].
  - apply (proj1 (Forall_singleton _ _)) in Efind.
    by destruct (os_path_isfile w f) eqn:E.
  - eapply Forall_impl; [exact Efind|]. simpl. intros f Hf.
    by destruct (os_path_isfile w f) eqn:E.
Qed.

(** [check_inputs] changes neither the object nor the world: what it
    returns has passed its tests. *)
Lemma check_inputs_validated f dark w w' f' :
  check_inputs f dark w = (w', Ok f') →
  w' = w ∧ f' = f ∧
  ∃ inst cf dd,
    instrument f = Some inst ∧ crossing_filter f = Some cf ∧
    dispersion_direction f = Some dd ∧ dd ∈ ["R"; "C"] ∧
    ((inst = "nircam" ∧ cf ∈ NIRCAM_GRISM_CROSSING_FILTERS ∧
      ∃ m, module f = Some m ∧ m ∈ ["A"; "B"]) ∨
     (inst = "niriss" ∧ cf ∈ NIRISS_GRISM_CROSSING_FILTERS)) ∧
    check_darks w dark = Ok tt.
Proof.
  unfold check_inputs. intros [= <- Hr]. split; [done|].
  apply bind_Ok_inv in Hr as (inst & Hinst & Hr).
  apply bind_Ok_inv in Hr as (u1 & Hin & Hr). apply check_member_Ok in Hin.
  apply bind_Ok_inv in Hr as (f1 & Hf1 & Hr).
  apply bind_Ok_inv in Hr as (dd & Hdd & Hr).
  apply bind_Ok_inv in Hr as (u2 & Hdir & Hr). apply check_member_Ok in Hdir.
  apply bind_Ok_inv in Hr as ([] & Hdark & Hr).
  assert (f' = f1) as -> by congruence. clear Hr.
  destruct (instrument f) as [inst0|] eqn:Einst; [|done]. injection Hinst as ->.
  destruct (dispersion_direction f1) as [dd0|] eqn:Edd; [|done]. injection Hdd as ->.
  destruct (String.eqb inst "nircam") eqn:E1.
  - apply String.eqb_eq in E1 as ->.
    apply bind_Ok_inv in Hf1 as (m & Hm & Hf1).
    apply bind_Ok_inv in Hf1 as (u4 & Hmin & Hf1). apply check_member_Ok in Hmin.
    apply bind_Ok_inv in Hf1 as (cf & Hcf & Hf1).
    apply bind_Ok_inv in Hf1 as (u5 & Hcfin & Hf1). apply check_member_Ok in Hcfin.
    assert (f1 = set_module (upper m) f) as -> by congruence.
    rewrite (upper_module m Hmin) in *.
    destruct (module f) as [m0|] eqn:Em; [|done]. injection Hm as ->.
    simpl in *. destruct (crossing_filter f) as [cf0|] eqn:Ecf; [|done]. injection Hcf as ->.
    assert (set_module m f = f) as Hsame.
    { destruct f. simpl in *. unfold set_module. simpl. congruence. }
    rewrite Hsame. split; [done|].
    exists "nircam", cf, dd. do 4 (split; [done|]). split; [|done].
    left. split; [done|]. split; [done|]. by exists m.
  - destruct (String.eqb inst "niriss") eqn:E2.
    + apply String.eqb_eq in E2 as ->.
      apply bind_Ok_inv in Hf1 as (cf & Hcf & Hf1).
      apply bind_Ok_inv in Hf1 as (u4 & Hcfin & Hf1). apply check_member_Ok in Hcfin.
      assert (f1 = f) as -> by congruence. split; [done|].
      destruct (crossing_filter f) as [cf0|] eqn:Ecf; [|done]. injection Hcf as ->.
      exists "niriss", cf, dd. do 4 (split; [done|]). split; [|done]. by right.
    + exfalso. apply elem_of_cons in Hin as [->|Hin]; [by rewrite String.eqb_refl in E1|].
      apply list_elem_of_singleton in Hin as ->. by rewrite String.eqb_refl in E2.
Qed.

(** The constructor, step by step. *)
Lemma init_inv pf ins ccs w w' self :
  init pf ins ccs w = (w', Ok self) →
  environ w !! "MIRAGE_DATA" = Some (datadir self) ∧ inputs self = ins ∧
  find_param_info (supplied pf) w = (w', Ok (paramfiles self, info self)) ∧
  check_inputs (info self) (override_dark ins) w' = (w', Ok (info self)).
Proof.
  unfold init. intros Hrun.
  apply io_bind_Ok in Hrun as (w0 & w1 & Hget & Hrun).
  unfold get_world in Hget. injection Hget as <- <-.
  destruct (environ w !! "MIRAGE_DATA") as [datadir0|]; [|done].
  apply io_bind_Ok in Hrun as (u & w1 & Hchk & Hrun).
  apply lift_Ok in Hchk as [Hchk ->].
  apply io_bind_Ok in Hrun as ([yamls f0] & w1 & Hfind & Hrun).
  apply io_bind_Ok in Hrun as (f & w2 & Hci & Hrun).
  apply io_ret_Ok in Hrun as [-> ->]. simpl.
  pose proof (check_inputs_validated _ _ _ _ _ Hci) as (-> & -> & _).
  done.
Qed.

Definition dark_files_exist (w : world) (dark : dark_arg) : Prop :=
  match dark with
  | DarkNone => True
  | DarkFile f => os_path_isfile w f = true
  | DarkList fs => Forall (λ f, os_path_isfile w f = true) fs
  end.

(** An object the constructor has returned: the data directory is the
    value of [MIRAGE_DATA]; the list of files starts with the wfss mode
    file, which is one of the files given; the instrument is ['nircam'], with
    module ['A'] or ['B'] and a crossing filter of the NIRCam list, or
    ['niriss'], with module ['N'], detector ['NIS'] and a crossing filter of
    the NIRISS list; the dispersion direction is ['R'] or ['C']; the two
    output file names are set; and the dark files given are on disk. *)
Theorem constructor_validates (pf : paramfiles_arg) (ins : UserInputs) (ccs : bool)
    (w w' : world) (self : WFSSSim) :
  init pf ins ccs w = (w', Ok self) →
  ∃ inst m d cf dd p y rest disp bkgd,
    environ w !! "MIRAGE_DATA" = Some (datadir self) ∧ inputs self = ins ∧
    paramfiles self = y :: rest ∧ y ∈ supplied pf ∧
    wfss_yaml (info self) = Some y ∧ params (info self) = Some p ∧ mode_of p = "wfss" ∧
    instrument (info self) = Some inst ∧ module (info self) = Some m ∧
    detector (info self) = Some d ∧ crossing_filter (info self) = Some cf ∧
    dispersion_direction (info self) = Some dd ∧
    default_dispersed_filename (info self) = Some disp ∧
    background_image_filename (info self) = Some bkgd ∧
    ((inst = "nircam" ∧ m ∈ ["A"; "B"] ∧ cf ∈ NIRCAM_GRISM_CROSSING_FILTERS) ∨
     (inst = "niriss" ∧ m = "N" ∧ d = "NIS" ∧ cf ∈ NIRISS_GRISM_CROSSING_FILTERS)) ∧
    dd ∈ ["R"; "C"] ∧ dark_files_exist w' (override_dark ins).
Proof.
  intros Hinit. apply init_inv in Hinit as (Henv & Hins & Hfind & Hci).
  pose proof (find_param_info_attrs _ _ _ _ _ Hfind)
    as (q0 & rest0 & p0 & p' & _ & _ & (Hinst0 & Hniriss & Hnircam) & Hp' & Hattrs).
  apply find_param_info_Ok in Hfind as (y & p & rest & Hl & Hy & Hp & Hmode & Hin & _).
  apply check_inputs_validated in Hci
    as (_ & _ & inst & cf & dd & Hinst & Hcf & Hdd & Hddin & Hcases & Hdark).
  apply check_darks_Ok in Hdark.
  destruct Hattrs as (Hdisp & Hbkgd & _).
  rewrite Hinst in Hinst0. injection Hinst0 as Hinst0.
  destruct Hcases as [(-> & Hcfin & m & Hm & Hmin)|(-> & Hcfin)].
  - destruct (Hnircam (eq_sym Hinst0)) as (m' & _ & Hm' & Hd).
    exists "nircam", m, (substring 0 5 (Readout_array_name p0)), cf, dd, p, y, rest.
    eexists _, _. do 14 (split; [done|]). split; [|done]. left. done.
  - destruct (Hniriss (eq_sym Hinst0)) as (Hm & Hd).
    exists "niriss", "N", "NIS", cf, dd, p, y, rest.
    eexists _, _. do 14 (split; [done|]). split; [|done]. right. done.
Qed.

Lemma constructor_validates_witness :
  ∃ w' self,
    init (FileList ["/in/img.yaml"; "/in/wfss.yaml"]) Bench.defaults false Bench.disk
      = (w', Ok self) ∧
    instrument (info self) = Some "niriss" ∧ module (info self) = Some "N" ∧
    crossing_filter (info self) ∈ (Some <$> NIRISS_GRISM_CROSSING_FILTERS).
Proof.
  destruct (init (FileList ["/in/img.yaml"; "/in/wfss.yaml"]) Bench.defaults false Bench.disk)
    as [w' [self|e]] eqn:Hinit; [|by vm_compute in Hinit].
  exists w', self. split; [done|].
  destruct (constructor_validates _ _ _ _ _ _ Hinit)
    as (inst & m & d & cf & dd & p & y & rest & disp & bkgd & _ & _ & _ & _ & _ & _ & _
        & Hinst & Hm & _ & Hcf & _ & _ & _ & Hcases & _).
  assert (Hn : instrument (info self) = Some "niriss").
  { vm_compute in Hinit. by injection Hinit as <- <-. }
  rewrite Hinst in Hn. injection Hn as ->.
  destruct Hcases as [(Hbad & _)|(_ & -> & _ & Hcfin)]; [done|].
  rewrite Hinst, Hm, Hcf. split; [done|]. split; [done|].
  apply list_elem_of_fmap. by exists cf.
Defined.

(** The instrument, the module and the detector of a constructed object are
    those of the first file of the list given, whatever its mode: the
    instrument in lower case; for NIRISS the module ['N'] and the detector
    ['NIS'], for NIRCam the fourth character and the first five characters
    of the aperture name. *)
Theorem instrument_from_first_file (pf : paramfiles_arg) (ins : UserInputs) (ccs : bool)
    (w w' : world) (self : WFSSSim) :
  init pf ins ccs w = (w', Ok self) →
  ∃ q0 rest p0,
    supplied pf = q0 :: rest ∧ yaml_files w !! q0 = Some p0 ∧
    let inst := lower (Inst_instrument p0) in
    instrument (info self) = Some inst ∧
    (inst = "niriss" → module (info self) = Some "N" ∧ detector (info self) = Some "NIS") ∧
    (inst = "nircam" →
     ∃ m, str_index (Readout_array_name p0) 3 = Ok m ∧ module (info self) = Some m ∧
          detector (info self) = Some (substring 0 5 (Readout_array_name p0))).
Proof.
  intros Hinit. apply init_inv in Hinit as (_ & _ & Hfind & _).
  apply find_param_info_attrs in Hfind as (q0 & rest & p0 & p & Hl & Hp0 & Hfirst & _).
  by exists q0, rest, p0.
Qed.

Lemma instrument_from_first_file_witness :
  ∃ w' self,
    init (FileList ["/in/img.yaml"; "/in/wfss.yaml"]) Bench.defaults false Bench.disk
      = (w', Ok self) ∧
    instrument (info self) = Some (lower (Inst_instrument Bench.niriss_imaging)) ∧
    wfss_yaml (info self) = Some "/in/wfss.yaml".
Proof.
  destruct (init (FileList ["/in/img.yaml"; "/in/wfss.yaml"]) Bench.defaults false Bench.disk)
    as [w' [self|e]] eqn:Hinit; [|by vm_compute in Hinit].
  exists w', self. split; [done|].
  destruct (instrument_from_first_file _ _ _ _ _ _ Hinit)
    as (q0 & rest & p0 & Hl & Hp0 & Hinst & _).
  injection Hl as <- <-. vm_compute in Hp0. injection Hp0 as <-.
  split; [exact Hinst|].
  vm_compute in Hinit. by injection Hinit as <- <-.
Defined.

(** The attributes taken from the wfss mode file: the two output file
    names are built from its [Output] entries (the directory, and the file
    name up to its first ['.fits']); the crossing filter and the dispersion
    direction are its pupil and the last character of its filter for
    NIRISS, its filter and the last character of its pupil for NIRCam, in
    upper case - the instrument being that of the first file of the list. *)
Theorem wfss_file_attributes (pf : paramfiles_arg) (ins : UserInputs) (ccs : bool)
    (w w' : world) (self : WFSSSim) :
  init pf ins ccs w = (w', Ok self) →
  ∃ p, params (info self) = Some p ∧ mode_of p = "wfss" ∧
    let stem := before_first ".fits" (Output_file p) in
    default_dispersed_filename (info self) =
      Some (os_path_join (Output_directory p) (stem +:+ "_dispersed_seed_image.fits")) ∧
    background_image_filename (info self) =
      Some (os_path_join (Output_directory p) (stem +:+ "_background_image.fits")) ∧
    (instrument (info self) = Some "niriss" →
     crossing_filter (info self) = Some (upper (Readout_pupil p)) ∧
     ∃ d, str_last (Readout_filter p) = Ok d ∧
          dispersion_direction (info self) = Some (upper d)) ∧
    (instrument (info self) = Some "nircam" →
     crossing_filter (info self) = Some (upper (Readout_filter p)) ∧
     ∃ d, str_last (Readout_pupil p) = Ok d ∧
          dispersion_direction (info self) = Some (upper d)).
Proof.
  intros Hinit. apply init_inv in Hinit as (_ & _ & Hfind & _).
  pose proof (find_param_info_attrs _ _ _ _ _ Hfind)
    as (q0 & rest & p0 & p & _ & _ & _ & Hp & Hattrs).
  apply find_param_info_Ok in Hfind as (y & p' & rest' & _ & _ & Hp' & Hmode & _).
  exists p. split; [done|]. split; [congruence|]. exact Hattrs.
Qed.

Lemma wfss_file_attributes_witness :
  ∃ w' self,
    init (FileList ["/in/img.yaml"; "/in/wfss.yaml"]) Bench.defaults false Bench.disk
      = (w', Ok self) ∧
    default_dispersed_filename (info self) = Some "/out/obs_dispersed_seed_image.fits" ∧
    background_image_filename (info self) = Some "/out/obs_background_image.fits".
Proof.
  destruct (init (FileList ["/in/img.yaml"; "/in/wfss.yaml"]) Bench.defaults false Bench.disk)
    as [w' [self|e]] eqn:Hinit; [|by vm_compute in Hinit].
  exists w', self. split; [done|].
  destruct (wfss_file_attributes _ _ _ _ _ _ Hinit) as (p & Hp & _ & Hdisp & Hbkgd & _).
  assert (p = Bench.niriss_wfss) as ->.
  { vm_compute in Hinit. injection Hinit as <- <-. simpl in Hp. by injection Hp as <-. }
  by rewrite Hdisp, Hbkgd.
Defined.

(** ** The catalogs *)

Section Catalogs.

Variables (fs0 : gmap string Params) (all : list string).
Hypothesis Hclash : ∀ q q', q ∈ all → q' ∈ all → modified_file q ≠ q'.

Lemma find_param_loop_catalogs l : ∀ k st w w' st',
  (∀ q, q ∈ l → q ∈ all) → untouched fs0 all w →
  for_each find_param_step st (enumerate_from k l) w = (w', Ok st') →
  ∃ docs, Forall2 (λ q p, fs0 !! q = Some p) l docs ∧
    catalog_files (found st') =
      (catalog_files (found st) ++ concat (catalogs_of <$> docs))%list ∧
    untouched fs0 all w'.
Proof.
  induction l as [|q l IH]; intros k st w w' st' Hall Hw Hrun.
  - apply io_ret_Ok in Hrun as [-> ->]. exists []. simpl.
    rewrite app_nil_r. by split; [constructor|].
  - rewrite enumerate_from_cons in Hrun.
    apply for_each_cons_Ok in Hrun as (s1 & b & w1 & Hstep & Hrest).
    pose proof (find_param_step_continues _ _ _ _ _ _ Hstep) as ->.
    assert (Hq : q ∈ all) by (apply Hall; by left).
    apply find_param_step_spec in Hstep as (p & Hp & Hcat & _ & _ & Hmode).
    assert (Hw1 : untouched fs0 all w1).
    { destruct Hmode as [(_ & _ & _ & _ & _ & _ & -> & _)|(_ & _ & _ & Hmode)]; [done|].
      case_bool_decide.
      - destruct Hmode as [-> _]. by apply untouched_write.
      - by destruct Hmode as [-> _]. }
    apply IH in Hrest as (docs & Hdocs & Hcats & Hw'); [|intros; apply Hall; by right|done].
    exists (p :: docs). split; [|split; [|done]].
    + constructor; [|done]. by rewrite <- (Hw q Hq).
    + rewrite Hcats, Hcat. simpl. by rewrite <- app_assoc.
Qed.

End Catalogs.

(** The catalogs of a constructed object are those of all the files given,
    in the order given - the files of a mode that is not dispersed
    included -, without the entries ['none'] (in any letter case), when no
    file given bears the name of the rewritten copy of another. *)
Theorem catalogs_collected (pf : paramfiles_arg) (ins : UserInputs) (ccs : bool)
    (w w' : world) (self : WFSSSim) :
  (∀ q q', q ∈ supplied pf → q' ∈ supplied pf → modified_file q ≠ q') →
  init pf ins ccs w = (w', Ok self) →
  ∃ docs, Forall2 (λ q p, yaml_files w !! q = Some p) (supplied pf) docs ∧
    catalog_files (info self) =
      concat ((λ p, filter (λ e, lower e ≠ "none") (simSignals_catalogs p)) <$> docs).
Proof.
  intros Hclash Hinit. apply init_inv in Hinit as (_ & _ & Hfind & _).
  unfold find_param_info in Hfind.
  apply io_bind_Ok in Hfind as (st & w1 & Hloop & Hrun).
  case_bool_decide as Hfound; [done|].
  apply io_ret_Ok in Hrun as [Heq ->]. injection Heq as _ Hf.
  rewrite enumerate_from_0 in Hloop.
  apply (find_param_loop_catalogs (yaml_files w) (supplied pf) Hclash) in Hloop
    as (docs & Hdocs & Hcats & _); [|done|done].
  exists docs. split; [done|]. by rewrite Hf, Hcats.
Qed.

Lemma catalogs_collected_witness :
  ∃ w' self,
    init (FileList ["/in/img.yaml"; "/in/wfss.yaml"]) Bench.defaults false Bench.disk
      = (w', Ok self) ∧
    catalog_files (info self) = ["ext.cat"; "ptsrc.cat"].
Proof.
  destruct (init (FileList ["/in/img.yaml"; "/in/wfss.yaml"]) Bench.defaults false Bench.disk)
    as [w' [self|e]] eqn:Hinit; [|by vm_compute in Hinit].
  exists w', self. split; [done|].
  assert (Hclash : ∀ q q', q ∈ ["/in/img.yaml"; "/in/wfss.yaml"] →
                           q' ∈ ["/in/img.yaml"; "/in/wfss.yaml"] → modified_file q ≠ q').
  { intros q q' Hq Hq' Heq.
    apply elem_of_cons in Hq as [->|Hq]; [|apply list_elem_of_singleton in Hq as ->];
      (apply elem_of_cons in Hq' as [->|Hq']; [|apply list_elem_of_singleton in Hq' as ->]);
      by vm_compute in Heq. }
  destruct (catalogs_collected (FileList ["/in/img.yaml"; "/in/wfss.yaml"]) _ _ _ _ _
              Hclash Hinit) as (docs & Hdocs & ->).
  apply Forall2_cons_inv_l in Hdocs as (p1 & docs1 & Hp1 & Hdocs & ->).
  apply Forall2_cons_inv_l in Hdocs as (p2 & docs2 & Hp2 & Hdocs & ->).
  apply Forall2_nil_inv_l in Hdocs as ->.
  vm_compute in Hp1, Hp2. injection Hp1 as <-. injection Hp2 as <-.
  reflexivity.
Defined.

(** ** What the constructor leaves alone *)

(** The change the constructor makes to the world, with the files [all]
    given: the environment, the events and the files that are not yaml
    files are as they were, and so is every yaml file but those that now
    hold the copy of a file given, rewritten for wfss mode, under the name
    of such a copy. *)
Definition only_copies (all : list string) (w w' : world) : Prop :=
  environ w' = environ w ∧ data_files w' = data_files w ∧ events w' = events w ∧
  ∀ q, yaml_files w' !! q = yaml_files w !! q ∨
       ((∃ q0, q0 ∈ all ∧ q = modified_file q0) ∧ rewritten w' q).

Lemma only_copies_refl all w : only_copies all w w.
Proof. repeat split; try done. by left. Qed.

Lemma only_copies_trans all w1 w2 w3 :
  only_copies all w1 w2 → only_copies all w2 w3 → only_copies all w1 w3.
Proof.
  intros (He & Hd & Hv & Hy) (He' & Hd' & Hv' & Hy').
  split; [congruence|]. split; [congruence|]. split; [congruence|].
  intros q. destruct (Hy' q) as [Heq|Hcopy]; [|by right].
  destruct (Hy q) as [Heq0|[Hname Hcopy]]; [left; congruence|].
  right. split; [done|]. unfold rewritten in *. by rewrite Heq.
Qed.

Lemma only_copies_mono all all' w w' :
  (∀ q, q ∈ all → q ∈ all') → only_copies all w w' → only_copies all' w w'.
Proof.
  intros Hsub (He & Hd & Hv & Hy). repeat split; try done.
  intros q. destruct (Hy q) as [Heq|[(q0 & Hq0 & ->) Hcopy]]; [by left|].
  right. split; [|done]. exists q0. auto.
Qed.

Lemma only_copies_write all w q p :
  q ∈ all → only_copies all w (write_yaml (modified_file q) (update_to_wfss_mode p) w).
Proof.
  intros Hq. repeat split; try done. intros q'.
  destruct (decide (q' = modified_file q)) as [->|Hne].
  - right. split; [by exists q|]. apply rewritten_write_eq.
  - left. unfold write_yaml; simpl. by rewrite lookup_insert_ne.
Qed.

(** One round of the loop, whatever its outcome. *)
Lemma find_param_step_frame all st k q w :
  q ∈ all → only_copies all w (find_param_step st (k, q) w).1.
Proof.
  intros Hq. rewrite find_param_step_unfold.
  destruct (yaml_files w !! q) as [p|]; [|apply only_copies_refl].
  destruct (after_first_block k p (found st)) as [f|]; [|apply only_copies_refl].
  destruct (String.eqb (mode_of p) "wfss").
  - case_bool_decide; [apply only_copies_refl|].
    destruct (wfss_file_info p _); apply only_copies_refl.
  - case_bool_decide; [by apply only_copies_write | apply only_copies_refl].
Qed.

Lemma for_each_cons_unfold {A S} (body : S → A → io (S * bool)) s x l w :
  for_each body s (x :: l) w =
  match body s x w with
  | (w1, Ok (s1, true)) => for_each body s1 l w1
  | (w1, Ok (s1, false)) => (w1, Ok s1)
  | (w1, Raise e) => (w1, Raise e)
  end.
Proof.
  simpl. unfold mbind, io_bind.
  destruct (body s x w) as [w1 [[s1 [|]]|e]]; done.
Qed.

Lemma find_param_loop_frame all l : ∀ k st w,
  (∀ q, q ∈ l → q ∈ all) →
  only_copies all w (for_each find_param_step st (enumerate_from k l) w).1.
Proof.
  induction l as [|q l IH]; intros k st w Hall; [apply only_copies_refl|].
  rewrite enumerate_from_cons, for_each_cons_unfold.
  pose proof (find_param_step_frame all st k q w (Hall q ltac:(by left))) as Hstep.
  destruct (find_param_step st (k, q) w) as [w1 [[s1 [|]]|e]]; simpl in *; try done.
  eapply only_copies_trans; [exact Hstep|]. apply IH. intros; apply Hall; by right.
Qed.

Lemma find_param_info_frame pfiles w :
  only_copies pfiles w (find_param_info pfiles w).1.
Proof.
  unfold find_param_info, mbind, io_bind. rewrite enumerate_from_0.
  pose proof (find_param_loop_frame pfiles pfiles 0 (mkFind no_info [] 0) w (λ q H, H))
    as Hloop.
  destruct (for_each _ _ _ _) as [w1 [st|e]]; simpl in *; [|done].
  by case_bool_decide.
Qed.

(** Whether it returns an object or raises, the constructor changes
    nothing in the world but the rewritten copies it saves: the
    environment, the events, the other files and every yaml file that is
    not such a copy are as they were, and no file is removed. *)
Theorem constructor_writes_only_copies (pf : paramfiles_arg) (ins : UserInputs)
    (ccs : bool) (w : world) :
  let w' := (init pf ins ccs w).1 in
  environ w' = environ w ∧ data_files w' = data_files w ∧ events w' = events w ∧
  (∀ q, yaml_files w' !! q = yaml_files w !! q ∨
        ((∃ q0, q0 ∈ supplied pf ∧ q = modified_file q0) ∧ rewritten w' q)) ∧
  (∀ q, is_Some (yaml_files w !! q) → is_Some (yaml_files w' !! q)).
Proof.
  cbn zeta.
  assert (H : only_copies (supplied pf) w (init pf ins ccs w).1).
  { unfold init, mbind, io_bind, get_world, lift. simpl.
    destruct (environ w !! "MIRAGE_DATA") as [datadir0|]; [|apply only_copies_refl].
    destruct (param_checks _ _); [|apply only_copies_refl].
    pose proof (find_param_info_frame (supplied pf) w) as Hfind.
    destruct (find_param_info (supplied pf) w) as [w1 [[yamls f]|e]]; simpl in *; [|done].
    unfold check_inputs. by destruct (_ ≫= _). }
  destruct H as (He & Hd & Hv & Hy). do 4 (split; [done|]).
  intros q Hq. destruct (Hy q) as [->|[_ (p & -> & _)]]; [done|by eexists].
Qed.

(** ** The errors of the constructor *)

Lemma io_bind_Raise {A B} (m : io A) (f : A → io B) w w' e :
  (m ≫= f) w = (w', Raise e) →
  m w = (w', Raise e) ∨ ∃ a w1, m w = (w1, Ok a) ∧ f a w1 = (w', Raise e).
Proof.
  unfold mbind, io_bind. destruct (m w) as [w1 [a|e1]]; [|by intros [= -> ->]; left].
  intros Hf. right. by exists a, w1.
Qed.

Lemma bind_Raise_inv {A B} (m : result A) (f : A → result B) e :
  m ≫= f = Raise e → m = Raise e ∨ ∃ a, m = Ok a ∧ f a = Raise e.
Proof.
  destruct m as [a|e1]; simpl; [|by intros [= ->]; left]. intros Hf. right. by exists a.
Qed.

Lemma str_index_Raise s i e : str_index s i = Raise e → e = IndexError.
Proof. unfold str_index. destruct (String.get i s); congruence. Qed.

Lemma str_last_Raise s e : str_last s = Raise e → e = IndexError.
Proof.
  unfold str_last. destruct s; [congruence|]. apply str_index_Raise.
Qed.

(** The errors of one round of the loop. *)
Lemma find_param_step_Raise st k q w w' e :
  (k = 0 ∨ is_Some (instrument (found st))) →
  find_param_step st (k, q) w = (w', Raise e) →
  e = FileNotFoundError q ∨ e = IndexError ∨ e = two_wfss_error.
Proof.
  intros Hk. rewrite find_param_step_unfold.
  destruct (yaml_files w !! q) as [p|]; [|intros [= _ <-]; by left].
  destruct (after_first_block k p (found st)) as [f|e1] eqn:Ef.
  - apply after_first_block_attrs in Ef as (_ & _ & Hk0 & Hnz).
    assert (Hinst : is_Some (instrument f)).
    { destruct (decide (k = 0)) as [Hz|Hz].
      - destruct (Hk0 Hz) as (-> & _). by eexists.
      - destruct (Hnz Hz) as (-> & _). by destruct Hk. }
    destruct (String.eqb (mode_of p) "wfss"); [|case_bool_decide; done].
    case_bool_decide; [intros [= _ <-]; auto|].
    destruct (wfss_file_info p _) as [f'|e2] eqn:Ef'; [done|].
    intros [= _ <-]. right. left.
    unfold wfss_file_info in Ef'. simpl in Ef'.
    destruct Hinst as [inst Hinst]. rewrite Hinst in Ef'. simpl in Ef'.
    destruct (String.eqb inst "niriss").
    { apply bind_Raise_inv in Ef' as [Ef'|(d & _ & Ef')]; [|done].
      by apply str_last_Raise in Ef'. }
    destruct (String.eqb inst "nircam"); [|done].
    apply bind_Raise_inv in Ef' as [Ef'|(d & _ & Ef')]; [|done].
    by apply str_last_Raise in Ef'.
  - intros [= _ <-]. right. left.
    unfold after_first_block in Ef. case_bool_decide; [|done].
    unfold first_file_info in Ef.
    destruct (String.eqb _ "niriss"); [done|].
    destruct (String.eqb _ "nircam"); [|done].
    apply bind_Raise_inv in Ef as [Ef|(d & _ & Ef)]; [|done].
    by apply str_index_Raise in Ef.
Qed.

Lemma find_param_step_instrument st k q w w' st' b :
  (k = 0 ∨ is_Some (instrument (found st))) →
  find_param_step st (k, q) w = (w', Ok (st', b)) →
  is_Some (instrument (found st')).
Proof.
  intros Hk Hstep.
  apply find_param_step_spec in Hstep as (p & _ & _ & Hk0 & Hnz & _).
  destruct (decide (k = 0)) as [Hz|Hz].
  - destruct (Hk0 Hz) as (-> & _). by eexists.
  - destruct (Hnz Hz) as (-> & _). by destruct Hk.
Qed.

Lemma find_param_loop_Raise l : ∀ k st w w' e,
  (k = 0 ∨ is_Some (instrument (found st))) →
  for_each find_param_step st (enumerate_from k l) w = (w', Raise e) →
  (∃ q, q ∈ l ∧ e = FileNotFoundError q) ∨ e = IndexError ∨ e = two_wfss_error.
Proof.
  induction l as [|q l IH]; intros k st w w' e Hk Hrun; [done|].
  rewrite enumerate_from_cons, for_each_cons_unfold in Hrun.
  destruct (find_param_step st (k, q) w) as [w1 [[s1 b]|e1]] eqn:Hstep.
  - pose proof (find_param_step_continues _ _ _ _ _ _ Hstep) as ->.
    apply find_param_step_instrument in Hstep; [|done].
    apply IH in Hrun as [(q' & Hq' & ->)|Hrun]; [|auto|auto].
    left. exists q'. split; [by right|done].
  - injection Hrun as _ <-.
    apply find_param_step_Raise in Hstep as [->|Hstep]; [|auto|done].
    left. exists q. split; [by left|done].
Qed.

Lemma check_member_Raise field value allowed e :
  check_member field value allowed = Raise e →
  (value ∉ allowed) ∧
  e = ValueError ("WARNING: invalid value for " +:+ field +:+ ": " +:+ value).
Proof.
  unfold check_member, invalid. case_bool_decide; [done|]. by intros [= <-].
Qed.

Lemma check_darks_Raise w dark e :
  check_darks w dark = Raise e →
  ∃ f, os_path_isfile w f = false ∧
       e = FileNotFoundError ("WARNING: " +:+ f +:+ " does not exist.").
Proof.
  unfold check_darks.
  destruct (list_find _ _) as [[i f]|] eqn:Efind; [|done]. intros [= <-].
  apply list_find_Some in Efind as (_ & Hf & _). by exists f.
Qed.

(** The errors of [check_inputs] on what [find_param_info] returns. *)
Lemma check_inputs_Raise f dark w w' e p0 p :
  first_attrs p0 f → wfss_attrs p f →
  check_inputs f dark w = (w', Raise e) →
  (∃ field value,
     e = ValueError ("WARNING: invalid value for " +:+ field +:+ ": " +:+ value)) ∨
  (∃ d, os_path_isfile w d = false ∧
        e = FileNotFoundError ("WARNING: " +:+ d +:+ " does not exist.")).
Proof.
  intros (Hinst & Hniriss & Hnircam) (_ & _ & Hwn & Hwc).
  unfold check_inputs. intros [= <- Hr].
  rewrite Hinst in Hr. simpl in Hr.
  apply bind_Raise_inv in Hr as [Hr|(u1 & Hin & Hr)].
  { apply check_member_Raise in Hr as [_ ->]. left. by eexists _, _. }
  apply check_member_Ok in Hin.
  assert (Htail : ∀ f1 : ParamInfo,
    is_Some (dispersion_direction f1) →
    (dd ← attr "dispersion_direction" (dispersion_direction f1);
     _ ← check_member "dispersion_direction" dd ["R"; "C"];
     _ ← check_darks w dark; Ok f1) = Raise e →
    (∃ field value,
       e = ValueError ("WARNING: invalid value for " +:+ field +:+ ": " +:+ value)) ∨
    (∃ d, os_path_isfile w d = false ∧
          e = FileNotFoundError ("WARNING: " +:+ d +:+ " does not exist."))).
  { intros f1 [dd Hdd] Ht. rewrite Hdd in Ht. simpl in Ht.
    apply bind_Raise_inv in Ht as [Ht|(u2 & _ & Ht)].
    { apply check_member_Raise in Ht as [_ ->]. left. by eexists _, _. }
    apply bind_Raise_inv in Ht as [Ht|(u3 & _ & Ht)]; [|done].
    right. by apply check_darks_Raise in Ht. }
  apply elem_of_cons in Hin as [Hi|Hin].
  - rewrite Hi in *. simpl in Hr.
    destruct (Hnircam eq_refl) as (m & _ & Hm & _).
    destruct (Hwc Hinst) as (Hcf & d & _ & Hdd).
    rewrite Hm in Hr. simpl in Hr.
    destruct (check_member "module" m ["A"; "B"]) as [u|e1] eqn:Em; simpl in Hr.
    2:{ injection Hr as <-. apply check_member_Raise in Em as [_ ->].
        left. by eexists _, _. }
    rewrite Hcf in Hr. simpl in Hr.
    destruct (check_member "crossing_filter" _ _) as [u'|e1] eqn:Ec; simpl in Hr.
    2:{ injection Hr as <-. apply check_member_Raise in Ec as [_ ->].
        left. by eexists _, _. }
    apply (Htail (set_module (upper m) f)); [simpl; rewrite Hdd; by eexists|done].
  - apply list_elem_of_singleton in Hin. rewrite Hin in *. simpl in Hr.
    destruct (Hwn Hinst) as (Hcf & d & _ & Hdd).
    rewrite Hcf in Hr. simpl in Hr.
    destruct (check_member "crossing_filter" _ _) as [u'|e1] eqn:Ec; simpl in Hr.
    2:{ injection Hr as <-. apply check_member_Raise in Ec as [_ ->].
        left. by eexists _, _. }
    apply (Htail f); [rewrite Hdd; by eexists|done].
Qed.

(** The errors the constructor can raise: the [ValueError] for an
    environment without [MIRAGE_DATA], for a file of spectra given with
    several parameter files, for a second wfss mode file or for none, and
    for an instrument, a module, a crossing filter or a dispersion direction
    that is not allowed; the [FileNotFoundError] for a parameter file given
    or for a dark file that is not there; the [IndexError] for an aperture,
    filter or pupil name that is too short. It raises nothing else: no
    attribute is read before it is set. *)
Theorem constructor_errors (pf : paramfiles_arg) (ins : UserInputs) (ccs : bool)
    (w w' : world) (e : exn) :
  init pf ins ccs w = (w', Raise e) →
  e = env_error ∨
  param_checks (supplied pf) (in_SED_file ins) = Raise e ∨
  (∃ q, q ∈ supplied pf ∧ e = FileNotFoundError q) ∨
  e = IndexError ∨ e = two_wfss_error ∨ e = no_wfss_error ∨
  (∃ field value,
     e = ValueError ("WARNING: invalid value for " +:+ field +:+ ": " +:+ value)) ∨
  (∃ d, os_path_isfile w' d = false ∧
        e = FileNotFoundError ("WARNING: " +:+ d +:+ " does not exist.")).
Proof.
  unfold init. intros Hrun.
  apply io_bind_Raise in Hrun as [Hrun|(w0 & w1 & Hget & Hrun)]; [done|].
  unfold get_world in Hget. injection Hget as <- <-.
  destruct (environ w !! "MIRAGE_DATA") as [datadir0|]; [|injection Hrun as _ <-; auto].
  apply io_bind_Raise in Hrun as [Hrun|(u & w1 & Hchk & Hrun)].
  { injection Hrun as _ Hrun. auto. }
  apply lift_Ok in Hchk as [_ ->].
  apply io_bind_Raise in Hrun as [Hrun|([yamls f0] & w1 & Hfind & Hrun)].
  - unfold find_param_info in Hrun.
    apply io_bind_Raise in Hrun as [Hrun|(st & w1 & Hloop & Hrun)].
    + rewrite enumerate_from_0 in Hrun.
      apply find_param_loop_Raise in Hrun as [Hq|[->| ->]]; auto 10.
    + case_bool_decide; [|done]. injection Hrun as _ <-. auto 10.
  - apply io_bind_Raise in Hrun as [Hrun|(f & w2 & _ & Hrun)]; [|done].
    apply find_param_info_attrs in Hfind as (q0 & rest & p0 & p & _ & _ & Hfirst & _ & Hattrs).
    pose proof Hrun as Hw. unfold check_inputs in Hw. injection Hw as Hw _. subst w1.
    apply (check_inputs_Raise _ _ _ _ _ _ _ Hfirst Hattrs) in Hrun as [Hrun|Hrun]; auto 10.
Qed.

Lemma constructor_errors_witness :
  ∃ w' e,
    init (FileList ["/in/img.yaml"; "/in/none.yaml"]) Bench.defaults false Bench.disk
      = (w', Raise e) ∧
    e = FileNotFoundError "/in/none.yaml".
Proof.
  destruct (init (FileList ["/in/img.yaml"; "/in/none.yaml"]) Bench.defaults false Bench.disk)
    as [w' [self|e]] eqn:Hinit; [by vm_compute in Hinit|].
  pose proof (constructor_errors _ _ _ _ _ _ Hinit) as Herr.
  exists w', e. split; [done|].
  destruct Herr as [H|[H|[H|[H|[H|[H|[H|H]]]]]]];
    vm_compute in Hinit; by injection Hinit as _ <-.
Defined.

(** ** A parameter file that is not there *)

(** A parameter file that is not on disk stops the constructor with a
    [FileNotFoundError] that names it, when the files before it are in
    order; the rewritten copies of the imaging and pom mode files among
    those are on disk all the same. *)
Theorem missing_parameter_file (pre : list string) (q : string) (post : list string)
    (w : world) :
  (∀ q', q' ∈ pre → ∃ p, yaml_files w !! q' = Some p ∧ doc_ok p) →
  (∀ q1 q2, q1 ∈ pre → q2 ∈ q :: pre → modified_file q1 ≠ q2) →
  length (filter (λ q', wfss_file (yaml_files w) q' = true) pre) ≤ 1 →
  yaml_files w !! q = None →
  ∃ w1,
    find_param_info (pre ++ q :: post) w = (w1, Raise (FileNotFoundError q)) ∧
    Forall (rewritten w1)
      (modified_file <$> filter (λ q', direct_file (yaml_files w) q' = true) pre) ∧
    ∀ q', q' ∈ pre → yaml_files w1 !! q' = yaml_files w !! q'.
Proof.
  intros Hload Hclash Hone Hq.
  assert (Hclash' : ∀ q1 q2, q1 ∈ pre → q2 ∈ pre → modified_file q1 ≠ q2).
  { intros q1 q2 H1 H2. apply Hclash; [done|by right]. }
  pose proof (find_param_loop_run (yaml_files w) pre Hload Hclash' pre 0
                (mkFind no_info [] 0) w [] (λ q Hq, Hq) (λ q Hq, eq_refl)
                (or_introl eq_refl) (Nat.le_0_1) (Forall_nil_2 _)) as Hloop.
  cbn zeta in Hloop. cbn [wfss_files_found yamls_to_disperse] in Hloop.
  rewrite decide_True in Hloop by (simpl; lia).
  destruct Hloop as (w1 & st & Hrun & Hw1 & _ & _ & _ & Hcopies).
  exists w1. split; [|split; [done|exact Hw1]].
  pose proof (find_param_loop_frame pre pre 0 (mkFind no_info [] 0) w (λ q H, H)) as Hframe.
  rewrite Hrun in Hframe. simpl in Hframe. destruct Hframe as (_ & _ & _ & Hy).
  assert (Hq1 : yaml_files w1 !! q = None).
  { destruct (Hy q) as [->|[(q0 & Hq0 & ->) _]]; [done|].
    exfalso. apply (Hclash q0 (modified_file q0)); [done|by left|done]. }
  unfold find_param_info. rewrite enumerate_from_0, enumerate_from_app, enumerate_from_cons.
  apply io_bind_raise.
  rewrite (for_each_app _ _ _ _ _ _ _ find_param_step_continues Hrun).
  apply for_each_cons_raise. by rewrite find_param_step_unfold, Hq1.
Qed.

Lemma missing_parameter_file_witness :
  ∃ w1,
    find_param_info ["/in/img.yaml"; "/in/none.yaml"; "/in/wfss.yaml"] Bench.disk
      = (w1, Raise (FileNotFoundError "/in/none.yaml")) ∧
    rewritten w1 "/in/tmp_update_to_wfss_mode_img.yaml".
Proof.
  destruct (missing_parameter_file ["/in/img.yaml"] "/in/none.yaml" ["/in/wfss.yaml"]
              Bench.disk) as (w1 & Hrun & Hcopies & _).
  - intros q' Hq'. apply list_elem_of_singleton in Hq' as ->.
    exists Bench.niriss_imaging. split; [by vm_compute|].
    split; [simpl; lia|]. by split.
  - intros q1 q2 Hq1 Hq2 Heq. apply list_elem_of_singleton in Hq1 as ->.
    apply elem_of_cons in Hq2 as [->|Hq2]; [by vm_compute in Heq|].
    apply list_elem_of_singleton in Hq2 as ->. by vm_compute in Heq.
  - vm_compute. lia.
  - by vm_compute.
  - exists w1. split; [exact Hrun|].
    exact (proj1 (Forall_singleton _ _) Hcopies).
Defined.

(** ** The files of a constructed object *)

(** The files kept for dispersion are on disk in wfss mode. *)
Definition kept_as_wfss (w : world) (yamls : list string) : Prop :=
  Forall (λ y, ∃ p, yaml_files w !! y = Some p ∧ mode_of p = "wfss") yamls.

Lemma mode_of_update p : mode_of (update_to_wfss_mode p) = "wfss".
Proof. done. Qed.

Lemma find_param_step_kept st k q w w' st' b :
  kept_as_wfss w (yamls_to_disperse st) →
  find_param_step st (k, q) w = (w', Ok (st', b)) →
  kept_as_wfss w' (yamls_to_disperse st').
Proof.
  intros Hkept Hstep.
  apply find_param_step_spec in Hstep as (p & Hp & _ & _ & _ & Hmode).
  destruct Hmode as [(Hm & _ & _ & _ & _ & _ & -> & ->)|(_ & _ & _ & Hmode)].
  - constructor; [by exists p|done].
  - case_bool_decide; destruct Hmode as [-> ->]; [|done].
    apply Forall_app. split.
    + eapply Forall_impl; [exact Hkept|]. simpl. intros y (py & Hy & Hpy).
      unfold write_yaml; simpl. destruct (decide (modified_file q = y)) as [->|Hne].
      * rewrite lookup_insert_eq. by eexists.
      * rewrite lookup_insert_ne by done. by eexists.
    + apply Forall_singleton. unfold write_yaml; simpl.
      rewrite lookup_insert_eq. by eexists.
Qed.

Lemma find_param_loop_kept l : ∀ k st w w' st',
  kept_as_wfss w (yamls_to_disperse st) →
  for_each find_param_step st (enumerate_from k l) w = (w', Ok st') →
  kept_as_wfss w' (yamls_to_disperse st').
Proof.
  induction l as [|q l IH]; intros k st w w' st' Hkept Hrun.
  - by apply io_ret_Ok in Hrun as [-> ->].
  - rewrite enumerate_from_cons in Hrun.
    apply for_each_cons_Ok in Hrun as (s1 & b & w1 & Hstep & Hrest).
    pose proof (find_param_step_continues _ _ _ _ _ _ Hstep) as ->.
    eapply IH; [|exact Hrest]. by eapply find_param_step_kept.
Qed.

Lemma find_param_info_kept pfiles w w' yamls f :
  find_param_info pfiles w = (w', Ok (yamls, f)) → kept_as_wfss w' yamls.
Proof.
  unfold find_param_info. intros Hrun.
  apply io_bind_Ok in Hrun as (st & w1 & Hloop & Hrun).
  case_bool_decide; [done|].
  apply io_ret_Ok in Hrun as [Heq ->]. injection Heq as -> _.
  rewrite enumerate_from_0 in Hloop.
  eapply find_param_loop_kept; [|exact Hloop]. constructor.
Qed.

(** Two wfss mode files at the head of the list stop [find_param_info]. *)
Lemma two_wfss_files_fail y1 y2 rest w p1 p2 w' r :
  yaml_files w !! y1 = Some p1 → mode_of p1 = "wfss" →
  yaml_files w !! y2 = Some p2 → mode_of p2 = "wfss" →
  find_param_info (y1 :: y2 :: rest) w = (w', r) → ∃ e, r = Raise e.
Proof.
  intros Hp1 Hm1 Hp2 Hm2 Hrun.
  destruct r as [[yamls f]|e]; [exfalso|by exists e].
  unfold find_param_info in Hrun.
  apply io_bind_Ok in Hrun as (st & w1 & Hloop & _).
  rewrite enumerate_from_0, !enumerate_from_cons in Hloop.
  apply for_each_cons_Ok in Hloop as (s1 & b1 & w2 & Hstep1 & Hrest).
  pose proof (find_param_step_continues _ _ _ _ _ _ Hstep1) as ->.
  apply for_each_cons_Ok in Hrest as (s2 & b2 & w3 & Hstep2 & _).
  apply find_param_step_spec in Hstep1 as (p & Hp & _ & _ & _ & Hmode1).
  rewrite Hp1 in Hp. injection Hp as <-.
  destruct Hmode1 as [(_ & _ & Hcnt & _ & _ & _ & -> & _)|(Hne & _)]; [|done].
  apply find_param_step_spec in Hstep2 as (p & Hp & _ & _ & _ & Hmode2).
  rewrite Hp2 in Hp. injection Hp as <-.
  destruct Hmode2 as [(_ & Hone & _)|(Hne & _)]; [|done].
  simpl in Hcnt. lia.
Qed.

(** When the constructor returns, every file of [self.paramfiles] is on
    disk in wfss mode: the wfss mode file given and the rewritten copies.
    So that list, when it holds two files or more, cannot be given to the
    constructor again: only one wfss mode file is allowed. *)
Theorem constructed_files_are_wfss (pf : paramfiles_arg) (ins : UserInputs) (ccs : bool)
    (w w' : world) (self : WFSSSim) :
  init pf ins ccs w = (w', Ok self) →
  Forall (λ y, ∃ p, yaml_files w' !! y = Some p ∧ mode_of p = "wfss") (paramfiles self) ∧
  (2 ≤ length (paramfiles self) →
   ∀ ins' ccs' w'' r,
     init (FileList (paramfiles self)) ins' ccs' w' = (w'', r) → ∃ e, r = Raise e).
Proof.
  intros Hinit. apply init_inv in Hinit as (_ & _ & Hfind & _).
  apply find_param_info_kept in Hfind as Hkept. split; [exact Hkept|].
  intros Hlen ins' ccs' w'' r Hagain.
  destruct r as [self'|e]; [exfalso|by exists e].
  apply init_inv in Hagain as (_ & _ & Hfind' & _). simpl in Hfind'.
  destruct (paramfiles self) as [|y1 [|y2 rest]]; simpl in Hlen; [lia|lia|].
  apply Forall_cons_1 in Hkept as [(p1 & Hp1 & Hm1) Hkept].
  apply Forall_cons_1 in Hkept as [(p2 & Hp2 & Hm2) _].
  by destruct (two_wfss_files_fail _ _ _ _ _ _ _ _ Hp1 Hm1 Hp2 Hm2 Hfind').
Qed.

Lemma constructed_files_are_wfss_witness :
  ∃ w' self e,
    init (FileList ["/in/img.yaml"; "/in/wfss.yaml"]) Bench.defaults false Bench.disk
      = (w', Ok self) ∧
    init (FileList (paramfiles self)) Bench.defaults false w' = (w', Raise e).
Proof.
  destruct (init (FileList ["/in/img.yaml"; "/in/wfss.yaml"]) Bench.defaults false Bench.disk)
    as [w' [self|e]] eqn:Hinit; [|by vm_compute in Hinit].
  destruct (constructed_files_are_wfss _ _ _ _ _ _ Hinit) as [_ Hagain].
  destruct (init (FileList (paramfiles self)) Bench.defaults false w') as [w'' r] eqn:Hrun.
  destruct (Hagain ltac:(vm_compute in Hinit; injection Hinit as <- <-; simpl; lia)
              _ _ _ _ Hrun) as [e ->].
  exists w', self, e. split; [done|].
  rewrite Hrun. f_equal.
  vm_compute in Hinit. injection Hinit as <- <-.
  vm_compute in Hrun. injection Hrun as <- _. reflexivity.
Defined.

(** * More on [create] *)

(** ** The direct seed images *)

Section SeedImages.

Context {collab : Collaborators}.

Lemma make_seeds_loop self w l : ∀ s,
  let files := if create_continuum_seds self then take 1 l else l in
  let cats := make_seed (offline (inputs self)) (yaml_files w) <$> files in
  for_each (seed_step self) s l w =
  (w, Ok (mkSeeds (imseeds s ++ (seed_file <$> cats))
            (ptsrc_seeds s ++ (ptsrc_seed_filename <$> cats))
            (galaxy_seeds s ++ (galaxy_seed_filename <$> cats))
            (extended_seeds s ++ (extended_seed_filename <$> cats))
            (from_option Some (cat s) (last cats)))).
Proof.
  induction l as [|pfile l IH]; intros s; cbn zeta.
  - destruct (create_continuum_seds self); simpl; rewrite !app_nil_r; by destruct s.
  - cbn [for_each]. unfold mbind, io_bind.
    unfold seed_step at 1, mbind, io_bind, get_world, mret, io_ret.
    destruct (create_continuum_seds self) eqn:Eccs; cbn [negb].
    + simpl. by rewrite ?take_0.
    + rewrite IH. cbn zeta. rewrite ?Eccs. simpl.
      rewrite <- !app_assoc. simpl. do 3 f_equal.
      rewrite last_cons. by destruct (last _).
Qed.

(** The loop over the parameter files makes one direct seed image when
    [create_continuum_seds] is True, from the first file of the list, and
    one per file, in the order of the list, when it is False; the catalog
    object the rest of [create] reads is the last one made. *)
Theorem seed_images_made (self : WFSSSim) (w : world) :
  let files := if create_continuum_seds self then take 1 (paramfiles self)
               else paramfiles self in
  let cats := make_seed (offline (inputs self)) (yaml_files w) <$> files in
  make_seeds self w =
  (w, Ok (mkSeeds (seed_file <$> cats) (ptsrc_seed_filename <$> cats)
            (galaxy_seed_filename <$> cats) (extended_seed_filename <$> cats)
            (last cats))).
Proof.
  cbn zeta. unfold make_seeds. rewrite make_seeds_loop. cbn zeta. simpl.
  by destruct (last _).
Qed.

End SeedImages.

(** ** What [create] leaves alone *)

(** Computations that change the world within a relation. *)
Definition keeps {A} (R : world → world → Prop) (m : io A) : Prop :=
  ∀ w, R w (m w).1.

Section Keeps.

Variable R : world → world → Prop.
Hypothesis R_refl : ∀ w, R w w.
Hypothesis R_trans : ∀ w1 w2 w3, R w1 w2 → R w2 w3 → R w1 w3.

Lemma keeps_ret {A} (a : A) : keeps R (mret a).
Proof. intros w. apply R_refl. Qed.

Lemma keeps_lift {A} (r : result A) : keeps R (lift r).
Proof. intros w. apply R_refl. Qed.

Lemma keeps_bind {A B} (m : io A) (f : A → io B) :
  keeps R m → (∀ a w w1, m w = (w1, Ok a) → keeps R (f a)) → keeps R (m ≫= f).
Proof.
  intros Hm Hf w. unfold mbind, io_bind. specialize (Hm w).
  destruct (m w) as [w1 [a|e]] eqn:E; simpl in *; [|done].
  eapply R_trans; [exact Hm|]. by eapply Hf.
Qed.

Lemma keeps_for_each {A S} (body : S → A → io (S * bool)) l : ∀ s,
  (∀ s x, keeps R (body s x)) → keeps R (for_each body s l).
Proof.
  induction l as [|x l IH]; intros s Hbody; [apply keeps_ret|].
  cbn [for_each]. apply keeps_bind; [apply Hbody|].
  intros [s1 [|]] w w1 _; [by apply IH | apply keeps_ret].
Qed.

End Keeps.

(** The name under which the dispersed seed image is saved. *)
Definition disp_seed_filename (self : WFSSSim) : option string :=
  match in_disp_seed_filename (inputs self) with
  | Some fn => Some fn
  | None => default_dispersed_filename (info self)
  end.

(** The events of a run of [create]: calls of the dispersers, and the two
    files it may write. *)
Definition event_of_create (self : WFSSSim) (e : event) : Prop :=
  match e with
  | EvFinalize _ _ _ => True
  | EvWriteFits fn _ =>
      background_image_filename (info self) = Some fn ∨ disp_seed_filename self = Some fn
  end.

Definition create_change (self : WFSSSim) (w w' : world) : Prop :=
  environ w' = environ w ∧ yaml_files w' = yaml_files w ∧ data_files w' = data_files w ∧
  ∃ new_events, events w' = (events w ++ new_events)%list ∧
                Forall (event_of_create self) new_events.

Lemma create_change_refl self w : create_change self w w.
Proof. repeat split; try done. exists []. by rewrite app_nil_r. Qed.

Lemma create_change_trans self w1 w2 w3 :
  create_change self w1 w2 → create_change self w2 w3 → create_change self w1 w3.
Proof.
  intros (He & Hy & Hd & n1 & Hn1 & Hall1) (He' & Hy' & Hd' & n2 & Hn2 & Hall2).
  split; [congruence|]. split; [congruence|]. split; [congruence|].
  exists (n1 ++ n2)%list. split; [by rewrite Hn2, Hn1, app_assoc|].
  by apply Forall_app.
Qed.

Lemma keeps_emit self e :
  event_of_create self e → keeps (create_change self) (modify_world (emit e)).
Proof.
  intros He w. unfold modify_world; simpl. repeat split; try done.
  exists [e]. split; [done|]. by constructor.
Qed.

Section CreateFrame.

Context {collab : Collaborators}.

Lemma keeps_make_seeds R self : (∀ w, R w w) → keeps R (make_seeds self).
Proof. intros HR w. destruct (make_seeds_runs self w) as [s ->]. apply HR. Qed.

Lemma keeps_disperse_step self loc SED_file bg st cs :
  keeps (create_change self) (disperse_step self loc SED_file bg st cs).
Proof.
  pose proof (create_change_refl self) as Hrefl.
  pose proof (create_change_trans self) as Htrans.
  destruct cs as [cls seed_files]. unfold disperse_step.
  apply keeps_bind; [done|apply keeps_lift; done|]. intros first w w1 _.
  destruct first as [f|]; [|by apply keeps_ret].
  apply keeps_bind; [done|apply keeps_lift; done|]. intros cf ? ? _.
  apply keeps_bind; [done|apply keeps_lift; done|]. intros dm ? ? _.
  apply keeps_bind; [done|apply keeps_lift; done|]. intros inst ? ? _.
  apply keeps_bind; [done| |].
  - destruct (negb (background_done st)).
    + apply keeps_bind; [done|apply keeps_lift; done|]. intros bgimg ? ? _.
      apply keeps_bind; [done|by apply keeps_emit|]. intros [] ? ? _.
      apply keeps_bind; [done|apply keeps_lift; done|]. intros fn wa wb Hfn.
      apply lift_Ok in Hfn as [Hfn _].
      apply keeps_bind; [done| |].
      * apply keeps_emit. simpl. left.
        by destruct (background_image_filename (info self)); simplify_eq/=.
      * intros [] ? ? _. by apply keeps_ret.
    + apply keeps_bind; [done|by apply keeps_emit|]. intros [] ? ? _.
      by apply keeps_ret.
  - intros [final done] ? ? _.
    apply keeps_bind; [done|apply keeps_lift; done|]. intros d ? ? _.
    by apply keeps_ret.
Qed.

Lemma keeps_create self : keeps (create_change self) (create self).
Proof.
  pose proof (create_change_refl self) as Hrefl.
  pose proof (create_change_trans self) as Htrans.
  unfold create. apply keeps_bind; [done| |].
  - unfold composite_seed.
    apply keeps_bind; [done|by apply keeps_make_seeds|]. intros s ? ? _.
    apply keeps_bind; [done|apply keeps_lift; done|]. intros sed ? ? _.
    apply keeps_bind; [done|apply keeps_lift; done|]. intros inst ? ? _.
    apply keeps_bind; [done|apply keeps_lift; done|]. intros bg ? ? _.
    apply keeps_bind; [done|apply keeps_lift; done|]. intros c ? ? _.
    apply keeps_bind; [done| |].
    + unfold disperse_classes. apply keeps_bind; [done| |].
      * apply keeps_for_each; [done|done|]. intros st cs.
        apply keeps_disperse_step.
      * intros st ? ? _. by apply keeps_ret.
    + intros d ? ? _. by apply keeps_ret.
  - intros [c d] ? ? _. unfold finish_seed.
    apply keeps_bind; [done|apply keeps_lift; done|]. intros cropped ? ? _.
    apply keeps_bind; [done| |].
    + destruct (save_dispersed_seed (inputs self)); [|by apply keeps_ret].
      unfold save_dispersed_seed_image.
      apply keeps_bind; [done| |].
      * destruct (in_disp_seed_filename (inputs self)); [by apply keeps_ret|].
        by apply keeps_lift.
      * intros fn wa wb Hfn. apply keeps_emit. simpl. right.
        unfold disp_seed_filename.
        destruct (in_disp_seed_filename (inputs self)) as [fn0|].
        -- by apply io_ret_Ok in Hfn as [-> _].
        -- apply lift_Ok in Hfn as [Hfn _].
           by destruct (default_dispersed_filename (info self)); simplify_eq/=.
    + intros [] ? ? _.
      apply keeps_bind; [done|apply keeps_lift; done|]. intros gain ? ? _.
      apply keeps_bind; [done|apply keeps_lift; done|]. intros dark ? ? _.
      apply keeps_bind; [done|apply keeps_lift; done|]. intros y ? ? _.
      by apply keeps_ret.
Qed.

(** Whether it returns or raises, [create] leaves the environment and the
    files on disk as they are; beside calling the dispersers, it writes at
    most the background image file and the dispersed seed image file, under
    the names the object holds for them. *)
Theorem create_writes_two_files (self : WFSSSim) (w : world) :
  let w' := (create self w).1 in
  environ w' = environ w ∧ yaml_files w' = yaml_files w ∧ data_files w' = data_files w ∧
  ∃ new_events,
    events w' = (events w ++ new_events)%list ∧
    ∀ fn hdus, EvWriteFits fn hdus ∈ new_events →
      background_image_filename (info self) = Some fn ∨
      match in_disp_seed_filename (inputs self) with
      | Some given => fn = given
      | None => default_dispersed_filename (info self) = Some fn
      end.
Proof.
  cbn zeta. destruct (keeps_create self w) as (He & Hy & Hd & new & Hnew & Hall).
  do 3 (split; [done|]). exists new. split; [done|].
  intros fn hdus Hin. apply (proj1 (Forall_forall _ _) Hall) in Hin. simpl in Hin.
  destruct Hin as [Hb|Hs]; [by left|right].
  unfold disp_seed_filename in Hs.
  destruct (in_disp_seed_filename (inputs self)); [by injection Hs|done].
Qed.

End CreateFrame.

Lemma create_writes_two_files_witness :
  ∃ w' obs,
    create (collab := Bench.collaborators) Bench.sim Bench.disk_after_init = (w', Ok obs) ∧
    yaml_files w' = yaml_files Bench.disk_after_init ∧
    ∀ fn hdus, EvWriteFits fn hdus ∈ events w' →
      fn = "/out/obs_background_image.fits" ∨ fn = "/out/obs_dispersed_seed_image.fits".
Proof.
  destruct bench_create_runs as (w' & obs & Hrun). exists w', obs. split; [done|].
  pose proof (create_writes_two_files (collab := Bench.collaborators) Bench.sim
                Bench.disk_after_init) as H.
  cbn zeta in H. rewrite Hrun in H. simpl in H.
  destruct H as (_ & Hy & _ & new & Hnew & Hfiles).
  split; [done|]. intros fn hdus Hin. rewrite Hnew in Hin.
  destruct (Hfiles fn hdus Hin) as [Hb|Hs]; [left|right]; congruence.
Defined.

(** ** The end of [create], again *)

Section Finish2.

Context {collab : Collaborators}.

Lemma save_dispersed_seed_image_named self d w w' u :
  save_dispersed_seed_image self d w = (w', Ok u) →
  ∃ fn, disp_seed_filename self = Some fn ∧
        w' = emit (EvWriteFits fn
               (mkHDUList [("units", "e/sec")] [mkImageHDU d [("units", "e/sec")]])) w.
Proof.
  unfold save_dispersed_seed_image, disp_seed_filename. intros Hrun.
  apply io_bind_Ok in Hrun as (fn & w1 & Hfn & Hrun).
  exists fn. destruct (in_disp_seed_filename (inputs self)) as [fn0|].
  - apply io_ret_Ok in Hfn as [-> ->]. unfold modify_world in Hrun. split; congruence.
  - apply lift_Ok in Hfn as [Hfn ->]. unfold modify_world in Hrun.
    destruct (default_dispersed_filename (info self)); simplify_eq/=. done.
Qed.

(** What a successful run of the last part of [create] has done, with the
    name of the file saved. *)
Lemma finish_seed_run self c d w w' obs :
  finish_seed self c d w = (w', Ok obs) →
  ∃ cropped gain,
    crop_if_subarray c (zero_reference_pixels d) = Ok cropped ∧
    mean_gain self = Ok gain ∧
    seed obs = NdArray.div_scalar cropped gain ∧
    prepare_dark self = Ok (linDark obs) ∧
    wfss_yaml (info self) = Some (obs_paramfile obs) ∧
    (if save_dispersed_seed (inputs self)
     then ∃ fn, disp_seed_filename self = Some fn ∧
            w' = emit (EvWriteFits fn
                   (mkHDUList [("units", "e/sec")]
                      [mkImageHDU cropped [("units", "e/sec")]])) w
     else w' = w).
Proof.
  unfold finish_seed. intros Hrun.
  apply io_bind_Ok in Hrun as (cropped & w1 & Hcrop & Hrun).
  apply lift_Ok in Hcrop as [Hcrop ->].
  apply io_bind_Ok in Hrun as (u & w1 & Hsave & Hrun).
  apply io_bind_Ok in Hrun as (gain & w2 & Hgain & Hrun).
  apply lift_Ok in Hgain as [Hgain ->].
  apply io_bind_Ok in Hrun as (dark & w2 & Hdark & Hrun).
  apply lift_Ok in Hdark as [Hdark ->].
  apply io_bind_Ok in Hrun as (y & w2 & Hy & Hrun).
  apply lift_Ok in Hy as [Hy ->].
  apply io_ret_Ok in Hrun as [-> ->].
  exists cropped, gain. simpl. do 4 (split; [done|]). split.
  { by destruct (wfss_yaml (info self)); simplify_eq/=. }
  destruct (save_dispersed_seed (inputs self)).
  - by apply save_dispersed_seed_image_named in Hsave.
  - by apply io_ret_Ok in Hsave as [_ ->].
Qed.

Lemma map_div_mul (a : ndarray) (g : Qc) :
  g ≠ 0%Qc → NdArray.map (λ p, p * g)%Qc (NdArray.div_scalar a g) = a.
Proof.
  intros Hg. destruct a as [xl rows]. unfold NdArray.div_scalar, NdArray.map; simpl.
  f_equal. rewrite <- list_fmap_compose. rewrite <- (list_fmap_id rows) at 2.
  apply list_fmap_ext. intros i row _. simpl.
  rewrite <- list_fmap_compose. rewrite <- (list_fmap_id row) at 2.
  apply list_fmap_ext. intros j p _. simpl. field. done.
Qed.

(** When the dispersed seed image is saved, the file is the last thing
    written, under the name given to the constructor or else the default
    name; it holds the composite in e/sec, zeroed and cropped, with
    ['units'] set to ['e/sec'] in both headers; the seed handed to the
    exposure is that image divided by the gain, so the file is the seed
    times the gain. When it is not saved, nothing is written after the loop
    over the classes. *)
Theorem dispersed_seed_saved (self : WFSSSim) (w w' : world) (obs : Observation) :
  create self w = (w', Ok obs) →
  ∃ c composite w1 e_sec gain,
    composite_seed self w = (w1, Ok (c, composite)) ∧
    crop_if_subarray c (zero_reference_pixels composite) = Ok e_sec ∧
    mean_gain self = Ok gain ∧ seed obs = NdArray.div_scalar e_sec gain ∧
    (gain ≠ 0%Qc → NdArray.map (λ p, p * gain)%Qc (seed obs) = e_sec) ∧
    if save_dispersed_seed (inputs self)
    then ∃ fn,
           match in_disp_seed_filename (inputs self) with
           | Some given => fn = given
           | None => default_dispersed_filename (info self) = Some fn
           end ∧
           events w' =
             (events w1 ++
              [EvWriteFits fn (mkHDUList [("units", "e/sec")]
                                 [mkImageHDU e_sec [("units", "e/sec")]])])%list
    else w' = w1.
Proof.
  intros Hrun. apply create_Ok in Hrun as (c & composite & w1 & Hcomp & Hfin).
  apply finish_seed_run in Hfin as (e_sec & gain & Hcrop & Hgain & Hseed & _ & _ & Hsave).
  exists c, composite, w1, e_sec, gain. do 4 (split; [done|]). split.
  { intros Hg. rewrite Hseed. by apply map_div_mul. }
  destruct (save_dispersed_seed (inputs self)); [|done].
  destruct Hsave as (fn & Hfn & ->). exists fn. split; [|done].
  unfold disp_seed_filename in Hfn.
  destruct (in_disp_seed_filename (inputs self)); [by injection Hfn|done].
Qed.

End Finish2.

Lemma dispersed_seed_saved_witness :
  ∃ w' obs hdus,
    create (collab := Bench.collaborators) Bench.sim Bench.disk_after_init = (w', Ok obs) ∧
    last (events w') = Some (EvWriteFits "/out/obs_dispersed_seed_image.fits" hdus) ∧
    NdArray.map (λ p, p * Qc_of_Z 2)%Qc (seed obs) = Bench.flat 2 10.
Proof.
  destruct bench_create_runs as (w' & obs & Hrun).
  destruct (dispersed_seed_saved _ _ _ _ Hrun)
    as (c & composite & w1 & e_sec & gain & Hcomp & Hcrop & Hgain & Hseed & Hback & Hsave).
  vm_compute in Hcomp. injection Hcomp as <- <- <-.
  vm_compute in Hcrop. injection Hcrop as <-.
  vm_compute in Hgain. injection Hgain as <-.
  simpl in Hsave. destruct Hsave as (fn & Hfn & Hev). injection Hfn as <-.
  eexists w', obs, _. split; [exact Hrun|]. split.
  - rewrite Hev. reflexivity.
  - etrans; [exact (Hback ltac:(by_compute))|by_compute].
Defined.

(** ** The shape of the seed *)

Module ShapeFacts.
Import NdArray.

Lemma shape_zeros yl xl : shape (zeros yl xl) = (yl, xl).
Proof. unfold shape, nrows, zeros; simpl. by rewrite length_replicate. Qed.

Lemma shape_add a b : shape b = shape a → shape (add a b) = shape a.
Proof.
  unfold shape, nrows, add, map2; simpl. intros [= Hr Hc].
  rewrite length_zip_with. f_equal. lia.
Qed.

Lemma shape_foldl_add z l :
  Forall (λ x, shape x = shape z) l → shape (foldl add z l) = shape z.
Proof.
  revert z. induction l as [|x l IH]; intros z Hall; [done|].
  apply Forall_cons_1 in Hall as [Hx Hall]. simpl.
  rewrite IH; [by apply shape_add|].
  eapply Forall_impl; [exact Hall|]. simpl. intros y Hy.
  by rewrite shape_add.
Qed.

Lemma shape_map f a : shape (map f a) = shape a.
Proof. unfold shape, nrows, map; simpl. by rewrite length_fmap. Qed.

(** The shape of [a[r0:r1, c0:c1]], for bounds inside the array. *)
Lemma shape_slice2 a (r0 r1 c0 c1 : Z) :
  (0 ≤ r0)%Z → (0 ≤ r1 ≤ Z.of_nat (nrows a))%Z →
  (0 ≤ c0)%Z → (0 ≤ c1 ≤ Z.of_nat (ncols a))%Z →
  shape (slice2 a r0 r1 c0 c1) = (Z.to_nat (r1 - r0), Z.to_nat (c1 - c0)).
Proof.
  intros Hr0 Hr1 Hc0 Hc1. unfold shape, nrows, slice2 in *; simpl.
  by rewrite length_fmap, NdArrayFacts.py_slice_length, NdArrayFacts.slice_len_eq by lia.
Qed.

End ShapeFacts.

(** The bounds [crop_to_subarray] reads are the first four. *)
Lemma crop_to_subarray_Ok data bounds out :
  crop_to_subarray data bounds = Ok out →
  ∃ x0 y0 x1 y1 rest,
    bounds = x0 :: y0 :: x1 :: y1 :: rest ∧
    in_frame (NdArray.ncols data) x0 ∧ in_frame (NdArray.ncols data) x1 ∧
    in_frame (NdArray.nrows data) y0 ∧ in_frame (NdArray.nrows data) y1 ∧
    out = NdArray.slice2 data y0 (y1 + 1) x0 (x1 + 1).
Proof.
  destruct bounds as [|x0 [|y0 [|x1 [|y1 rest]]]].
  - unfold crop_to_subarray; simpl. done.
  - unfold crop_to_subarray; simpl. unfold id. by destruct (bound_ok _ _).
  - unfold crop_to_subarray; simpl. unfold id.
    by destruct (bound_ok _ x0), (bound_ok _ y0).
  - unfold crop_to_subarray; simpl. unfold id.
    by destruct (bound_ok _ x0), (bound_ok _ x1), (bound_ok _ y0).
  - intros Hcrop.
    assert (Heq : crop_to_subarray data (x0 :: y0 :: x1 :: y1 :: rest)
                  = crop_to_subarray data [x0; y0; x1; y1]) by done.
    rewrite Heq, crop_to_subarray_unfold in Hcrop.
    destruct (_ && _) eqn:E in Hcrop; [|done]. injection Hcrop as <-.
    rewrite !andb_true_iff, !bound_ok_in_frame in E.
    destruct E as (((? & ?) & ?) & ?). by exists x0, y0, x1, y1, rest.
Qed.

Section SeedShape.

Context {collab : Collaborators}.

Lemma composite_shape self loc SED_file bg s c w w' composite :
  disperse_classes self loc SED_file bg s c w = (w', Ok composite) →
  NdArray.shape composite = (ffsize c, ffsize c).
Proof.
  intros Hrun. apply disperse_classes_Ok in Hrun. cbn zeta in Hrun.
  destruct Hrun as [(_ & -> & _)|Hrun]; [apply ShapeFacts.shape_zeros|].
  destruct Hrun as (before & cls & files & after & bgimg & fn & _ & _ & _ & _ & _ & _
                    & Hall & ->).
  rewrite ShapeFacts.shape_foldl_add by done. apply ShapeFacts.shape_zeros.
Qed.

(** The composite of the dispersed images is a full frame, [ffsize] by
    [ffsize]. The seed handed to the exposure keeps that shape for a
    full-frame aperture ([NRCA5_FULL], [NRCB5_FULL], [NIS_CEN]); for any
    other aperture the first four subarray bounds are inside the frame and
    the seed has [max(0, yend - ystart + 1)] rows and
    [max(0, xend - xstart + 1)] columns. *)
Theorem seed_shape (self : WFSSSim) (w w' : world) (obs : Observation) :
  create self w = (w', Ok obs) →
  ∃ c composite w1,
    composite_seed self w = (w1, Ok (c, composite)) ∧
    NdArray.shape composite = (ffsize c, ffsize c) ∧
    if bool_decide (cat_array_name c ∈ fullframe_apertures)
    then NdArray.shape (seed obs) = (ffsize c, ffsize c)
    else ∃ xstart ystart xend yend rest,
           subarray_bounds c = xstart :: ystart :: xend :: yend :: rest ∧
           in_frame (ffsize c) xstart ∧ in_frame (ffsize c) xend ∧
           in_frame (ffsize c) ystart ∧ in_frame (ffsize c) yend ∧
           NdArray.shape (seed obs) =
             (Z.to_nat (yend - ystart + 1), Z.to_nat (xend - xstart + 1)).
Proof.
  intros Hrun. apply create_Ok in Hrun as (c & composite & w1 & Hcomp & Hfin).
  exists c, composite, w1. split; [done|].
  destruct (composite_seed_runs _ _ _ _ _ Hcomp) as (s & sed & bg & _ & _ & _ & _ & Hloop).
  apply composite_shape in Hloop as Hshape. split; [done|].
  apply finish_seed_Ok in Hfin as (cropped & gain & Hcrop & _ & -> & _).
  unfold NdArray.div_scalar. rewrite ShapeFacts.shape_map.
  pose proof (shape_zero_reference_pixels composite) as Hz. rewrite Hshape in Hz.
  unfold crop_if_subarray in Hcrop.
  destruct (decide (cat_array_name c ∈ fullframe_apertures)) as [Hfull|Hsub].
  - rewrite bool_decide_true by done. rewrite bool_decide_false in Hcrop by auto.
    by injection Hcrop as <-.
  - rewrite bool_decide_false by done. rewrite bool_decide_true in Hcrop by done.
    apply crop_to_subarray_Ok in Hcrop
      as (x0 & y0 & x1 & y1 & rest & Hb & Hx0 & Hx1 & Hy0 & Hy1 & ->).
    assert (Hr : NdArray.nrows (zero_reference_pixels composite) = ffsize c)
      by apply (f_equal fst Hz).
    assert (Hc : NdArray.ncols (zero_reference_pixels composite) = ffsize c)
      by apply (f_equal snd Hz).
    rewrite Hr in Hy0, Hy1. rewrite Hc in Hx0, Hx1.
    exists x0, y0, x1, y1, rest. do 5 (split; [done|]).
    unfold in_frame in *.
    rewrite ShapeFacts.shape_slice2 by lia. f_equal; f_equal; lia.
Qed.

End SeedShape.

Lemma seed_shape_witness :
  ∃ w' obs,
    create (collab := Bench.collaborators) Bench.sim Bench.disk_after_init = (w', Ok obs) ∧
    NdArray.shape (seed obs) = (2, 2).
Proof.
  destruct bench_create_runs as (w' & obs & Hrun). exists w', obs. split; [done|].
  destruct (seed_shape _ _ _ _ Hrun) as (c & composite & w1 & Hcomp & _ & Hshape).
  vm_compute in Hcomp. injection Hcomp as _ <- _.
  rewrite bool_decide_false in Hshape by by_compute.
  destruct Hshape as (x0 & y0 & x1 & y1 & rest & Hb & _ & _ & _ & _ & ->).
  by injection Hb as <- <- <- <- _.
Defined.

(** ** A scene with no source *)

(** Every pixel is 0. *)
Definition all_zero (a : ndarray) : Prop :=
  ∀ r c p, NdArray.pixel a r c = Some p → p = 0%Qc.

Lemma all_zero_rows a :
  all_zero a ↔ Forall (Forall (λ p, p = 0%Qc)) (NdArray.rows a).
Proof.
  unfold all_zero, NdArray.pixel. split.
  - intros H. apply Forall_lookup. intros r row Hr. apply Forall_lookup.
    intros c p Hc. apply (H r c). by rewrite Hr.
  - intros H r c p Hp.
    destruct (NdArray.rows a !! r) as [row|] eqn:Hr; simpl in Hp; [|done].
    pose proof (proj1 (Forall_lookup _ _) H r row Hr) as Hrow.
    by apply (proj1 (Forall_lookup _ _) Hrow c p).
Qed.

Lemma all_zero_zeros yl xl : all_zero (NdArray.zeros yl xl).
Proof.
  apply all_zero_rows. simpl. apply Forall_replicate, Forall_replicate. done.
Qed.

Lemma all_zero_zero_reference_pixels a :
  all_zero a → all_zero (zero_reference_pixels a).
Proof.
  intros Ha r c p. rewrite pixel_zero_reference_pixels.
  destruct (decide _); [|apply Ha].
  destruct (NdArray.pixel a r c); simpl; congruence.
Qed.

Lemma all_zero_slice2 a r0 r1 c0 c1 :
  all_zero a → all_zero (NdArray.slice2 a r0 r1 c0 c1).
Proof.
  rewrite !all_zero_rows. unfold NdArray.slice2, NdArray.py_slice; simpl. intros Ha.
  apply Forall_fmap. apply Forall_take, Forall_drop.
  eapply Forall_impl; [exact Ha|]. simpl. intros row Hrow.
  by apply Forall_take, Forall_drop.
Qed.

Lemma all_zero_div_scalar a g : all_zero a → all_zero (NdArray.div_scalar a g).
Proof.
  intros Ha r c p. unfold NdArray.div_scalar. rewrite pixel_map.
  destruct (NdArray.pixel a r c) as [x|] eqn:Hx; simpl; [|done].
  intros [= <-]. rewrite (Ha r c x Hx). unfold Qcdiv. ring.
Qed.

Section EmptyScene.

Context {collab : Collaborators}.

(** When no source class is populated - the first seed file of each class
    is [None] -, [create] calls no disperser and writes no background file;
    the seed it hands to the exposure is all zeros, and the only event is
    the saving of that image, when asked for. *)
Theorem nothing_to_disperse (self : WFSSSim) (w w' : world) (obs : Observation)
    (s : seeds) :
  create self w = (w', Ok obs) →
  make_seeds self w = (w, Ok s) →
  Forall (λ cs, ¬ populated cs.2) (classes s) →
  (∀ r col p, NdArray.pixel (seed obs) r col = Some p → p = 0%Qc) ∧
  ∃ saved, events w' = (events w ++ saved)%list ∧ seed_write self saved.
Proof.
  intros Hrun Hseeds Hnone.
  apply create_Ok in Hrun as (c & composite & w1 & Hcomp & Hfin).
  destruct (composite_seed_runs _ _ _ _ _ Hcomp)
    as (s' & sed & bg & Hseeds' & _ & _ & _ & Hloop).
  rewrite Hseeds in Hseeds'. injection Hseeds' as <-.
  apply disperse_classes_Ok in Hloop. cbn zeta in Hloop.
  destruct Hloop as [(_ & -> & ->)|Hloop].
  2:{ exfalso.
      destruct Hloop as (before & cls & files & after & bgimg & fn & Hcs & _ & Hpop & _).
      rewrite Hcs in Hnone. apply Forall_app in Hnone as [_ Hnone].
      by apply Forall_cons_1 in Hnone as [Hnone _]. }
  apply finish_seed_Ok in Hfin as (cropped & gain & Hcrop & _ & Hseed & _ & _ & Hsave).
  split.
  - rewrite Hseed. apply all_zero_div_scalar.
    pose proof (all_zero_zero_reference_pixels _ (all_zero_zeros (ffsize c) (ffsize c)))
      as Hz.
    unfold crop_if_subarray in Hcrop. case_bool_decide; [|by injection Hcrop as <-].
    apply crop_to_subarray_Ok in Hcrop as (? & ? & ? & ? & ? & _ & _ & _ & _ & _ & ->).
    by apply all_zero_slice2.
  - unfold seed_write. destruct (save_dispersed_seed (inputs self)).
    + destruct Hsave as [fn ->]. eexists [_]. split; [done|]. eauto.
    + subst w'. exists []. by rewrite app_nil_r.
Qed.

End EmptyScene.

(** The concrete setting, with a seed generator that finds no source. *)
Definition no_source_collaborators : Collaborators := {|
  MEAN_GAIN_niriss := @MEAN_GAIN_niriss Bench.collaborators;
  MEAN_GAIN_nircam := @MEAN_GAIN_nircam Bench.collaborators;
  NIRISS_GRISM_THROUGHPUT_FACTOR := @NIRISS_GRISM_THROUGHPUT_FACTOR Bench.collaborators;
  make_seed := λ _ _ pfile,
    mkCat pfile "seed.fits" None None None "NIS_CEN" 6 [] (Bench.flat 6 0) ∅;
  make_all_spectra := @make_all_spectra Bench.collaborators;
  day_of_year_background_spectrum := @day_of_year_background_spectrum Bench.collaborators;
  low_med_high_background_spectrum := @low_med_high_background_spectrum Bench.collaborators;
  calculate_background := @calculate_background Bench.collaborators;
  get_filter_throughput_file := @get_filter_throughput_file Bench.collaborators;
  grism_final := @grism_final Bench.collaborators;
  disperse_background_1D := @disperse_background_1D Bench.collaborators;
  fits_getdata := @fits_getdata Bench.collaborators;
  dark_files := @dark_files Bench.collaborators
|}.

Lemma nothing_to_disperse_witness :
  ∃ w' obs,
    create (collab := no_source_collaborators) Bench.sim Bench.disk_after_init
      = (w', Ok obs) ∧
    (∀ r col p, NdArray.pixel (seed obs) r col = Some p → p = 0%Qc) ∧
    ∃ saved, events w' = (events Bench.disk_after_init ++ saved)%list ∧
             seed_write Bench.sim saved.
Proof.
  destruct (create (collab := no_source_collaborators) Bench.sim Bench.disk_after_init)
    as [w' [obs|e]] eqn:Hrun; [|by vm_compute in Hrun].
  destruct (make_seeds (collab := no_source_collaborators) Bench.sim Bench.disk_after_init)
    as [w1 [s|e]] eqn:Hseeds; [|by vm_compute in Hseeds].
  assert (w1 = Bench.disk_after_init) as ->.
  { vm_compute in Hseeds. by injection Hseeds as <- _. }
  exists w', obs. split; [done|].
  apply (nothing_to_disperse _ _ _ _ _ Hrun Hseeds).
  vm_compute in Hseeds. injection Hseeds as <-.
  repeat constructor; by intros [f [=]].
Defined.

(** ** The errors of [create] *)

(** What the constructor leaves set on the object. *)
Definition constructed (self : WFSSSim) : Prop :=
  ∃ inst m d cf dd p y rest disp bkgd,
    paramfiles self = y :: rest ∧
    wfss_yaml (info self) = Some y ∧ params (info self) = Some p ∧
    instrument (info self) = Some inst ∧ module (info self) = Some m ∧
    detector (info self) = Some d ∧ crossing_filter (info self) = Some cf ∧
    dispersion_direction (info self) = Some dd ∧
    default_dispersed_filename (info self) = Some disp ∧
    background_image_filename (info self) = Some bkgd ∧
    ((inst = "nircam" ∧ m ∈ ["A"; "B"]) ∨ inst = "niriss").

Lemma init_constructed pf ins ccs w w' self :
  init pf ins ccs w = (w', Ok self) → constructed self.
Proof.
  intros Hinit. apply init_inv in Hinit as (Henv & Hins & Hfind & Hci).
  pose proof (find_param_info_attrs _ _ _ _ _ Hfind)
    as (q0 & rest0 & p0 & p' & _ & _ & (Hinst0 & Hniriss & Hnircam) & Hp' & Hattrs).
  apply find_param_info_Ok in Hfind as (y & p & rest & Hl & Hy & Hp & Hmode & Hin & _).
  apply check_inputs_validated in Hci
    as (_ & _ & inst & cf & dd & Hinst & Hcf & Hdd & Hddin & Hcases & Hdark).
  destruct Hattrs as (Hdisp & Hbkgd & _).
  rewrite Hinst in Hinst0. injection Hinst0 as Hinst0.
  destruct Hcases as [(-> & Hcfin & m & Hm & Hmin)|(-> & Hcfin)].
  - destruct (Hnircam (eq_sym Hinst0)) as (m' & _ & Hm' & Hd).
    exists "nircam", m, (substring 0 5 (Readout_array_name p0)), cf, dd, p, y, rest.
    eexists _, _. do 10 (split; [done|]). left. done.
  - destruct (Hniriss (eq_sym Hinst0)) as (Hm & Hd).
    exists "niriss", "N", "NIS", cf, dd, p, y, rest.
    eexists _, _. do 10 (split; [done|]). right. done.
Qed.

Lemma for_each_Raise {A S} (body : S → A → io (S * bool)) l : ∀ s w w' e,
  for_each body s l w = (w', Raise e) →
  ∃ s1 x w1 w2, x ∈ l ∧ body s1 x w1 = (w2, Raise e).
Proof.
  induction l as [|x l IH]; intros s w w' e Hrun; [done|].
  rewrite for_each_cons_unfold in Hrun.
  destruct (body s x w) as [w1 [[s1 [|]]|e1]] eqn:Hbody.
  - apply IH in Hrun as (s2 & x2 & wa & wb & Hin & Hx).
    exists s2, x2, wa, wb. split; [by right|done].
  - done.
  - injection Hrun as <- <-. exists s, x, w, w1. split; [by left|done].
Qed.

Lemma crop_to_subarray_Raise data bounds e :
  crop_to_subarray data bounds = Raise e → e = subarray_error ∨ e = IndexError.
Proof.
  unfold crop_to_subarray. cbn zeta.
  destruct (forallb _ _); [|intros [= <-]; by left].
  destruct bounds as [|b0 [|b1 [|b2 [|b3 rest]]]]; simpl; intros [= <-]; by right.
Qed.

Definition broadcast_error : exn := ValueError "operands could not be broadcast together".

Section CreateErrors.

Context {collab : Collaborators}.

Lemma make_seeds_nonempty self w y rest :
  paramfiles self = y :: rest →
  ∃ s c, make_seeds self w = (w, Ok s) ∧ cat s = Some c ∧
    Forall (λ cs, cs.2 ≠ []) (classes s).
Proof.
  intros Hpf. unfold make_seeds. rewrite make_seeds_loop, Hpf. cbn zeta.
  set (files := if create_continuum_seds self then _ else _).
  assert (Hne : files ≠ []) by (subst files; by destruct (create_continuum_seds self)).
  destruct files as [|f files]; [done|]. clear Hne.
  rewrite fmap_cons.
  set (cats := _ :: _).
  destruct (last cats) as [c|] eqn:Hlast.
  2:{ apply last_None in Hlast. done. }
  eexists _, c. split; [reflexivity|]. split; [done|].
  unfold classes; simpl. by repeat constructor.
Qed.

Definition resolved (self : WFSSSim) (bg : background) : Prop :=
  ∃ inst p, instrument (info self) = Some inst ∧ params (info self) = Some p ∧
    is_Some (dmode bg) ∧
    (inst = "nircam" → is_Some (back_spectrum bg)) ∧
    (inst = "niriss" → is_Some (background_file bg) ∧
       (scaling_factor bg = None → simSignals_bkgdrate p = PyNotReal)).

Lemma resolve_background_constructed self :
  constructed self →
  match resolve_background self with
  | Ok bg => resolved self bg
  | Raise e => e = nircam_rate_error ∨ e = nircam_type_error ∨ e = niriss_rate_error
  end.
Proof.
  intros (inst & m & d & cf & dd & p & y & rest & disp & bkgd & _ & _ & Hp & Hinst & Hm
          & Hd & Hcf & Hdd & _ & _ & Hcases).
  unfold resolve_background, resolved. rewrite Hinst, Hm, Hd, Hcf, Hdd, Hp.
  destruct Hcases as [[-> _]| ->]; simpl.
  - destruct (simSignals_use_dateobs_for_background p).
    + eexists _, _. do 2 (split; [done|]). simpl. split; [by eexists|].
      split; [by eexists|done].
    + destruct (simSignals_bkgdrate p) as [s|x|]; try (by auto).
      destruct (is_tier s); [|by auto]. simpl.
      eexists _, _. do 2 (split; [done|]). simpl. split; [by eexists|].
      split; [by eexists|done].
  - destruct (simSignals_bkgdrate p) as [s|x|] eqn:Hrate.
    + destruct (is_tier s); [|by auto].
      eexists _, _. do 2 (split; [done|]). simpl. split; [by eexists|].
      split; [done|]. intros _. split; [by eexists|done].
    + eexists _, _. do 2 (split; [done|]). simpl. split; [by eexists|].
      split; [done|]. intros _. split; [by eexists|done].
    + eexists _, _. do 2 (split; [done|]). simpl. split; [by eexists|].
      split; [done|]. intros _. split; [by eexists|done].
Qed.

Lemma disperse_step_Raise self loc SED_file bg st cls files w w' e :
  constructed self → resolved self bg → files ≠ [] →
  disperse_step self loc SED_file bg st (cls, files) w = (w', Raise e) →
  (e = UnboundLocalError "scaling_factor" ∧ instrument (info self) = Some "niriss" ∧
   ∃ p, params (info self) = Some p ∧ simSignals_bkgdrate p = PyNotReal) ∨
  e = broadcast_error.
Proof.
  intros (inst & m & d & cf & dd & p & y & rest & disp & bkgd & _ & _ & Hp & Hinst & Hm
          & Hd & Hcf & Hdd & _ & Hbkgd & Hcases)
         (inst' & p' & Hinst' & Hp' & [dm Hdm] & Hnircam & Hniriss) Hne.
  rewrite Hinst in Hinst'. injection Hinst' as <-.
  rewrite Hp in Hp'. injection Hp' as <-.
  destruct files as [|first files]; [done|].
  unfold disperse_step. rewrite Hcf, Hdm, Hinst, Hbkgd.
  destruct first as [f|]; [|done].
  unfold mbind, io_bind, lift, modify_world, mret, io_ret, py_index; simpl.
  destruct (background_done st); simpl.
  - unfold NdArray.iadd. destruct (decide _); [done|]. intros [= _ <-]. by right.
  - unfold make_background.
    destruct Hcases as [[-> _]| ->]; simpl.
    + destruct (Hnircam eq_refl) as [sp ->]. simpl.
      unfold NdArray.iadd. destruct (decide _); [done|]. intros [= _ <-]. by right.
    + destruct (Hniriss eq_refl) as [[bf ->] Hsf]. simpl.
      destruct (scaling_factor bg) as [sf|]; simpl.
      * unfold NdArray.iadd. destruct (decide _); [done|]. intros [= _ <-]. by right.
      * intros [= _ <-]. left. split; [done|]. split; [done|]. exists p. auto.
Qed.

Lemma mean_gain_Raise self e :
  constructed self → mean_gain self = Raise e →
  instrument (info self) = Some "nircam" ∧
  ∃ key, key ∈ ["lwa"; "lwb"] ∧ MEAN_GAIN_nircam !! key = None ∧ e = KeyError key.
Proof.
  intros (inst & m & d & cf & dd & p & y & rest & disp & bkgd & _ & _ & Hp & Hinst & Hm
          & Hd & Hcf & Hdd & _ & Hbkgd & Hcases).
  unfold mean_gain. rewrite Hinst, Hm.
  destruct Hcases as [[-> Hin]| ->]; simpl; [|by intros [=]].
  apply elem_of_cons in Hin as [->|Hin].
  - change ("lw" +:+ lower "A") with "lwa".
    destruct (MEAN_GAIN_nircam !! "lwa") eqn:Hk; [by intros [=]|].
    intros [= <-]. split; [done|]. exists "lwa". split; [by left|done].
  - apply list_elem_of_singleton in Hin as ->.
    change ("lw" +:+ lower "B") with "lwb".
    destruct (MEAN_GAIN_nircam !! "lwb") eqn:Hk; [by intros [=]|].
    intros [= <-]. split; [done|]. exists "lwb". split; [by right; left|done].
Qed.

(** The exceptions [create] can raise on an object the constructor has
    returned. *)
Definition create_error (self : WFSSSim) (e : exn) : Prop :=
  e = nircam_rate_error ∨ e = nircam_type_error ∨ e = niriss_rate_error ∨
  (e = UnboundLocalError "scaling_factor" ∧ instrument (info self) = Some "niriss" ∧
   ∃ p, params (info self) = Some p ∧ simSignals_bkgdrate p = PyNotReal) ∨
  e = broadcast_error ∨ e = subarray_error ∨ e = IndexError ∨
  (instrument (info self) = Some "nircam" ∧
   ∃ key, key ∈ ["lwa"; "lwb"] ∧ MEAN_GAIN_nircam !! key = None ∧ e = KeyError key).

Lemma composite_seed_Raise self w w' e :
  constructed self → composite_seed self w = (w', Raise e) → create_error self e.
Proof.
  intros Hc Hrun. pose proof Hc as Hc'.
  destruct Hc' as (inst & m & d & cf & dd & p & y & rest & disp & bkgd & Hpf & _ & Hp
                   & Hinst & Hm & _).
  destruct (make_seeds_nonempty self w y rest Hpf) as (s & c & Hseeds & Hcat & Hne).
  unfold composite_seed in Hrun.
  apply io_bind_Raise in Hrun as [Hrun|(s' & w1 & Hs & Hrun)]; [congruence|].
  rewrite Hseeds in Hs. injection Hs as <- <-.
  assert (Hsed : ∃ sed, continuum_seds self s = Ok sed).
  { unfold continuum_seds. destruct (create_continuum_seds self); [|by eexists].
    rewrite Hcat, Hm. simpl. by eexists. }
  destruct Hsed as [sed Hsed]. rewrite Hsed, Hinst, Hcat in Hrun.
  unfold mbind at 1, io_bind at 1, lift at 1 in Hrun.
  unfold mbind at 1, io_bind at 1, lift at 1 in Hrun. simpl in Hrun.
  pose proof (resolve_background_constructed self Hc) as Hres.
  apply io_bind_Raise in Hrun as [Hrun|(bg & w1 & Hbg & Hrun)].
  { unfold lift in Hrun. injection Hrun as _ Hrun. rewrite Hrun in Hres.
    unfold create_error. tauto. }
  unfold lift in Hbg. injection Hbg as <- Hbg. rewrite Hbg in Hres.
  unfold mbind at 1, io_bind at 1, lift at 1 in Hrun. simpl in Hrun.
  apply io_bind_Raise in Hrun as [Hrun|(x & w1 & _ & Hrun)]; [|done].
  unfold disperse_classes in Hrun.
  apply io_bind_Raise in Hrun as [Hrun|(st & w1 & _ & Hrun)]; [|done].
  apply for_each_Raise in Hrun as (s1 & [cls files] & wa & wb & Hin & Hstep).
  apply disperse_step_Raise in Hstep; [unfold create_error; tauto|done|done|].
  fold (classes s) in Hin.
  apply (proj1 (Forall_forall _ _) Hne) in Hin. done.
Qed.

Lemma finish_seed_Raise self c composite w w' e :
  constructed self → finish_seed self c composite w = (w', Raise e) →
  create_error self e.
Proof.
  intros Hc Hrun. pose proof Hc as Hc'.
  destruct Hc' as (inst & m & d & cf & dd & p & y & rest & disp & bkgd & Hpf & Hy & Hp
                   & Hinst & Hm & _ & _ & _ & Hdisp & _).
  unfold finish_seed in Hrun. cbn zeta in Hrun.
  apply io_bind_Raise in Hrun as [Hrun|(cropped & w1 & _ & Hrun)].
  { unfold lift in Hrun. injection Hrun as _ Hrun. unfold crop_if_subarray in Hrun.
    case_bool_decide; [|done].
    apply crop_to_subarray_Raise in Hrun. unfold create_error. tauto. }
  apply io_bind_Raise in Hrun as [Hrun|(u & w2 & _ & Hrun)].
  { destruct (save_dispersed_seed (inputs self)); [|done].
    unfold save_dispersed_seed_image in Hrun. rewrite Hdisp in Hrun.
    by destruct (in_disp_seed_filename (inputs self)). }
  apply io_bind_Raise in Hrun as [Hrun|(gain & w3 & _ & Hrun)].
  { unfold lift in Hrun. injection Hrun as _ Hrun.
    apply mean_gain_Raise in Hrun; [|done]. unfold create_error. tauto. }
  exfalso. unfold prepare_dark in Hrun. rewrite Hy in Hrun.
  destruct (override_dark (inputs self)); simpl in Hrun; [|done|done].
  by case_bool_decide.
Qed.

(** On an object the constructor has returned, [create] raises nothing
    but: the three [ValueError]s of the background level; the
    [UnboundLocalError] on [scaling_factor], for NIRISS with a level that
    is neither a string nor a real number; the [ValueError] of an image
    that cannot be added to the composite; the [ValueError] and the
    [IndexError] of the cropping; and, for NIRCam, the [KeyError] of a mean
    gain that is not in the table. No attribute is missing, and the loop
    over the parameter files always leaves [cat] bound. *)
Theorem create_errors (pf : paramfiles_arg) (ins : UserInputs) (ccs : bool)
    (w0 w1 : world) (self : WFSSSim) (w w' : world) (e : exn) :
  init pf ins ccs w0 = (w1, Ok self) →
  create self w = (w', Raise e) →
  create_error self e.
Proof.
  intros Hinit Hrun. apply init_constructed in Hinit.
  unfold create in Hrun.
  apply io_bind_Raise in Hrun as [Hrun|([c composite] & wa & _ & Hrun)].
  - by apply composite_seed_Raise in Hrun.
  - by apply finish_seed_Raise in Hrun.
Qed.

End CreateErrors.

(** A NIRCam file whose background level is no tier, the date not being
    used: the constructor accepts it, [create] raises. *)
Definition nircam_bad_level : Params :=
  mkParams "NIRCAM" "wfss" "NRCA5_FULL" "F444W" "GRISMR" "obs.fits" "/out" "2022-01-01"
    false ["ptsrc.cat"] (PyStr "nonsense") false 0%Qc 0%Qc "fluxcal.txt" "config".

Lemma create_errors_witness :
  ∃ w1 self w' e,
    init (FileList ["/in/bad.yaml"]) Bench.defaults true
      (mkWorld {["MIRAGE_DATA" := "/data"]} {["/in/bad.yaml" := nircam_bad_level]} ∅ [])
      = (w1, Ok self) ∧
    create (collab := Bench.collaborators) self w1 = (w', Raise e) ∧
    create_error (collab := Bench.collaborators) self e ∧ e = nircam_rate_error.
Proof.
  destruct (init (FileList ["/in/bad.yaml"]) Bench.defaults true
              (mkWorld {["MIRAGE_DATA" := "/data"]} {["/in/bad.yaml" := nircam_bad_level]}
                 ∅ []))
    as [w1 [self|e0]] eqn:Hinit; [|by vm_compute in Hinit].
  destruct (create (collab := Bench.collaborators) self w1) as [w' [obs|e]] eqn:Hrun.
  { exfalso. vm_compute in Hinit. injection Hinit as <- <-. by vm_compute in Hrun. }
  exists w1, self, w', e. split; [done|]. split; [done|]. split.
  - exact (create_errors _ _ _ _ _ _ _ _ _ Hinit Hrun).
  - vm_compute in Hinit. injection Hinit as <- <-. vm_compute in Hrun.
    by injection Hrun as _ <-.
Defined.
